(** * Atticus / Aven: a voice-agent session orchestrator

    Shallow embedding of [src/languages.ts], [src/types.ts] and the two
    orchestrator classes of [src/aven.ts] ([Aven], the single-tool profile,
    and [Atticus], the inspect-then-act profile), followed by the properties
    established about them.

    Conventions.
    - JavaScript values that may be [undefined]/[null] are [option]s.
    - [a || b] on strings is [or_else]; [a ?? b] is [nullish].
    - Every method of the class is a computation in the monad [M]: it reads
      and writes the instance ([Aven] record), may complete abruptly with a
      thrown value, and appends to a trace of externally visible effects
      (events handed to [emit], calls made on the realtime session, code
      handed to [new Function]).
    - What the collaborators answer (does [session.connect] resolve, what
      does the snapshot compressor return, what does evaluating the
      generated code do) is supplied as an argument of the operation. *)

From stdpp Require Import gmap strings list pretty.

Open Scope string_scope.
Open Scope list_scope.

(* ====================================================================== *)
(** ** JavaScript idioms *)
(* ====================================================================== *)

(** Truthiness of a possibly absent string: absent and [""] are falsy. *)
Definition truthy (o : option string) : bool :=
  match o with
  | Some s => negb (String.eqb s "")
  | None => false
  end.

(** [o || d] for a possibly absent string [o]. *)
Definition or_else (o : option string) (d : string) : string :=
  match o with
  | Some s => if String.eqb s "" then d else s
  | None => d
  end.

(** [o || null] for a possibly absent string [o]. *)
Definition or_null (o : option string) : option string :=
  match o with
  | Some s => if String.eqb s "" then None else Some s
  | None => None
  end.

(** [o ?? d]. *)
Definition nullish {A} (o : option A) (d : A) : A :=
  match o with
  | Some a => a
  | None => d
  end.

(** The bytes of a string; strings hold text as UTF-8. *)
Fixpoint bytes (s : string) : list nat :=
  match s with
  | EmptyString => []
  | String c rest => Ascii.nat_of_ascii c :: bytes rest
  end.

(** Whether a byte sequence is made of white space and line terminators
    only, the characters [String.prototype.trim] strips: U+0009 to U+000D,
    U+0020, U+00A0, U+1680, U+2000 to U+200A, U+2028, U+2029, U+202F,
    U+205F, U+3000 and U+FEFF, each by its UTF-8 encoding. *)
Fixpoint blank (l : list nat) : bool :=
  match l with
  | [] => true
  | 9 :: r | 10 :: r | 11 :: r | 12 :: r | 13 :: r | 32 :: r => blank r
  | 194 :: 160 :: r => blank r
  | 225 :: 154 :: 128 :: r => blank r
  | 226 :: 128 :: c :: r =>
      (Nat.leb 128 c && Nat.leb c 138 || Nat.eqb c 168 || Nat.eqb c 169
       || Nat.eqb c 175) && blank r
  | 226 :: 129 :: 159 :: r => blank r
  | 227 :: 128 :: 128 :: r => blank r
  | 239 :: 187 :: 191 :: r => blank r
  | _ => false
  end.

(** [s.trim() === ""] *)
Definition isBlank (s : string) : bool := blank (bytes s).

(** A value thrown by JavaScript code, as far as a [catch] block of this
    program looks at it: an [Error] object (of some class, with its
    message) or any other value.  These are the values on which
    [error instanceof Error] and [error.message] can be read.  A value on
    which those reads throw in turn is not among them; [executeAction],
    whose contract is about every thrown value, is also given over such
    values, in [Unguarded] below. *)
Inductive JSThrown :=
| ErrorObject (class message : string)
| NonError (shown : string).

(** [error instanceof Error ? error.message : fallback]. *)
Definition messageOr (e : JSThrown) (fallback : string) : string :=
  match e with
  | ErrorObject _ m => m
  | NonError _ => fallback
  end.

(** Values a piece of evaluated code can hand back; only [null] and
    [undefined] are told apart from the rest. *)
Inductive JSValue :=
| JSNull
| JSUndefined
| JSOther (shown : string).

(* ====================================================================== *)
(** ** src/languages.ts *)
(* ====================================================================== *)

Module Languages.

Definition LANGUAGE_NAMES : gmap string string :=
  list_to_map
    [ ("en", "English"); ("hi", "Hindi"); ("es", "Spanish"); ("fr", "French");
      ("de", "German"); ("it", "Italian"); ("pt", "Portuguese");
      ("ru", "Russian"); ("ja", "Japanese"); ("ko", "Korean");
      ("zh", "Chinese"); ("ar", "Arabic"); ("bn", "Bengali");
      ("pa", "Punjabi"); ("ta", "Tamil"); ("te", "Telugu"); ("mr", "Marathi");
      ("gu", "Gujarati"); ("kn", "Kannada"); ("ml", "Malayalam");
      ("th", "Thai"); ("vi", "Vietnamese"); ("id", "Indonesian");
      ("ms", "Malay"); ("tr", "Turkish"); ("pl", "Polish"); ("nl", "Dutch");
      ("sv", "Swedish"); ("da", "Danish"); ("no", "Norwegian");
      ("fi", "Finnish"); ("cs", "Czech"); ("sk", "Slovak");
      ("hu", "Hungarian"); ("ro", "Romanian"); ("bg", "Bulgarian");
      ("uk", "Ukrainian"); ("el", "Greek"); ("he", "Hebrew");
      ("fa", "Persian"); ("ur", "Urdu"); ("sw", "Swahili") ].

(** Languages the transcription API accepts. *)
Definition SUPPORTED_TRANSCRIPTION_LANGUAGES : gset string :=
  list_to_set
    [ "af"; "ar"; "az"; "be"; "bg"; "bs"; "ca"; "cs"; "cy"; "da"; "de"; "el";
      "en"; "es"; "et"; "fa"; "fi"; "fr"; "gl"; "he"; "hi"; "hr"; "hu"; "hy";
      "id"; "is"; "it"; "iw"; "ja"; "kk"; "kn"; "ko"; "lt"; "lv"; "mi"; "mk";
      "mr"; "ms"; "ne"; "nl"; "no"; "pl"; "pt"; "ro"; "ru"; "sk"; "sl"; "sr";
      "sv"; "sw"; "ta"; "th"; "tl"; "tr"; "uk"; "ur"; "vi"; "zh" ].

Definition LANGUAGE_GREETINGS : gmap string string :=
  list_to_map
    [ ("en", "Hello!"); ("hi", "नमस्ते!"); ("es", "¡Hola!");
      ("fr", "Bonjour!"); ("de", "Hallo!"); ("it", "Ciao!"); ("pt", "Olá!");
      ("ru", "Привет!"); ("ja", "こんにちは!"); ("ko", "안녕하세요!");
      ("zh", "你好!"); ("ar", "مرحبا!"); ("bn", "নমস্কার!");
      ("pa", "ਸਤ ਸ੍ਰੀ ਅਕਾਲ!"); ("ta", "வணக்கம்!"); ("te", "నమస్కారం!");
      ("mr", "नमस्कार!"); ("gu", "નમસ્તે!"); ("kn", "ನಮಸ್ಕಾರ!");
      ("ml", "നമസ്കാരം!"); ("th", "สวัสดี!"); ("vi", "Xin chào!");
      ("id", "Halo!"); ("ms", "Hai!"); ("tr", "Merhaba!"); ("pl", "Cześć!");
      ("nl", "Hallo!"); ("sv", "Hej!"); ("da", "Hej!"); ("no", "Hei!");
      ("fi", "Hei!"); ("cs", "Ahoj!"); ("sk", "Ahoj!"); ("hu", "Szia!");
      ("ro", "Salut!"); ("bg", "Здравей!"); ("uk", "Привіт!");
      ("el", "Γεια!"); ("he", "שלום!"); ("fa", "سلام!");
      ("ur", "السلام علیکم!"); ("sw", "Jambo!") ].

(** The two tables are plain object literals, so indexing one with a
    name that [Object.prototype] defines gives the inherited member, not
    [undefined].  Eleven of the twelve names are functions and
    [__proto__] is the prototype object.  Every caller of the two lookup
    functions puts the result in a template literal, so what is kept of
    such a member is the text a template literal makes of it. *)
Definition OBJECT_PROTOTYPE_FUNCTIONS : list string :=
  [ "__defineGetter__"; "__defineSetter__"; "__lookupGetter__";
    "__lookupSetter__"; "hasOwnProperty"; "isPrototypeOf";
    "propertyIsEnumerable"; "toLocaleString"; "toString"; "valueOf" ].

Definition inherited (key : string) : option string :=
  if String.eqb key "constructor"
  then Some "function Object() { [native code] }"
  else if String.eqb key "__proto__"
  then Some "[object Object]"
  else if bool_decide (key ∈ OBJECT_PROTOTYPE_FUNCTIONS)
  then Some ("function " +:+ key +:+ "() { [native code] }")
  else None.

(** [table[key]] on a plain object: an own property, else an inherited
    member, else [undefined]. *)
Definition index (table : gmap string string) (key : string) : option string :=
  match table !! key with
  | Some v => Some v
  | None => inherited key
  end.

(** [LANGUAGE_NAMES[code] || code] *)
Definition getLanguageName (code : string) : string :=
  or_else (index LANGUAGE_NAMES code) code.

(** [LANGUAGE_GREETINGS[code] || "Hello!"] *)
Definition getLanguageGreeting (code : string) : string :=
  or_else (index LANGUAGE_GREETINGS code) "Hello!".

(** [SUPPORTED_TRANSCRIPTION_LANGUAGES.has(code)] *)
Definition isTranscriptionSupported (code : string) : bool :=
  bool_decide (code ∈ SUPPORTED_TRANSCRIPTION_LANGUAGES).

End Languages.

Export Languages.

(* ====================================================================== *)
(** ** src/types.ts *)
(* ====================================================================== *)

Record AgentConfig := {
  name : string;
  instructions : string;
}.

Record D2SnapOptions := {
  maxTokens : option nat;
  assignUniqueIDs : option bool;
}.

(** A handle on a DOM element.  Its content is read from the live page each
    time the orchestrator captures it, so readings are arguments of the
    capturing operations rather than a field of the handle. *)
Definition Element := nat.

Record UIConfig := {
  enabled : bool;
  rootElement : option Element;
  d2SnapOptions : option D2SnapOptions;
  autoUpdate : option bool;
  autoUpdateInterval : option nat;
}.

(** The constructor argument.  TypeScript declares [clientSecret] and
    [agent] as required, but types are erased and the library is also
    consumed from plain scripts, so both can be absent at run time. *)
Record AvenConfig := {
  clientSecret : option string;
  agent : option AgentConfig;
  language : option string;
  model : option string;
  voice : option string;
  autoGreet : option bool;
  greetingMessage : option string;
  debug : option bool;
  doNotExecuteActions : option bool;
  ui : option UIConfig;
}.

Inductive AvenStatus :=
| status_idle
| status_connecting
| status_connected
| status_error.

Inductive ConversationState :=
| conv_idle
| ai_speaking
| user_turn
| user_speaking.

#[global] Instance AvenStatus_eq_dec : EqDecision AvenStatus.
Proof. solve_decision. Defined.

#[global] Instance ConversationState_eq_dec : EqDecision ConversationState.
Proof. solve_decision. Defined.

(** One entry of a raw item's [content] array; [ctype] is its [type]. *)
Record ContentEntry := {
  ctype : string;
  text : option string;
  transcript : option string;
}.

(** A [RealtimeItem] of the realtime SDK, with the fields this code reads.
    [itemId] is [""] when the backend gave none; [content] is absent on
    items that carry none (function calls, for instance). *)
Record RealtimeItem := {
  itemId : string;
  type : string;
  role : string;
  content : option (list ContentEntry);
}.

Inductive MessageContent :=
| text_content (t : string)
| audio_content (tr : option string).

Record Message := {
  id : string;
  msg_role : string;
  msg_content : MessageContent;
  raw : RealtimeItem;
  timestamp : nat;
}.

Inductive UIActionType :=
| click | type_ | scroll | focus | hover | select | navigate | read | other.

Record UIAction := {
  action_id : string;
  outputText : string;
  outputCode : option string;
  actionDescription : option string;
  targetElement : option string;
  actionType : option UIActionType;
  action_timestamp : nat;
}.

Record AvenState := {
  st_status : AvenStatus;
  st_conversationState : ConversationState;
  st_error : option string;
  st_history : list Message;
  st_isConnected : bool;
  st_isAiSpeaking : bool;
  st_isUserSpeaking : bool;
}.

(** The events of [AvenEvents] (and the two added by [Atticus]), each with
    the arguments it is published with. *)
Inductive Event :=
| statusChange (s : AvenStatus)
| conversationStateChange (c : ConversationState)
| error (e : string)
| message (m : Message)
| historyChange (h : list Message)
| stateChange (s : AvenState)
| agentStart
| agentEnd
| userAudio
| connected
| disconnected
| action (a : UIAction)
| audioStart
| audioEnd.

(** The key under which an event is filed in the listener registry. *)
Definition eventName (e : Event) : string :=
  match e with
  | statusChange _ => "statusChange"
  | conversationStateChange _ => "conversationStateChange"
  | error _ => "error"
  | message _ => "message"
  | historyChange _ => "historyChange"
  | stateChange _ => "stateChange"
  | agentStart => "agentStart"
  | agentEnd => "agentEnd"
  | userAudio => "userAudio"
  | connected => "connected"
  | disconnected => "disconnected"
  | action _ => "action"
  | audioStart => "audioStart"
  | audioEnd => "audioEnd"
  end.

(* ====================================================================== *)
(** ** The instance and its collaborators *)
(* ====================================================================== *)

(** The two classes of [src/aven.ts].  They share every member except the
    tool set, the gender directive, the turn-signal handlers and the
    arguments given to the snapshot compressor. *)
Inductive Class := AvenClass | AtticusClass.

(** [this.config]: the constructor argument merged with the defaults.
    [clientSecret] and [agent] are copied as they came. *)
Record EffectiveConfig := {
  cfg_clientSecret : option string;
  cfg_agent : option AgentConfig;
  cfg_model : string;
  cfg_voice : string;
  cfg_language : string;
  cfg_autoGreet : bool;
  cfg_greetingMessage : string;
  cfg_debug : bool;
  cfg_doNotExecuteActions : bool;
  ui_enabled : bool;
  ui_rootElement : option Element;
  ui_autoUpdate : bool;
  ui_autoUpdateInterval : nat;
  ui_maxTokens : nat;
  ui_assignUniqueIDs : option bool;
}.

(** What is handed to [new RealtimeAgent]. *)
Record RealtimeAgent := {
  ra_name : string;
  ra_instructions : string;
  ra_tools : list string;
  ra_voice : string;
}.

(** [config.inputAudioTranscription] of the session options. *)
Record TranscriptionConfig := {
  tc_model : string;
  tc_language : option string;
}.

(** What is handed to [new RealtimeSession]. *)
Record RealtimeSession := {
  rs_agent : RealtimeAgent;
  rs_model : string;
  rs_transcription : TranscriptionConfig;
}.

(** The private fields of the class.  [listeners] lives in [EventBus]
    below; [_autoUpdateTimer] is [true] while an interval timer is armed. *)
Record Aven := {
  class_of : Class;
  config : EffectiveConfig;
  realtimeAgent : RealtimeAgent;
  session : option RealtimeSession;
  _status : AvenStatus;
  _conversationState : ConversationState;
  _error : option string;
  _history : list Message;
  _messageIdCounter : nat;
  _actionIdCounter : nat;
  _currentDOM : option string;
  _autoUpdateTimer : bool;
}.

Definition with_session (x : option RealtimeSession) (a : Aven) : Aven :=
  {| class_of := class_of a; config := config a;
     realtimeAgent := realtimeAgent a; session := x; _status := _status a;
     _conversationState := _conversationState a; _error := _error a;
     _history := _history a; _messageIdCounter := _messageIdCounter a;
     _actionIdCounter := _actionIdCounter a; _currentDOM := _currentDOM a;
     _autoUpdateTimer := _autoUpdateTimer a |}.

Definition with_status (x : AvenStatus) (a : Aven) : Aven :=
  {| class_of := class_of a; config := config a;
     realtimeAgent := realtimeAgent a; session := session a; _status := x;
     _conversationState := _conversationState a; _error := _error a;
     _history := _history a; _messageIdCounter := _messageIdCounter a;
     _actionIdCounter := _actionIdCounter a; _currentDOM := _currentDOM a;
     _autoUpdateTimer := _autoUpdateTimer a |}.

Definition with_conversationState (x : ConversationState) (a : Aven) : Aven :=
  {| class_of := class_of a; config := config a;
     realtimeAgent := realtimeAgent a; session := session a;
     _status := _status a; _conversationState := x; _error := _error a;
     _history := _history a; _messageIdCounter := _messageIdCounter a;
     _actionIdCounter := _actionIdCounter a; _currentDOM := _currentDOM a;
     _autoUpdateTimer := _autoUpdateTimer a |}.

Definition with_error (x : option string) (a : Aven) : Aven :=
  {| class_of := class_of a; config := config a;
     realtimeAgent := realtimeAgent a; session := session a;
     _status := _status a; _conversationState := _conversationState a;
     _error := x; _history := _history a;
     _messageIdCounter := _messageIdCounter a;
     _actionIdCounter := _actionIdCounter a; _currentDOM := _currentDOM a;
     _autoUpdateTimer := _autoUpdateTimer a |}.

Definition with_history (x : list Message) (a : Aven) : Aven :=
  {| class_of := class_of a; config := config a;
     realtimeAgent := realtimeAgent a; session := session a;
     _status := _status a; _conversationState := _conversationState a;
     _error := _error a; _history := x;
     _messageIdCounter := _messageIdCounter a;
     _actionIdCounter := _actionIdCounter a; _currentDOM := _currentDOM a;
     _autoUpdateTimer := _autoUpdateTimer a |}.

Definition with_messageIdCounter (x : nat) (a : Aven) : Aven :=
  {| class_of := class_of a; config := config a;
     realtimeAgent := realtimeAgent a; session := session a;
     _status := _status a; _conversationState := _conversationState a;
     _error := _error a; _history := _history a; _messageIdCounter := x;
     _actionIdCounter := _actionIdCounter a; _currentDOM := _currentDOM a;
     _autoUpdateTimer := _autoUpdateTimer a |}.

Definition with_actionIdCounter (x : nat) (a : Aven) : Aven :=
  {| class_of := class_of a; config := config a;
     realtimeAgent := realtimeAgent a; session := session a;
     _status := _status a; _conversationState := _conversationState a;
     _error := _error a; _history := _history a;
     _messageIdCounter := _messageIdCounter a; _actionIdCounter := x;
     _currentDOM := _currentDOM a; _autoUpdateTimer := _autoUpdateTimer a |}.

Definition with_currentDOM (x : option string) (a : Aven) : Aven :=
  {| class_of := class_of a; config := config a;
     realtimeAgent := realtimeAgent a; session := session a;
     _status := _status a; _conversationState := _conversationState a;
     _error := _error a; _history := _history a;
     _messageIdCounter := _messageIdCounter a;
     _actionIdCounter := _actionIdCounter a; _currentDOM := x;
     _autoUpdateTimer := _autoUpdateTimer a |}.

Definition with_autoUpdateTimer (x : bool) (a : Aven) : Aven :=
  {| class_of := class_of a; config := config a;
     realtimeAgent := realtimeAgent a; session := session a;
     _status := _status a; _conversationState := _conversationState a;
     _error := _error a; _history := _history a;
     _messageIdCounter := _messageIdCounter a;
     _actionIdCounter := _actionIdCounter a; _currentDOM := _currentDOM a;
     _autoUpdateTimer := x |}.

(** Calls the orchestrator makes on its [RealtimeSession]. *)
Inductive SessionCall :=
| Subscribe (event : string)
| Connect (apiKey : option string)
| SendMessage (m : string)
| Interrupt
| Close.

(** Externally visible effects, in the order they happen. *)
Inductive Effect :=
| Published (e : Event)                      (* [this.emit(...)] *)
| OnSession (c : SessionCall)                (* a call on [this.session] *)
| Compress (maxTokens iterations : nat) (assignUniqueIDs : option bool)
                                             (* [adaptiveD2Snap(...)] *)
| Evaluated (code : string)                  (* [new Function(code)()] *)
| ListenersCleared.                          (* [this.listeners.clear()] *)

(* ====================================================================== *)
(** ** The method monad: instance state, abrupt completion, effect trace *)
(* ====================================================================== *)

Inductive Completion (A : Type) :=
| Normal (a : A)
| Abrupt (e : JSThrown).
Arguments Normal {A} a.
Arguments Abrupt {A} e.

Definition M (A : Type) : Type := Aven -> Completion A * Aven * list Effect.

#[global] Instance M_ret : MRet M := fun A a s => (Normal a, s, []).

#[global] Instance M_bind : MBind M := fun A B f m s =>
  match m s with
  | (Normal a, s1, t1) =>
      match f a s1 with
      | (r, s2, t2) => (r, s2, t1 ++ t2)
      end
  | (Abrupt e, s1, t1) => (Abrupt e, s1, t1)
  end.

Definition get : M Aven := fun s => (Normal s, s, []).
Definition modify (f : Aven -> Aven) : M unit := fun s => (Normal tt, f s, []).
Definition tell (e : Effect) : M unit := fun s => (Normal tt, s, [e]).
Definition throw {A} (e : JSThrown) : M A := fun s => (Abrupt e, s, []).

(** [try { body } catch (e) { handler e }] *)
Definition try_catch {A} (body : M A) (handler : JSThrown -> M A) : M A :=
  fun s =>
    match body s with
    | (Normal a, s1, t1) => (Normal a, s1, t1)
    | (Abrupt e, s1, t1) =>
        match handler e s1 with
        | (r, s2, t2) => (r, s2, t1 ++ t2)
        end
    end.

(** [if (c) { body }] *)
Definition when (c : bool) (body : M unit) : M unit :=
  if c then body else mret tt.

(** [for (const x of xs) { body x }] *)
Fixpoint for_of {A} (xs : list A) (body : A -> M unit) : M unit :=
  match xs with
  | [] => mret tt
  | x :: rest => body x ;; for_of rest body
  end.

(** Projections of a finished run. *)
Definition completion {A} (r : Completion A * Aven * list Effect) := r.1.1.
Definition final {A} (r : Completion A * Aven * list Effect) := r.1.2.
Definition trace {A} (r : Completion A * Aven * list Effect) := r.2.

(** The events published during a run, in order. *)
Definition published (t : list Effect) : list Event :=
  omap (fun e => match e with Published ev => Some ev | _ => None end) t.

(* ====================================================================== *)
(** ** Construction *)
(* ====================================================================== *)

Definition DEFAULT_model := "gpt-4o-realtime-preview".
Definition DEFAULT_voice := "alloy".
Definition DEFAULT_language := "en".
Definition DEFAULT_autoGreet := true.
Definition DEFAULT_greetingMessage := "Hello!".
Definition DEFAULT_debug := false.
Definition DEFAULT_doNotExecuteActions := false.
Definition DEFAULT_UI_autoUpdate := false.
Definition DEFAULT_UI_autoUpdateInterval := 5000.
Definition DEFAULT_UI_maxTokens := 4096.

(** [DEFAULT_UI_CONFIG.d2SnapOptions.assignUniqueIDs]: [true] in [Aven],
    not a field of the defaults in [Atticus]. *)
Definition DEFAULT_UI_assignUniqueIDs (k : Class) : option bool :=
  match k with
  | AvenClass => Some true
  | AtticusClass => None
  end.

(** The merge at the head of the constructor. *)
Definition mergeConfig (k : Class) (c : AvenConfig) : EffectiveConfig :=
  {| cfg_clientSecret := clientSecret c;
     cfg_agent := agent c;
     cfg_model := nullish (model c) DEFAULT_model;
     cfg_voice := nullish (voice c) DEFAULT_voice;
     cfg_language := nullish (language c) DEFAULT_language;
     cfg_autoGreet := nullish (autoGreet c) DEFAULT_autoGreet;
     cfg_greetingMessage := nullish (greetingMessage c) DEFAULT_greetingMessage;
     cfg_debug := nullish (debug c) DEFAULT_debug;
     cfg_doNotExecuteActions :=
       nullish (doNotExecuteActions c) DEFAULT_doNotExecuteActions;
     ui_enabled := match ui c with Some u => enabled u | None => false end;
     ui_rootElement := match ui c with Some u => rootElement u | None => None end;
     ui_autoUpdate :=
       match ui c with
       | Some u => nullish (autoUpdate u) DEFAULT_UI_autoUpdate
       | None => DEFAULT_UI_autoUpdate
       end;
     ui_autoUpdateInterval :=
       match ui c with
       | Some u => nullish (autoUpdateInterval u) DEFAULT_UI_autoUpdateInterval
       | None => DEFAULT_UI_autoUpdateInterval
       end;
     ui_maxTokens :=
       match ui c with
       | Some u => nullish (d2SnapOptions u ≫= maxTokens) DEFAULT_UI_maxTokens
       | None => DEFAULT_UI_maxTokens
       end;
     ui_assignUniqueIDs :=
       match ui c, k with
       | Some u, AvenClass =>
           Some (nullish (d2SnapOptions u ≫= assignUniqueIDs) true)
       | Some u, AtticusClass => None
       | None, _ => DEFAULT_UI_assignUniqueIDs k
       end |}.

(** The field initialisers of the class, with [config] and [agent] as the
    constructor sets them. *)
Definition initial (k : Class) (cfg : EffectiveConfig) (ra : RealtimeAgent)
  : Aven :=
  {| class_of := k;
     config := cfg;
     realtimeAgent := ra;
     session := None;
     _status := status_idle;
     _conversationState := conv_idle;
     _error := None;
     _history := [];
     _messageIdCounter := 0;
     _actionIdCounter := 0;
     _currentDOM := None;
     _autoUpdateTimer := false |}.

Section Instructions.

(** The fixed text returned by [getUIDirective]; each class has its own. *)
Variable getUIDirective : Class -> string.

Definition getLanguageDirective (cfg : EffectiveConfig) : string :=
  let languageName :=
    getLanguageName (or_else (Some (cfg_language cfg)) "en") in
  "IMPORTANT: You MUST speak and respond ONLY in " +:+ languageName +:+
  ". All your responses should be in " +:+ languageName +:+
  ". If the user speaks in any other language, still respond in " +:+
  languageName +:+ ".".

Definition femaleVoices := ["alloy"; "coral"; "sage"; "shimmer"].
Definition maleVoices := ["ash"; "ballad"; "echo"; "verse"].

(** Only [Atticus] has a gender directive. *)
Definition getGenderDirective (cfg : EffectiveConfig) : option string :=
  if bool_decide (cfg_voice cfg ∈ femaleVoices) then
    Some "IMPORTANT: You are a female assistant. Speak and present yourself as female."
  else if bool_decide (cfg_voice cfg ∈ maleVoices) then
    Some "IMPORTANT: You are a male assistant. Speak and present yourself as male."
  else None.

Definition newline : string := String (Ascii.ascii_of_nat 10) EmptyString.
Definition newline2 : string := newline +:+ newline.

(** [buildInstructions].  Its first statement reads
    [this.config.agent.instructions]; with [agent] undefined that property
    access raises a [TypeError]. *)
Definition buildInstructions (k : Class) (cfg : EffectiveConfig)
  : Completion string :=
  match cfg_agent cfg with
  | None =>
      Abrupt (ErrorObject "TypeError"
                "Cannot read properties of undefined (reading 'instructions')")
  | Some a =>
      let i0 := instructions a in
      let i1 :=
        if truthy (Some (getLanguageDirective cfg))
        then getLanguageDirective cfg +:+ newline2 +:+ i0
        else i0 in
      let i2 :=
        match k with
        | AvenClass => i1
        | AtticusClass =>
            match getGenderDirective cfg with
            | Some g => g +:+ newline2 +:+ i1
            | None => i1
            end
        end in
      Normal (if ui_enabled cfg
              then i2 +:+ newline2 +:+ getUIDirective k
              else i2)
  end.

(** The tools given to the agent when UI mode is on. *)
Definition toolsOf (k : Class) (cfg : EffectiveConfig) : list string :=
  if ui_enabled cfg then
    match k with
    | AvenClass => ["execute_ui_action"]
    | AtticusClass => ["get_ui_state"; "execute_ui_action"]
    end
  else [].

(** [new RealtimeAgent({ name, instructions, tools, voice })].  The
    constructor of the SDK's agent class refuses a name that is empty
    after trimming:
    [if (typeof config.name !== 'string' || config.name.trim() === '')
       throw new UserError('Agent must have a name.')]. *)
Definition newRealtimeAgent (name instructions : string) (tools : list string)
    (voice : string) : Completion RealtimeAgent :=
  if isBlank name
  then Abrupt (ErrorObject "UserError" "Agent must have a name.")
  else Normal {| ra_name := name; ra_instructions := instructions;
                 ra_tools := tools; ra_voice := voice |}.

(** [new Aven(config)] / [new Atticus(config)]. *)
Definition constructor (k : Class) (c : AvenConfig) : Completion Aven :=
  let cfg := mergeConfig k c in
  match buildInstructions k cfg with
  | Abrupt e => Abrupt e
  | Normal instr =>
      match cfg_agent cfg with
      | None =>
          Abrupt (ErrorObject "TypeError"
                    "Cannot read properties of undefined (reading 'name')")
      | Some a =>
          match newRealtimeAgent (name a) instr (toolsOf k cfg) (cfg_voice cfg)
          with
          | Abrupt e => Abrupt e
          | Normal ra => Normal (initial k cfg ra)
          end
      end
  end.

End Instructions.

(* ====================================================================== *)
(** ** State accessors and the two state setters *)
(* ====================================================================== *)

(** [this.emit(event, ...args)]: hand the event to the listener registry.
    At this level subscribers are observers: what a publication does to
    them, including a subscriber that throws or publishes again, is the
    subject of [EventBus]. *)
Definition emit (e : Event) : M unit := tell (Published e).

Definition isConnected (a : Aven) : bool :=
  bool_decide (_status a = status_connected) && bool_decide (session a ≠ None).

Definition isAiSpeaking (a : Aven) : bool :=
  bool_decide (_conversationState a = ai_speaking).

Definition isUserSpeaking (a : Aven) : bool :=
  bool_decide (_conversationState a = user_speaking).

Definition getState (a : Aven) : AvenState :=
  {| st_status := _status a;
     st_conversationState := _conversationState a;
     st_error := _error a;
     st_history := _history a;
     st_isConnected := isConnected a;
     st_isAiSpeaking := isAiSpeaking a;
     st_isUserSpeaking := isUserSpeaking a |}.

Definition emitStateChange : M unit :=
  s ← get; emit (stateChange (getState s)).

Definition setConversationState (state : ConversationState) : M unit :=
  s ← get;
  when (bool_decide (_conversationState s ≠ state))
    (modify (with_conversationState state);;
     emit (conversationStateChange state);;
     emitStateChange).

Definition setStatus (status : AvenStatus) : M unit :=
  s ← get;
  when (bool_decide (_status s ≠ status))
    (modify (with_status status);;
     emit (statusChange status);;
     emitStateChange;;
     when (bool_decide (status = status_idle) || bool_decide (status = status_error))
       (setConversationState conv_idle)).

(* ====================================================================== *)
(** ** Transcript reconciliation *)
(* ====================================================================== *)

(** [item.content?.[0]] *)
Definition firstContent (item : RealtimeItem) : option ContentEntry :=
  content item ≫= head.

(** The [if / else if / else continue] on [content.type]. *)
Definition classify (c : ContentEntry) : option MessageContent :=
  if String.eqb (ctype c) "input_text" || String.eqb (ctype c) "output_text"
  then Some (text_content (or_else (text c) ""))
  else if String.eqb (ctype c) "input_audio"
          || String.eqb (ctype c) "output_audio"
  then Some (audio_content (or_null (transcript c)))
  else None.

(** [item.itemId || `msg_${++this._messageIdCounter}`] *)
Definition messageId (item : RealtimeItem) : M string :=
  if truthy (Some (itemId item)) then mret (itemId item)
  else
    modify (fun a => with_messageIdCounter (S (_messageIdCounter a)) a);;
    s ← get;
    mret ("msg_" +:+ pretty (_messageIdCounter s)).

(** One turn of the [for (const item of rawHistory)] loop: the message to
    push, or [None] where the loop body falls through or [continue]s. *)
Definition convertItem (now : nat) (item : RealtimeItem) : M (option Message) :=
  if String.eqb (type item) "message" then
    match firstContent item with
    | None => mret None
    | Some c =>
        match classify c with
        | None => mret None
        | Some messageContent =>
            i ← messageId item;
            mret (Some {| id := i; msg_role := role item;
                          msg_content := messageContent; raw := item;
                          timestamp := now |})
        end
    end
  else mret None.

(** The whole loop, giving [newHistory]. *)
Fixpoint convertAll (now : nat) (rawHistory : list RealtimeItem)
  : M (list Message) :=
  match rawHistory with
  | [] => mret []
  | item :: rest =>
      m ← convertItem now item;
      ms ← convertAll now rest;
      mret (match m with Some x => x :: ms | None => ms end)
  end.

(** [handleHistoryUpdate(rawHistory)]; [now] is the clock reading used for
    the [timestamp] of the rebuilt messages. *)
Definition handleHistoryUpdate (now : nat) (rawHistory : list RealtimeItem)
  : M unit :=
  newHistory ← convertAll now rawHistory;
  s ← get;
  let previousLength := length (_history s) in
  modify (with_history newHistory);;
  when (Nat.ltb previousLength (length newHistory))
    (for_of (drop previousLength newHistory) (fun msg => emit (message msg)));;
  emit (historyChange newHistory);;
  emitStateChange.

(* ====================================================================== *)
(** ** Surface snapshots *)
(* ====================================================================== *)

(** The argument of [updateDOM]: literal text, or an element together with
    what the page holds at that moment ([innerHTML]) and what the snapshot
    compressor answers ([None] when it fails). *)
Inductive DOMSource :=
| Literal (html : string)
| Live (e : Element) (innerHTML : string) (snapshot : option string).

(** [captureDOM(element)]: compress, and fall back to the raw markup when
    the compressor throws. *)
Definition captureDOM (innerHTML : string) (snapshot : option string)
  : M (option string) :=
  s ← get;
  tell (Compress (ui_maxTokens (config s)) 5
          (match class_of s with
           | AvenClass => ui_assignUniqueIDs (config s)
           | AtticusClass => Some true
           end));;
  mret (Some (match snapshot with Some snap => snap | None => innerHTML end)).

(** [updateDOM(dom)].  [sendDOMContext] only logs. *)
Definition updateDOM (dom : DOMSource) : M unit :=
  match dom with
  | Literal html => modify (with_currentDOM (Some html))
  | Live _ innerHTML snapshot =>
      d ← captureDOM innerHTML snapshot;
      modify (with_currentDOM d)
  end.

(** [refreshDOM()], with the page reading and compressor answer it would
    get if it goes ahead. *)
Definition refreshDOM (innerHTML : string) (snapshot : option string) : M unit :=
  s ← get;
  match ui_enabled (config s), ui_rootElement (config s) with
  | true, Some root => updateDOM (Live root innerHTML snapshot)
  | _, _ => mret tt
  end.

Definition startAutoUpdate : M unit :=
  s ← get;
  if _autoUpdateTimer s then mret tt
  else modify (with_autoUpdateTimer true).

Definition stopAutoUpdate : M unit :=
  s ← get;
  when (_autoUpdateTimer s) (modify (with_autoUpdateTimer false)).

(* ====================================================================== *)
(** ** Connection lifecycle *)
(* ====================================================================== *)

(** The [transcriptionConfig] constant of [connect], as a function of the
    configured language code. *)
Definition transcriptionConfig (code : string) : TranscriptionConfig :=
  if isTranscriptionSupported code
  then {| tc_model := "gpt-4o-mini-transcribe"; tc_language := Some code |}
  else {| tc_model := "gpt-4o-mini-transcribe"; tc_language := None |}.

(** What reading a member of [null] throws, with the message V8 gives. *)
Definition nullAccess (c : SessionCall) : JSThrown :=
  ErrorObject "TypeError"
    match c with
    | Subscribe _ => "Cannot read properties of null (reading 'on')"
    | Connect _ => "Cannot read properties of null (reading 'connect')"
    | SendMessage _ => "Cannot read properties of null (reading 'sendMessage')"
    | Interrupt => "Cannot read properties of null (reading 'interrupt')"
    | Close => "Cannot read properties of null (reading 'close')"
    end.

(** A call on [this.session]; on a null handle the member access raises. *)
Definition onSession (c : SessionCall) : M unit :=
  s ← get;
  match session s with
  | Some _ => tell (OnSession c)
  | None => throw (nullAccess c)
  end.

(** The greeting text sent after connecting. *)
Definition greetingText (a : Aven) : string :=
  let cfg := config a in
  let langGreeting := getLanguageGreeting (cfg_language cfg) in
  let languageName := getLanguageName (cfg_language cfg) in
  let greeting :=
    if String.eqb (cfg_greetingMessage cfg) DEFAULT_greetingMessage
    then "[IMPORTANT: Respond in " +:+ languageName +:+
         " only. Say your greeting in " +:+ languageName +:+ ".]" +:+
         newline2 +:+ langGreeting
    else "[IMPORTANT: Respond in " +:+ languageName +:+ " only.]" +:+
         newline2 +:+ cfg_greetingMessage cfg in
  if ui_enabled cfg && truthy (_currentDOM a)
  then greeting +:+ newline2 +:+
       "[Current UI state for reference - do not read this aloud, just use it to understand the page:]"
       +:+ newline +:+ "```html" +:+ newline +:+ default "" (_currentDOM a)
       +:+ newline +:+ "```"
  else greeting.

(** What the outside world answers during one [connect()]: whether
    [session.connect] resolves ([None]) or rejects with a value, and what a
    surface capture would read and return. *)
Record ConnectWorld := {
  connectAnswer : option JSThrown;
  rootHTML : string;
  snapshotAnswer : option string;
}.

(** [setupSessionListeners()]: attach to the session the handlers whose
    bodies are [sessionEvent] below.  Nothing ever detaches them: they stay
    attached for as long as the session object lives, whatever
    [this.session] becomes. *)
Definition setupSessionListeners : M unit :=
  s ← get;
  match session s with
  | None => mret tt
  | Some _ =>
      for_of
        (match class_of s with
         | AvenClass =>
             ["history_updated"; "error"; "agent_start"; "agent_end"; "audio"]
         | AtticusClass =>
             ["history_updated"; "error"; "agent_start"; "agent_end";
              "audio_start"; "audio_stopped"; "audio"]
         end)
        (fun event => tell (OnSession (Subscribe event)))
  end.

(** [connect()].  Each [await] is answered at once from [w], so nothing
    else runs between the two halves of the method. *)
Definition connect (w : ConnectWorld) : M unit :=
  s0 ← get;
  match session s0 with
  | Some _ => mret tt
  | None =>
      try_catch
        (setStatus status_connecting;;
         modify (with_error None);;
         s ← get;
         let cfg := config s in
         modify (with_session
                   (Some {| rs_agent := realtimeAgent s;
                            rs_model := cfg_model cfg;
                            rs_transcription :=
                              transcriptionConfig (cfg_language cfg) |}));;
         setupSessionListeners;;
         onSession (Connect (cfg_clientSecret cfg));;
         match connectAnswer w with
         | Some e => throw e
         | None => mret tt
         end;;
         setStatus status_connected;;
         emit connected;;
         when (ui_enabled cfg)
           (refreshDOM (rootHTML w) (snapshotAnswer w);;
            when (ui_autoUpdate cfg) startAutoUpdate);;
         when (cfg_autoGreet cfg)
           (s1 ← get; onSession (SendMessage (greetingText s1))))
        (fun e =>
           let errorMessage := messageOr e "Failed to connect" in
           modify (with_error (Some errorMessage));;
           setStatus status_error;;
           emit (error errorMessage);;
           throw e)
  end.

(** [disconnect()] *)
Definition disconnect : M unit :=
  s ← get;
  when (bool_decide (session s ≠ None))
    (tell (OnSession Close);;
     modify (with_session None));;
  modify (with_history []);;
  setStatus status_idle;;
  setConversationState conv_idle;;
  emit disconnected;;
  emit (historyChange []).

(** [interrupt()] *)
Definition interrupt : M unit :=
  s ← get;
  when (bool_decide (session s ≠ None)) (tell (OnSession Interrupt)).

(** [sendMessage(message)] *)
Definition sendMessage (m : string) : M unit :=
  s ← get;
  when (bool_decide (session s ≠ None)) (tell (OnSession (SendMessage m))).

(** [toggle()] *)
Definition toggle (w : ConnectWorld) : M unit :=
  s ← get;
  if isConnected s then disconnect
  else if bool_decide (_status s = status_idle)
          || bool_decide (_status s = status_error)
  then connect w
  else mret tt.

(** [removeAllListeners()] *)
Definition removeAllListeners : M unit := tell ListenersCleared.

(** [destroy()] *)
Definition destroy : M unit :=
  stopAutoUpdate;;
  disconnect;;
  removeAllListeners.

(* ====================================================================== *)
(** ** Handlers attached to the realtime session *)
(* ====================================================================== *)

(** The value delivered with the session's [error] event. *)
Inductive SessionErrorValue :=
| SE_Error (message : string)          (* an [Error] object *)
| SE_Object (json : string)            (* another object, as [JSON.stringify] shows it *)
| SE_Other (shown : string).           (* anything else, as [String] shows it *)

Inductive SessionEvent :=
| history_updated (now : nat) (rawHistory : list RealtimeItem)
| session_error (e : SessionErrorValue)
| agent_start
| agent_end
| audio_start
| audio_stopped
| audio.

(** The bodies registered by [setupSessionListeners].  [Aven] drives the
    turn state from [agent_start]/[agent_end] and has no handler for the
    playback events; [Atticus] drives it from [audio_start]/[audio_stopped]. *)
Definition sessionEvent (ev : SessionEvent) : M unit :=
  s ← get;
  match ev with
  | history_updated now rawHistory => handleHistoryUpdate now rawHistory
  | session_error e =>
      let errorMessage :=
        match e with
        | SE_Error m => m
        | SE_Object json => json
        | SE_Other shown => or_else (Some shown) "An error occurred"
        end in
      modify (with_error (Some errorMessage));;
      emit (error errorMessage)
  | agent_start =>
      match class_of s with
      | AvenClass => setConversationState ai_speaking;; emit agentStart
      | AtticusClass => emit agentStart
      end
  | agent_end =>
      match class_of s with
      | AvenClass => setConversationState user_turn;; emit agentEnd
      | AtticusClass => emit agentEnd
      end
  | audio_start =>
      match class_of s with
      | AvenClass => mret tt
      | AtticusClass => setConversationState ai_speaking;; emit audioStart
      end
  | audio_stopped =>
      match class_of s with
      | AvenClass => mret tt
      | AtticusClass => setConversationState user_turn;; emit audioEnd
      end
  | audio => setConversationState user_speaking;; emit userAudio
  end.

(* ====================================================================== *)
(** ** UI actions *)
(* ====================================================================== *)

(** What evaluating a piece of generated code does: it hands back a value
    or throws (a [SyntaxError] from [new Function] included).  The thrown
    values are those of [JSThrown], which a [catch] block can inspect;
    [Evaluation] below adds the others. *)
Inductive ExecOutcome :=
| Returns (v : JSValue)
| Throws (e : JSThrown).

(** The object [executeAction] resolves to; an absent property is [None]. *)
Record ExecResult := {
  success : bool;
  res_result : option JSValue;
  res_error : option string;
}.

(** [executeAction(action)] where the code throws nothing but values that
    can be inspected; [run] says what each piece of code does when
    evaluated in the page.  This is the method as the tools' statements
    use it; [Unguarded.executeAction] below is the method over every
    thrown value, and the two agree here. *)
Definition executeAction (run : string -> ExecOutcome) (a : UIAction)
  : M ExecResult :=
  if negb (truthy (outputCode a)) then
    mret {| success := true; res_result := Some JSNull; res_error := None |}
  else
    let code := default "" (outputCode a) in
    try_catch
      (tell (Evaluated code);;
       match run code with
       | Returns v =>
           mret {| success := true; res_result := Some v; res_error := None |}
       | Throws e => throw e
       end)
      (fun e =>
         let errorMessage := messageOr e "Unknown error" in
         mret {| success := false; res_result := None;
                 res_error := Some errorMessage |}).

(** A thrown value as the [catch] block of [executeAction] meets it.  The
    block reads [error instanceof Error] and then [error.message], and
    neither read is inside a [try] of its own.  On most values the reads
    succeed ([Inspectable]); on some they throw in turn ([Uninspectable],
    with what the read throws): a proxy whose [getPrototypeOf] trap throws,
    or an object inheriting from [Error.prototype] whose [message] is a
    getter that throws. *)
Inductive Thrown :=
| Inspectable (e : JSThrown)
| Uninspectable (raised : JSThrown).

(** What evaluating a piece of code does, over every value it can
    throw. *)
Inductive Evaluation :=
| Gives (v : JSValue)
| Raises (t : Thrown).

(** [ExecOutcome] is the part of [Evaluation] where thrown values can be
    inspected. *)
Definition inspectable (o : ExecOutcome) : Evaluation :=
  match o with
  | Returns v => Gives v
  | Throws e => Raises (Inspectable e)
  end.

Module Unguarded.

(** The [catch] block's
    [error instanceof Error ? error.message : "Unknown error"]. *)
Definition errorMessageOf (t : Thrown) : M string :=
  match t with
  | Inspectable e => mret (messageOr e "Unknown error")
  | Uninspectable raised => throw raised
  end.

(** [executeAction(action)], over every value the code can throw.  The
    evaluation is the one statement of the [try] block that can throw;
    when it does, the [catch] block runs, and what the [catch] block
    itself throws is caught by nothing: the [async] method rejects with
    it. *)
Definition executeAction (run : string -> Evaluation) (a : UIAction)
  : M ExecResult :=
  if negb (truthy (outputCode a)) then
    mret {| success := true; res_result := Some JSNull; res_error := None |}
  else
    let code := default "" (outputCode a) in
    tell (Evaluated code);;
    match run code with
    | Gives v =>
        mret {| success := true; res_result := Some v; res_error := None |}
    | Raises t =>
        errorMessage ← errorMessageOf t;
        mret {| success := false; res_result := None;
                res_error := Some errorMessage |}
    end.

End Unguarded.

(** The arguments the remote agent passes to [execute_ui_action]. *)
Record ToolParams := {
  p_outputText : string;
  p_outputCode : option string;
  p_actionDescription : option string;
  p_targetElement : option string;
  p_actionType : option UIActionType;
}.

(** The [UIAction] built at the head of both [execute] callbacks. *)
Definition newAction (now : nat) (params : ToolParams) : M UIAction :=
  modify (fun a => with_actionIdCounter (S (_actionIdCounter a)) a);;
  s ← get;
  mret {| action_id := "action_" +:+ pretty (_actionIdCounter s);
          outputText := p_outputText params;
          outputCode := p_outputCode params;
          actionDescription := p_actionDescription params;
          targetElement := p_targetElement params;
          actionType := p_actionType params;
          action_timestamp := now |}.

(** [`${x}`] for a possibly null string. *)
Definition interpolate (o : option string) : string := default "null" o.

Module AvenTool.

(** [Aven.createUIActionTool().execute]: the single tool of the direct
    profile. *)
Definition execute (now : nat) (run : string -> ExecOutcome)
    (params : ToolParams) : M string :=
  act ← newAction now params;
  emit (action act);;
  s ← get;
  when (negb (cfg_doNotExecuteActions (config s)) && truthy (outputCode act))
    (result ← executeAction run act;
     (* both branches on [result.success] only log *)
     mret tt);;
  mret (p_outputText params).

End AvenTool.

Module AtticusTool.

(** What the page and the compressor answer at one capture. *)
Record Capture := {
  cap_innerHTML : string;
  cap_snapshot : option string;
}.

(** [Atticus.createGetUIStateTool().execute] *)
Definition getUIState (c : Capture) : M string :=
  refreshDOM (cap_innerHTML c) (cap_snapshot c);;
  s ← get;
  mret ("[Current UI state:]" +:+ newline +:+ "```html" +:+ newline +:+
        interpolate (_currentDOM s) +:+ newline +:+ "```").

(** [Atticus.createUIActionTool().execute]: capture, publish, run, capture
    again. *)
Definition execute (now : nat) (run : string -> ExecOutcome)
    (before after : Capture) (params : ToolParams) : M string :=
  refreshDOM (cap_innerHTML before) (cap_snapshot before);;
  act ← newAction now params;
  emit (action act);;
  s ← get;
  if negb (cfg_doNotExecuteActions (config s)) && truthy (outputCode act) then
    result ← executeAction run act;
    if success result then
      refreshDOM (cap_innerHTML after) (cap_snapshot after);;
      s1 ← get;
      mret (p_outputText params +:+ newline2 +:+
            "[Action executed successfully. Current UI state:]" +:+ newline +:+
            interpolate (_currentDOM s1))
    else
      mret (p_outputText params +:+ newline2 +:+ "[Action failed: " +:+
            match res_error result with
            | Some e => e
            | None => "undefined"
            end +:+ "]")
  else mret (p_outputText params).

End AtticusTool.

(* ====================================================================== *)
(** ** The listener registry: [on], [once], [off], [emit] *)
(* ====================================================================== *)

Module EventBus.

(** A function value held in a listener set, up to identity: a function of
    the host application, or the closure made by the [k]-th call of [once]
    around [callback]. *)
Inductive Callback :=
| Host (f : nat)
| Wrapped (k : nat) (event : string) (callback : Callback).

#[global] Instance Callback_eq_dec : EqDecision Callback.
Proof. solve_decision. Defined.

(** What a host function does when it is called: work of its own, a
    [throw], or a call back into the orchestrator that subscribes,
    unsubscribes, or makes it publish an event again. *)
Inductive Action :=
| Note (tag : nat)
| Raise (e : JSThrown)
| CallOn (event : string) (cb : Callback)
| CallOnce (event : string) (cb : Callback)
| CallOff (event : string) (cb : Callback)
| Republish (event : string).

(** What can be observed of a run. *)
Inductive Obs :=
| Called (cb : Callback)                    (* a listener was invoked *)
| Noted (tag : nat)                         (* a host function did its work *)
| Reported (event : string) (e : JSThrown). (* [console.error] in [emit] *)

(** A JavaScript [Set] of callbacks is its list of entries in insertion
    order, where a deleted entry stays in place as an empty slot ([None]):
    this is what lets an iteration in progress see deletions and additions.
    [listeners] is the [Map] from event name to such a set; [closures]
    counts the wrappers [once] has created. *)
Record Bus := {
  listeners : gmap string (list (option Callback));
  closures : nat;
  log : list Obs;
}.

Definition empty : Bus := {| listeners := ∅; closures := 0; log := [] |}.

Definition record (o : Obs) (b : Bus) : Bus :=
  {| listeners := listeners b; closures := closures b; log := log b ++ [o] |}.

Definition with_listeners (l : gmap string (list (option Callback))) (b : Bus)
  : Bus :=
  {| listeners := l; closures := closures b; log := log b |}.

(** [Set.prototype.add] *)
Definition set_add (entries : list (option Callback)) (cb : Callback)
  : list (option Callback) :=
  if bool_decide (Some cb ∈ entries) then entries else entries ++ [Some cb].

(** [Set.prototype.delete] *)
Definition set_delete (entries : list (option Callback)) (cb : Callback)
  : list (option Callback) :=
  (fun e => if bool_decide (e = Some cb) then None else e) <$> entries.

(** The callbacks currently in the set, in insertion order. *)
Definition live (entries : list (option Callback)) : list Callback :=
  omap (fun e => e) entries.

(** [on(event, callback)] *)
Definition on (event : string) (cb : Callback) (b : Bus) : Bus :=
  with_listeners
    (<[event := set_add (default [] (listeners b !! event)) cb]> (listeners b))
    b.

(** [off(event, callback)] *)
Definition off (event : string) (cb : Callback) (b : Bus) : Bus :=
  match listeners b !! event with
  | Some entries =>
      with_listeners (<[event := set_delete entries cb]> (listeners b)) b
  | None => b
  end.

(** [once(event, callback)]: a fresh wrapper is subscribed. *)
Definition once (event : string) (cb : Callback) (b : Bus) : Bus :=
  on event (Wrapped (closures b) event cb)
    {| listeners := listeners b; closures := S (closures b); log := log b |}.

(** [removeAllListeners()] *)
Definition removeAllListeners (b : Bus) : Bus := with_listeners ∅ b.

Inductive Outcome :=
| Done
| Raised (e : JSThrown).

Section Run.

(** The code of the host application's functions. *)
Variable body : nat -> list Action.

(** Running listeners.  Host code may loop or recurse without bound, so
    the interpreter takes a bound on the depth of its own recursion and
    answers [None] when that is not enough.

    - [call] invokes a function value.  A wrapper made by [once] first
      does [this.off(event, wrappedCallback)] and then calls the callback
      it wraps.
    - [exec] runs the statements of a host function.
    - [forEach] is [Set.prototype.forEach] from position [index] on the set
      filed under [event]: it reads the entry list afresh at every step,
      skips empty slots, and wraps each call in the [try]/[catch] of
      [emit].
    - [emit] is [emit(event, ...args)]. *)
Fixpoint call (fuel : nat) (cb : Callback) (b : Bus) : option (Outcome * Bus) :=
  match fuel with
  | 0 => None
  | S n =>
      match cb with
      | Host f => exec n (body f) (record (Called cb) b)
      | Wrapped _ event inner =>
          call n inner (off event cb (record (Called cb) b))
      end
  end
with exec (fuel : nat) (acts : list Action) (b : Bus) : option (Outcome * Bus) :=
  match fuel with
  | 0 => None
  | S n =>
      match acts with
      | [] => Some (Done, b)
      | Note tag :: rest => exec n rest (record (Noted tag) b)
      | Raise e :: _ => Some (Raised e, b)
      | CallOn event cb :: rest => exec n rest (on event cb b)
      | CallOnce event cb :: rest => exec n rest (once event cb b)
      | CallOff event cb :: rest => exec n rest (off event cb b)
      | Republish event :: rest =>
          match emit n event b with
          | Some b' => exec n rest b'
          | None => None
          end
      end
  end
with forEach (fuel : nat) (event : string) (index : nat) (b : Bus) : option Bus :=
  match fuel with
  | 0 => None
  | S n =>
      match default [] (listeners b !! event) !! index with
      | None => Some b
      | Some None => forEach n event (S index) b
      | Some (Some cb) =>
          match call n cb b with
          | Some (Done, b') => forEach n event (S index) b'
          | Some (Raised e, b') =>
              forEach n event (S index) (record (Reported event e) b')
          | None => None
          end
      end
  end
with emit (fuel : nat) (event : string) (b : Bus) : option Bus :=
  match fuel with
  | 0 => None
  | S n =>
      match listeners b !! event with
      | Some _ => forEach n event 0 b
      | None => Some b
      end
  end.

(** A sequence of publications made one after the other from outside. *)
Fixpoint emits (fuel : nat) (events : list string) (b : Bus) : option Bus :=
  match events with
  | [] => Some b
  | event :: rest =>
      match emit fuel event b with
      | Some b' => emits fuel rest b'
      | None => None
      end
  end.

End Run.

(** The listeners invoked, in order. *)
Definition calls (l : list Obs) : list Callback :=
  omap (fun o => match o with Called cb => Some cb | _ => None end) l.

(** The exceptions [emit] caught and reported, in order. *)
Definition reports (l : list Obs) : list (string * JSThrown) :=
  omap (fun o => match o with Reported ev e => Some (ev, e) | _ => None end) l.

(** How many times [cb] was invoked. *)
Definition deliveries (cb : Callback) (l : list Obs) : nat :=
  length (filter (fun c => c = cb) (calls l)).

End EventBus.

(* ====================================================================== *)
(** ** Runs of the orchestrator *)
(* ====================================================================== *)

(** What can happen to an instance: the host calls a public method, the
    auto-update timer fires ([op_refreshDOM]), the remote agent calls one of
    the tools it was given (none when UI mode is off, and [get_ui_state]
    only in [Atticus]), or the realtime session delivers an event to a
    handler that [setupSessionListeners] attached. *)
Inductive Op :=
| op_connect (w : ConnectWorld)
| op_disconnect
| op_interrupt
| op_sendMessage (m : string)
| op_toggle (w : ConnectWorld)
| op_destroy
| op_updateDOM (dom : DOMSource)
| op_refreshDOM (innerHTML : string) (snapshot : option string)
| op_startAutoUpdate
| op_stopAutoUpdate
| op_executeAction (run : string -> ExecOutcome) (act : UIAction)
| op_getUIState (c : AtticusTool.Capture)
| op_executeUIAction (now : nat) (run : string -> ExecOutcome)
    (before after : AtticusTool.Capture) (params : ToolParams)
| op_session (ev : SessionEvent).

Definition perform (o : Op) : M unit :=
  match o with
  | op_connect w => connect w
  | op_disconnect => disconnect
  | op_interrupt => interrupt
  | op_sendMessage m => sendMessage m
  | op_toggle w => toggle w
  | op_destroy => destroy
  | op_updateDOM dom => updateDOM dom
  | op_refreshDOM innerHTML snapshot => refreshDOM innerHTML snapshot
  | op_startAutoUpdate => startAutoUpdate
  | op_stopAutoUpdate => stopAutoUpdate
  | op_executeAction run act => executeAction run act ;; mret tt
  | op_getUIState c =>
      s ← get;
      match class_of s with
      | AvenClass => mret tt
      | AtticusClass => AtticusTool.getUIState c ;; mret tt
      end
  | op_executeUIAction now run before after params =>
      s ← get;
      if ui_enabled (config s) then
        match class_of s with
        | AvenClass => AvenTool.execute now run params ;; mret tt
        | AtticusClass =>
            AtticusTool.execute now run before after params ;; mret tt
        end
      else mret tt
  | op_session ev => sessionEvent ev
  end.

(** The instance after a sequence of them; a rejected [connect()] leaves
    the instance as its [catch] block left it and the run goes on. *)
Fixpoint after (ops : list Op) (a : Aven) : Aven :=
  match ops with
  | [] => a
  | o :: rest => after rest (final (perform o a))
  end.

(** The operations the host or the timer starts. *)
Definition isCall (o : Op) : bool :=
  match o with
  | op_session _ => false
  | _ => true
  end.

(** States reachable from a freshly constructed instance.  The host may
    call any method at any time; the session delivers an event only while
    the instance holds it in [this.session]. *)
Inductive reachable (k : Class) (cfg : EffectiveConfig) (ra : RealtimeAgent)
  : Aven -> Prop :=
| reach_initial : reachable k cfg ra (initial k cfg ra)
| reach_call a o :
    reachable k cfg ra a -> isCall o = true ->
    reachable k cfg ra (final (perform o a))
| reach_event a ev :
    reachable k cfg ra a -> session a <> None ->
    reachable k cfg ra (final (sessionEvent ev a)).

(** The same, when the session delivers events only while the connection
    is being made or is up. *)
Inductive reachable_live (k : Class) (cfg : EffectiveConfig)
    (ra : RealtimeAgent) : Aven -> Prop :=
| live_initial : reachable_live k cfg ra (initial k cfg ra)
| live_call a o :
    reachable_live k cfg ra a -> isCall o = true ->
    reachable_live k cfg ra (final (perform o a))
| live_event a ev :
    reachable_live k cfg ra a ->
    _status a = status_connecting \/ _status a = status_connected ->
    reachable_live k cfg ra (final (sessionEvent ev a)).

(* ====================================================================== *)
(** ** Vocabulary of the statements *)
(* ====================================================================== *)

(** A raw item of message kind. *)
Definition isMessage (item : RealtimeItem) : bool :=
  String.eqb (type item) "message".

(** A raw item the reconciliation loop turns into a message: of message
    kind, with a first content entry, of one of the four known kinds. *)
Definition convertible (item : RealtimeItem) : bool :=
  isMessage item &&
  match firstContent item with
  | Some c => bool_decide (is_Some (classify c))
  | None => false
  end.

(** The invariant tying the two state machines together. *)
Definition settled (a : Aven) : Prop :=
  _status a = status_idle \/ _status a = status_error ->
  _conversationState a = conv_idle.

(** Each snapshot extends the one before it by at least one item. *)
Fixpoint growing (prev : list RealtimeItem)
    (snapshots : list (nat * list RealtimeItem)) : Prop :=
  match snapshots with
  | [] => True
  | (_, raw) :: rest =>
      (exists ext, ext <> [] /\ raw = prev ++ ext) /\ growing raw rest
  end.

(** Delivering the snapshots one after the other. *)
Definition deliver (snapshots : list (nat * list RealtimeItem)) : M unit :=
  for_of snapshots (fun p => sessionEvent (history_updated p.1 p.2)).

(** An event, reduced to what the reconciliation statement talks about:
    which raw item a [message] event is for, which raw items the list of a
    [historyChange] event stands for. *)
Inductive Shape :=
| a_message (item : RealtimeItem)
| a_historyChange (items : list RealtimeItem)
| a_stateChange
| another.

Definition shape (e : Event) : Shape :=
  match e with
  | message m => a_message (raw m)
  | historyChange h => a_historyChange (raw <$> h)
  | stateChange _ => a_stateChange
  | _ => another
  end.

(** What a run over growing snapshots is expected to publish. *)
Fixpoint expected (prev : list RealtimeItem)
    (snapshots : list (nat * list RealtimeItem)) : list Shape :=
  match snapshots with
  | [] => []
  | (_, raw) :: rest =>
      (a_message <$> filter (fun i => convertible i = true)
                       (drop (length prev) raw))
      ++ [a_historyChange (filter (fun i => convertible i = true) raw);
          a_stateChange]
      ++ expected raw rest
  end.

(** The last snapshot of a run ([prev] when there is none). *)
Definition lastSnapshot (prev : list RealtimeItem)
    (snapshots : list (nat * list RealtimeItem)) : list RealtimeItem :=
  default prev (snd <$> last snapshots).

Module Quiet.
Import EventBus.

(** A host function that neither touches the registry nor makes the
    orchestrator publish: it works, and possibly throws. *)
Definition quiet_action (a : Action) : bool :=
  match a with
  | Note _ | Raise _ => true
  | _ => false
  end.

Definition quiet (body : nat -> list Action) (cb : Callback) : Prop :=
  match cb with
  | Host f => forallb quiet_action (body f) = true
  | Wrapped _ _ _ => False
  end.

(** What a quiet function throws, if it does. *)
Fixpoint thrown (acts : list Action) : option JSThrown :=
  match acts with
  | [] => None
  | Raise e :: _ => Some e
  | _ :: rest => thrown rest
  end.

Definition thrownBy (body : nat -> list Action) (event : string)
    (cb : Callback) : option (string * JSThrown) :=
  match cb with
  | Host f => (fun e => (event, e)) <$> thrown (body f)
  | Wrapped _ _ _ => None
  end.

(** A host function that may also make the orchestrator publish again
    while it runs, but leaves the registry alone. *)
Definition reentrant_action (a : Action) : bool :=
  match a with
  | Note _ | Raise _ | Republish _ => true
  | _ => false
  end.

(** [n] registrations of the same callback through [once]. *)
Definition once_n (n : nat) (event : string) (cb : Callback) (b : Bus) : Bus :=
  Nat.iter n (once event cb) b.

(** What [n] such registrations, numbered from [j], call when delivered:
    each wrapper, then the callback it wraps. *)
Definition handoffs (event : string) (cb : Callback) (j n : nat)
  : list Callback :=
  flat_map (fun k => [Wrapped k event cb; cb]) (seq j n).

(** The set filed under [event] when [n] wrappers around [Host f] were
    subscribed to it and the first [j] of them have since unsubscribed
    themselves: [j] empty slots, then the others in order. *)
Definition slots (event : string) (f n j : nat) : list (option Callback) :=
  replicate j None
  ++ ((fun k => Some (Wrapped k event (Host f))) <$> seq j (n - j)).

(** An iteration over that set, started at or before the first wrapper
    still subscribed with [m] of them left, comes to an end: every
    wrapper has then run, once each, handing over to the callback. *)
Definition finishes (body : nat -> list Action) (event : string)
    (f n m : nat) : Prop :=
  forall j i b,
    n - j = m -> j <= n -> i <= j ->
    listeners b = {[event := slots event f n j]} ->
    exists fuel b',
      forEach body fuel event i b = Some b' /\
      listeners b' = {[event := slots event f n n]} /\
      calls (log b') = calls (log b) ++ handoffs event (Host f) j (n - j).

End Quiet.

Module Publish.
Import EventBus.






End Publish.

(* ====================================================================== *)
(** ** Sample data *)
(* ====================================================================== *)

Module Sample.
Import EventBus.

Definition persona : AgentConfig :=
  {| name := "Assistant"; instructions := "You are a helpful assistant." |}.

Definition fullConfig : AvenConfig :=
  {| clientSecret := Some "ek_test"; agent := Some persona; language := None;
     model := None; voice := None; autoGreet := None; greetingMessage := None;
     debug := None; doNotExecuteActions := None; ui := None |}.

(** The same without a credential. *)
Definition noSecret : AvenConfig :=
  {| clientSecret := None; agent := Some persona; language := None;
     model := None; voice := None; autoGreet := None; greetingMessage := None;
     debug := None; doNotExecuteActions := None; ui := None |}.

(** UI mode on, actions auto-executed. *)
Definition uiConfig : AvenConfig :=
  {| clientSecret := Some "ek_test"; agent := Some persona;
     language := Some "xx";
     model := None; voice := None; autoGreet := None; greetingMessage := None;
     debug := None; doNotExecuteActions := None;
     ui := Some {| enabled := true; rootElement := Some 0;
                   d2SnapOptions := None; autoUpdate := None;
                   autoUpdateInterval := None |} |}.

Definition theAgent : RealtimeAgent :=
  {| ra_name := "Assistant"; ra_instructions := "";
     ra_tools := []; ra_voice := "alloy" |}.

Definition fresh (k : Class) (c : AvenConfig) : Aven :=
  initial k (mergeConfig k c) theAgent.

Definition resolves : ConnectWorld :=
  {| connectAnswer := None; rootHTML := "<p>hi</p>"; snapshotAnswer := None |}.

Definition rejects : ConnectWorld :=
  {| connectAnswer := Some (ErrorObject "Error" "network down");
     rootHTML := ""; snapshotAnswer := None |}.

(** A message item whose only content entry is an image. *)
Definition imageItem : RealtimeItem :=
  {| itemId := "item_1"; type := "message"; role := "user";
     content := Some [ {| ctype := "input_image"; text := None;
                          transcript := None |} ] |}.

Definition textItem (i t : string) : RealtimeItem :=
  {| itemId := i; type := "message"; role := "user";
     content := Some [ {| ctype := "input_text"; text := Some t;
                          transcript := None |} ] |}.

(** A message item that carries no content entry. *)
Definition emptyItem : RealtimeItem :=
  {| itemId := "item_2"; type := "message"; role := "assistant";
     content := Some [] |}.

(** A configuration without an agent persona. *)
Definition noAgent : AvenConfig :=
  {| clientSecret := Some "ek_test"; agent := None; language := None;
     model := None; voice := None; autoGreet := None; greetingMessage := None;
     debug := None; doNotExecuteActions := None; ui := None |}.

(** A page on which every piece of code throws an object that inherits
    from [Error.prototype] and whose [message] is a getter throwing
    [RangeError("no message")]; this is what
    [throw { __proto__: Error.prototype,
             get message() { throw new RangeError('no message') } }]
    does. *)
Definition hostile (code : string) : Evaluation :=
  Raises (Uninspectable (ErrorObject "RangeError" "no message")).

Definition clickParams : ToolParams :=
  {| p_outputText := "Clicking the button";
     p_outputCode := Some "document.getElementById('btn').click()";
     p_actionDescription := None; p_targetElement := Some "btn";
     p_actionType := Some click |}.

(** A page on which every piece of code throws. *)
Definition failing (code : string) : ExecOutcome :=
  Throws (ErrorObject "TypeError" "btn is null").

Definition noCode : UIAction :=
  {| action_id := "action_1"; outputText := "Reading"; outputCode := None;
     actionDescription := None; targetElement := None;
     actionType := Some read; action_timestamp := 0 |}.

Definition clickAction : UIAction :=
  {| action_id := "action_1"; outputText := "Clicking the button";
     outputCode := Some "document.getElementById('btn').click()";
     actionDescription := None; targetElement := Some "btn";
     actionType := Some click; action_timestamp := 0 |}.

(** Host functions: 1 works; 2 unsubscribes 1 from "x" and subscribes it
    again; 3 throws; 4 works and makes the orchestrator publish "x" twice
    more. *)
Definition hostCode (f : nat) : list Action :=
  match f with
  | 1 => [Note 1]
  | 2 => [CallOff "x" (Host 1); CallOn "x" (Host 1)]
  | 3 => [Raise (NonError "boom")]
  | 4 => [Note 4; Republish "x"; Republish "x"]
  | _ => []
  end.




(** 1 and 3 subscribed to "x", 3 first. *)
Definition throwingFirst : Bus :=
  on "x" (Host 1) (on "x" (Host 3) EventBus.empty).

End Sample.

(* ====================================================================== *)
(** ** Further members and vocabulary *)
(* ====================================================================== *)

(** [getMessageText(message)] *)
Definition getMessageText (m : Message) : string :=
  match msg_content m with
  | text_content t => t
  | audio_content tr => or_else tr "(audio)"
  end.

(** The calls made on the session during a run, in order. *)
Definition sessionCalls (t : list Effect) : list SessionCall :=
  omap (fun e => match e with OnSession c => Some c | _ => None end) t.

(** The pieces of code evaluated during a run, in order. *)
Definition evaluations (t : list Effect) : list string :=
  omap (fun e => match e with Evaluated c => Some c | _ => None end) t.

(** The compressor calls made during a run. *)
Definition compressions (t : list Effect) : list (nat * nat * option bool) :=
  omap (fun e => match e with
                 | Compress m i u => Some (m, i, u)
                 | _ => None
                 end) t.

(** The session events [setupSessionListeners] subscribes to. *)
Definition subscriptions (k : Class) : list string :=
  match k with
  | AvenClass =>
      ["history_updated"; "error"; "agent_start"; "agent_end"; "audio"]
  | AtticusClass =>
      ["history_updated"; "error"; "agent_start"; "agent_end";
       "audio_start"; "audio_stopped"; "audio"]
  end.

(** [connect()] cut at [await this.session.connect(...)]: [connectBegin] is
    what runs before the method first yields, [connectResume] what runs
    when the session has answered, [catch] block included.  Anything may
    happen to the instance in between. *)
Definition connectBegin : M unit :=
  setStatus status_connecting;;
  modify (with_error None);;
  s ← get;
  let cfg := config s in
  modify (with_session
            (Some {| rs_agent := realtimeAgent s;
                     rs_model := cfg_model cfg;
                     rs_transcription :=
                       transcriptionConfig (cfg_language cfg) |}));;
  setupSessionListeners;;
  onSession (Connect (cfg_clientSecret cfg)).

Definition connectAfter (w : ConnectWorld) (cfg : EffectiveConfig) : M unit :=
  match connectAnswer w with
  | Some e => throw e
  | None => mret tt
  end;;
  setStatus status_connected;;
  emit connected;;
  when (ui_enabled cfg)
    (refreshDOM (rootHTML w) (snapshotAnswer w);;
     when (ui_autoUpdate cfg) startAutoUpdate);;
  when (cfg_autoGreet cfg)
    (s1 ← get; onSession (SendMessage (greetingText s1))).

Definition connectCatch (e : JSThrown) : M unit :=
  let errorMessage := messageOr e "Failed to connect" in
  modify (with_error (Some errorMessage));;
  setStatus status_error;;
  emit (error errorMessage);;
  throw e.

Definition connectResume (w : ConnectWorld) : M unit :=
  s ← get;
  try_catch (connectAfter w (config s)) connectCatch.

(** The text the session's [error] handler makes of what it is given. *)
Definition errorText (e : SessionErrorValue) : string :=
  match e with
  | SE_Error m => m
  | SE_Object json => json
  | SE_Other shown => or_else (Some shown) "An error occurred"
  end.

(** What a capture stores: the compressor's answer, or the raw markup
    when it failed. *)
Definition captured (innerHTML : string) (snapshot : option string) : string :=
  default innerHTML snapshot.

(** The options [captureDOM] gives the compressor. *)
Definition compressorCall (a : Aven) : nat * nat * option bool :=
  (ui_maxTokens (config a), 5,
   match class_of a with
   | AvenClass => ui_assignUniqueIDs (config a)
   | AtticusClass => Some true
   end).

(** The instance after one capture by [refreshDOM]. *)
Definition afterCapture (c : AtticusTool.Capture) (a : Aven) : Aven :=
  final (refreshDOM (AtticusTool.cap_innerHTML c) (AtticusTool.cap_snapshot c) a).

(** The [UIAction] a tool call builds on instance [a]. *)
Definition requested (now : nat) (params : ToolParams) (a : Aven) : UIAction :=
  {| action_id := "action_" +:+ pretty (S (_actionIdCounter a));
     outputText := p_outputText params;
     outputCode := p_outputCode params;
     actionDescription := p_actionDescription params;
     targetElement := p_targetElement params;
     actionType := p_actionType params;
     action_timestamp := now |}.

(** Whether a tool call goes on to run the code it was given. *)
Definition executes (params : ToolParams) (a : Aven) : bool :=
  negb (cfg_doNotExecuteActions (config a)) && truthy (p_outputCode params).

(** The session [connect()] builds on instance [a]. *)
Definition sessionOf (a : Aven) : RealtimeSession :=
  {| rs_agent := realtimeAgent a;
     rs_model := cfg_model (config a);
     rs_transcription := transcriptionConfig (cfg_language (config a)) |}.

(** What no operation changes, and what no operation turns back: the
    configuration, the class and the realtime agent stay; the session
    handle stays, is dropped, or becomes the session built from the
    configuration; the two id counters do not decrease. *)
Definition keeps (a b : Aven) : Prop :=
  config b = config a /\ class_of b = class_of a /\
  realtimeAgent b = realtimeAgent a /\
  (session b = session a \/ session b = None \/
   session b = Some (sessionOf a)) /\
  _actionIdCounter a <= _actionIdCounter b /\
  _messageIdCounter a <= _messageIdCounter b.

(** What an operation started by the host does to the transcript:
    nothing, or empty it. *)
Definition sparesHistory (a b : Aven) : Prop :=
  _messageIdCounter b = _messageIdCounter a /\
  (_history b = _history a \/ _history b = []).

(** The [greeting] of [connect()] before the snapshot is appended. *)
Definition baseGreeting (cfg : EffectiveConfig) : string :=
  if String.eqb (cfg_greetingMessage cfg) DEFAULT_greetingMessage
  then "[IMPORTANT: Respond in " +:+ getLanguageName (cfg_language cfg) +:+
       " only. Say your greeting in " +:+ getLanguageName (cfg_language cfg) +:+
       ".]" +:+ newline2 +:+ getLanguageGreeting (cfg_language cfg)
  else "[IMPORTANT: Respond in " +:+ getLanguageName (cfg_language cfg) +:+
       " only.]" +:+ newline2 +:+ cfg_greetingMessage cfg.

(** A message item that will get a synthesized id: convertible, and
    without a backend id. *)
Definition needsId (item : RealtimeItem) : bool :=
  convertible item && negb (truthy (Some (itemId item))).

(** What the loop builds: one message per convertible item, stamped with
    the clock reading of this update, carrying the backend id when there
    is one and a freshly numbered one otherwise. *)
Definition minted (now lo hi : nat) (m : Message) : Prop :=
  timestamp m = now /\ msg_role m = role (raw m) /\
  if needsId (raw m)
  then exists n, lo < n <= hi /\ id m = "msg_" +:+ pretty n
  else id m = itemId (raw m).

Module Registry.
Import EventBus.

(** What can be done to a registry from outside: the four public methods,
    and a publication. *)
Inductive Step :=
| do_on (event : string) (cb : Callback)
| do_once (event : string) (cb : Callback)
| do_off (event : string) (cb : Callback)
| do_removeAllListeners
| do_emit (event : string).

Definition step (body : nat -> list Action) (fuel : nat) (s : Step) (b : Bus)
  : option Bus :=
  match s with
  | do_on event cb => Some (on event cb b)
  | do_once event cb => Some (once event cb b)
  | do_off event cb => Some (off event cb b)
  | do_removeAllListeners => Some (removeAllListeners b)
  | do_emit event => emit body fuel event b
  end.

Fixpoint steps (body : nat -> list Action) (fuel : nat) (l : list Step)
    (b : Bus) : option Bus :=
  match l with
  | [] => Some b
  | s :: rest =>
      match step body fuel s b with
      | Some b' => steps body fuel rest b'
      | None => None
      end
  end.

(** No function is filed twice under an event. *)
Definition wellFormed (b : Bus) : Prop :=
  forall event entries,
    listeners b !! event = Some entries -> NoDup (live entries).

(** The callbacks subscribed to an event, in order. *)
Definition subscribers (event : string) (b : Bus) : list Callback :=
  live (default [] (listeners b !! event)).

End Registry.

Module Sample2.
Import EventBus.

(** UI mode on, with the snapshot refreshed on a timer. *)
Definition autoConfig : AvenConfig :=
  {| clientSecret := Some "ek_test"; agent := Some Sample.persona;
     language := None; model := None; voice := None; autoGreet := Some false;
     greetingMessage := None; debug := None; doNotExecuteActions := None;
     ui := Some {| enabled := true; rootElement := Some 0;
                   d2SnapOptions := None; autoUpdate := Some true;
                   autoUpdateInterval := None |} |}.

Definition audioItem (i : string) (t : option string) : RealtimeItem :=
  {| itemId := i; type := "message"; role := "assistant";
     content := Some [ {| ctype := "output_audio"; text := None;
                          transcript := t |} ] |}.

(** A page on which every piece of code runs and hands back nothing. *)
Definition succeeding (code : string) : ExecOutcome := Returns JSUndefined.

(** Host function 5 subscribes 1 to "x"; 6 unsubscribes 1 from "x". *)
Definition hostCode (f : nat) : list Action :=
  match f with
  | 5 => [CallOn "x" (Host 1)]
  | 6 => [CallOff "x" (Host 1)]
  | _ => Sample.hostCode f
  end.

End Sample2.

(* ====================================================================== *)
(** * Properties *)
(* ====================================================================== *)

(** Unfold the monad down to triples. *)
Ltac munfold :=
  cbv [mbind M_bind mret M_ret get modify tell throw when try_catch emit
       emitStateChange completion final trace].

(** Reduce a run on a symbolic instance, leaving text building alone. *)
Ltac mrun :=
  cbv -[transcriptionConfig greetingText String.append pretty
        getLanguageName getLanguageGreeting].

(** ** Running the state setters *)

Lemma setConversationState_run state s :
  setConversationState state s =
  if bool_decide (_conversationState s ≠ state)
  then (Normal tt, with_conversationState state s,
        [Published (conversationStateChange state);
         Published (stateChange (getState (with_conversationState state s)))])
  else (Normal tt, s, []).
Proof.
  unfold setConversationState. munfold.
  destruct (bool_decide (_conversationState s ≠ state)); reflexivity.
Qed.

Lemma setStatus_completes status s : completion (setStatus status s) = Normal tt.
Proof.
  destruct s as [k cfg ra ses st cv er hi mc ac dom tm].
  destruct st, status, cv; reflexivity.
Qed.

(** [conversationState] resets to [idle] whenever [status] becomes [idle]
    or [error]. *)
Lemma setStatus_resets status s :
  _status s ≠ status ->
  status = status_idle \/ status = status_error ->
  _status (final (setStatus status s)) = status /\
  _conversationState (final (setStatus status s)) = conv_idle.
Proof.
  destruct s as [k cfg ra ses st cv er hi mc ac dom tm]; cbn.
  intros Hne [-> | ->]; destruct st, cv; try done; split; reflexivity.
Qed.

Lemma connect_installs_session w a :
  session a = None ->
  session (final (connect w a)) =
  Some {| rs_agent := realtimeAgent a;
          rs_model := cfg_model (config a);
          rs_transcription := transcriptionConfig (cfg_language (config a)) |}.
Proof.
  destruct a as [k cfg ra ses st cv er hi mc ac dom tm].
  destruct cfg as [sec ag mo vo la gr gm db dn ue ur ua ui um uq].
  destruct w as [ans html snap]. cbn [session realtimeAgent config].
  intros ->.
  destruct k, st, cv, ans; mrun; try reflexivity.
  all: destruct ue, ur, ua, tm, gr; reflexivity.
Qed.

(* ---------------------------------------------------------------------- *)
(** ** Connection *)
(* ---------------------------------------------------------------------- *)

(** C10. Calling [connect()] while a session handle exists returns at once:
    it completes normally, leaves every field of the instance (status,
    conversation state, error, history and the rest) as it was, and
    neither publishes an event nor calls the session. *)
Theorem connect_with_session_is_noop (w : ConnectWorld) (a : Aven) :
  session a <> None ->
  connect w a = (Normal tt, a, []).
Proof.
  intros H. unfold connect. munfold.
  destruct (session a); [reflexivity | done].
Qed.

Lemma connect_with_session_is_noop_witness :
  session (final (connect Sample.resolves (Sample.fresh AvenClass Sample.fullConfig)))
    <> None /\
  connect Sample.rejects
    (final (connect Sample.resolves (Sample.fresh AvenClass Sample.fullConfig))) =
  (Normal tt,
   final (connect Sample.resolves (Sample.fresh AvenClass Sample.fullConfig)),
   []).
Proof.
  assert (H : session (final (connect Sample.resolves
                (Sample.fresh AvenClass Sample.fullConfig))) <> None)
    by (vm_compute; discriminate).
  split; [exact H | apply (connect_with_session_is_noop _ _ H)].
Defined.

(** C9. The session that [connect()] creates always asks for the
    transcription model, and its transcription request carries a language
    field exactly when the configured code is in
    [SUPPORTED_TRANSCRIPTION_LANGUAGES]; when it does, the field is that
    code. *)
Theorem connect_transcription_language (w : ConnectWorld) (a : Aven) :
  session a = None ->
  exists s,
    session (final (connect w a)) = Some s /\
    tc_model (rs_transcription s) = "gpt-4o-mini-transcribe" /\
    (is_Some (tc_language (rs_transcription s)) <->
     cfg_language (config a) ∈ SUPPORTED_TRANSCRIPTION_LANGUAGES) /\
    (cfg_language (config a) ∈ SUPPORTED_TRANSCRIPTION_LANGUAGES ->
     tc_language (rs_transcription s) = Some (cfg_language (config a))) /\
    (cfg_language (config a) ∉ SUPPORTED_TRANSCRIPTION_LANGUAGES ->
     tc_language (rs_transcription s) = None).
Proof.
  intros H. eexists. split; [apply (connect_installs_session w a H) |].
  cbn [rs_transcription]. unfold transcriptionConfig, isTranscriptionSupported.
  destruct (bool_decide_reflect
              (cfg_language (config a) ∈ SUPPORTED_TRANSCRIPTION_LANGUAGES))
    as [Hin | Hout]; cbn [tc_model tc_language].
  - split; [reflexivity |]. split; [split; eauto |]. split; done.
  - split; [reflexivity |]. split; [| split; done].
    split; [intros [x Hx]; discriminate | done].
Qed.

Lemma connect_transcription_language_witness :
  exists s,
    session (final (connect Sample.resolves
                      (Sample.fresh AvenClass Sample.uiConfig))) = Some s /\
    tc_model (rs_transcription s) = "gpt-4o-mini-transcribe" /\
    tc_language (rs_transcription s) = None.
Proof.
  destruct (connect_transcription_language Sample.resolves
              (Sample.fresh AvenClass Sample.uiConfig) eq_refl)
    as (s & Hs & Hm & _ & _ & Hout).
  exists s. split; [exact Hs | split; [exact Hm |]].
  apply Hout. vm_compute. intros H. discriminate H.
Defined.

(** C8. [disconnect()] is idempotent on every state, reachable or not:
    both calls complete normally, the first leaves the instance idle,
    with an idle conversation, an empty history and no session handle,
    and the second leaves it exactly as the first did. *)
Theorem disconnect_idempotent (a : Aven) :
  completion (disconnect a) = Normal tt /\
  completion (disconnect (final (disconnect a))) = Normal tt /\
  final (disconnect (final (disconnect a))) = final (disconnect a) /\
  _status (final (disconnect a)) = status_idle /\
  _conversationState (final (disconnect a)) = conv_idle /\
  _history (final (disconnect a)) = [] /\
  session (final (disconnect a)) = None.
Proof.
  destruct a as [k cfg ra ses st cv er hi mc ac dom tm].
  destruct ses, st, cv; repeat split; reflexivity.
Qed.

(* ---------------------------------------------------------------------- *)
(** ** Construction *)
(* ---------------------------------------------------------------------- *)

(** C3, as stated, fails: a configuration without [clientSecret] yields an
    instance. *)
Lemma constructor_accepts_missing_secret :
  clientSecret Sample.noSecret = None /\
  exists a, constructor (fun _ => "") AvenClass Sample.noSecret = Normal a.
Proof. split; [reflexivity | eexists; vm_compute; reflexivity]. Qed.

(** C3, amended. Construction fails, with a [TypeError], whenever the
    agent persona is absent, whatever else the configuration holds,
    [clientSecret] included: the first statement of [buildInstructions]
    reads [agent.instructions]. *)
Theorem constructor_fails_without_agent
    (getUIDirective : Class -> string) (k : Class) (c : AvenConfig) :
  agent c = None ->
  constructor getUIDirective k c =
  Abrupt (ErrorObject "TypeError"
            "Cannot read properties of undefined (reading 'instructions')").
Proof.
  destruct c as [sec ag la mo vo gr gm db dn u]. cbn [agent].
  intros ->. reflexivity.
Qed.

Lemma constructor_fails_without_agent_witness :
  constructor (fun _ => "") AvenClass Sample.noAgent =
  Abrupt (ErrorObject "TypeError"
            "Cannot read properties of undefined (reading 'instructions')").
Proof.
  exact (constructor_fails_without_agent (fun _ => "") AvenClass
           Sample.noAgent eq_refl).
Defined.

(* ---------------------------------------------------------------------- *)
(** ** UI actions *)
(* ---------------------------------------------------------------------- *)

(** On thrown values that can be inspected, [executeAction] is the
    method over every thrown value. *)
Lemma executeAction_inspectable
    (run : string -> ExecOutcome) (act : UIAction) (a : Aven) :
  Unguarded.executeAction (fun code => inspectable (run code)) act a =
  executeAction run act a.
Proof.
  unfold Unguarded.executeAction, executeAction.
  destruct (truthy (outputCode act)); cbn [negb]; [| reflexivity].
  munfold. by destruct (run _).
Qed.

(** What the contract says and the code does: without code (null or
    empty) the method succeeds with a null result and evaluates nothing;
    when the code throws a value that can be inspected, it completes
    normally and reports failure with the value's message (["Unknown
    error"] for a value that is not an [Error]). *)
Lemma executeAction_reports_inspectable_throws
    (run : string -> Evaluation) (act : UIAction) (a : Aven) :
  (outputCode act = None \/ outputCode act = Some "" ->
   Unguarded.executeAction run act a =
   (Normal {| success := true; res_result := Some JSNull; res_error := None |},
    a, [])) /\
  (forall code e,
     outputCode act = Some code -> code <> "" ->
     run code = Raises (Inspectable e) ->
     Unguarded.executeAction run act a =
     (Normal {| success := false; res_result := None;
                res_error := Some (messageOr e "Unknown error") |},
      a, [Evaluated code])).
Proof.
  unfold Unguarded.executeAction. split.
  - intros [-> | ->]; reflexivity.
  - intros code e -> Hne Hrun. unfold truthy.
    destruct (String.eqb_spec code "") as [-> | _]; [done |].
    munfold. cbn. rewrite Hrun. reflexivity.
Qed.

(** C5, at the failing input.  The [catch] block of [executeAction] reads
    [error instanceof Error] and [error.message] outside any [try].  When
    the code throws a value on which such a read throws in turn, nothing
    catches what the read throws: [executeAction] completes abruptly with
    it, after evaluating the code once and without touching the
    instance.  So it is on the page where every piece of code throws an
    object inheriting from [Error.prototype] whose [message] getter
    throws a [RangeError], and so it is in general. *)
Theorem executeAction_propagates_what_inspection_throws :
  Unguarded.executeAction Sample.hostile Sample.clickAction
    (Sample.fresh AvenClass Sample.uiConfig) =
  (Abrupt (ErrorObject "RangeError" "no message"),
   Sample.fresh AvenClass Sample.uiConfig,
   [Evaluated "document.getElementById('btn').click()"]) /\
  (forall (run : string -> Evaluation) (act : UIAction) (a : Aven)
          (code : string) (raised : JSThrown),
     outputCode act = Some code -> code <> "" ->
     run code = Raises (Uninspectable raised) ->
     Unguarded.executeAction run act a = (Abrupt raised, a, [Evaluated code])).
Proof.
  split; [reflexivity |].
  intros run act a code raised Hc Hne Hrun.
  unfold Unguarded.executeAction, truthy. rewrite Hc.
  destruct (String.eqb_spec code "") as [-> | _]; [done |].
  munfold. cbn. rewrite Hrun. reflexivity.
Qed.

(** C4, as stated, fails: in the direct profile, with auto-execution on,
    code supplied and [executeAction] reporting failure, the tool returns
    the bare explanation text. *)
Lemma direct_tool_returns_bare_text_on_failure :
  cfg_doNotExecuteActions (config (Sample.fresh AvenClass Sample.uiConfig))
    = false /\
  truthy (p_outputCode Sample.clickParams) = true /\
  completion (executeAction Sample.failing Sample.clickAction
                (Sample.fresh AvenClass Sample.uiConfig)) =
    Normal {| success := false; res_result := None;
              res_error := Some "btn is null" |} /\
  completion (AvenTool.execute 0 Sample.failing Sample.clickParams
                (Sample.fresh AvenClass Sample.uiConfig)) =
    Normal "Clicking the button" /\
  "Clicking the button" <>
    "Clicking the button" +:+ newline2 +:+ "[Action failed: btn is null]".
Proof. vm_compute. repeat split; discriminate. Qed.

(** C4, amended. In the direct profile the action tool returns the bare
    explanation text whatever the execution reports; it is the
    inspect-then-act profile that, with auto-execution on, code supplied
    and a failing execution, returns the explanation followed by the
    failure reason. *)
Theorem tool_return_values
    (now : nat) (run : string -> ExecOutcome) (params : ToolParams) (a : Aven) :
  completion (AvenTool.execute now run params a) = Normal (p_outputText params) /\
  (forall before after code e,
     cfg_doNotExecuteActions (config a) = false ->
     p_outputCode params = Some code -> code <> "" -> run code = Throws e ->
     completion (AtticusTool.execute now run before after params a) =
     Normal (p_outputText params +:+ newline2 +:+ "[Action failed: " +:+
             messageOr e "Unknown error" +:+ "]")).
Proof.
  split.
  - unfold AvenTool.execute, newAction, executeAction. munfold.
    cbn [outputCode config with_actionIdCounter].
    destruct (cfg_doNotExecuteActions (config a)); cbn; [reflexivity |].
    destruct (truthy (p_outputCode params)); cbn; [| reflexivity].
    destruct (run _); reflexivity.
  - intros before after code e Hauto Hcode Hne Hrun.
    assert (Ht : truthy (Some code) = true).
    { unfold truthy. destruct (String.eqb_spec code "") as [-> | _]; done. }
    unfold AtticusTool.execute, newAction, executeAction, refreshDOM,
      updateDOM, captureDOM.
    munfold. rewrite Hcode.
    destruct (ui_enabled (config a)), (ui_rootElement (config a));
      cbn [outputCode config with_actionIdCounter with_currentDOM];
      rewrite ?Hauto, ?Ht; cbn; rewrite ?Hrun; reflexivity.
Qed.

Lemma tool_return_values_witness :
  completion (AtticusTool.execute 0 Sample.failing
                {| AtticusTool.cap_innerHTML := ""; AtticusTool.cap_snapshot := None |}
                {| AtticusTool.cap_innerHTML := ""; AtticusTool.cap_snapshot := None |}
                Sample.clickParams (Sample.fresh AtticusClass Sample.uiConfig)) =
  Normal ("Clicking the button" +:+ newline2 +:+ "[Action failed: " +:+
          "btn is null" +:+ "]").
Proof.
  apply (proj2 (tool_return_values 0 Sample.failing Sample.clickParams
                  (Sample.fresh AtticusClass Sample.uiConfig))
           _ _ "document.getElementById('btn').click()"
           (ErrorObject "TypeError" "btn is null")).
  - reflexivity.
  - reflexivity.
  - intros H. discriminate H.
  - reflexivity.
Defined.

(* ---------------------------------------------------------------------- *)
(** ** Transcript reconciliation *)
(* ---------------------------------------------------------------------- *)

Lemma convertItem_run now item s :
  exists o s',
    convertItem now item s = (Normal o, s', []) /\
    _history s' = _history s /\
    _status s' = _status s /\
    _conversationState s' = _conversationState s /\
    match o with
    | Some m => convertible item = true /\ raw m = item
    | None => convertible item = false
    end.
Proof.
  unfold convertItem, convertible, isMessage, messageId.
  destruct (String.eqb (type item) "message"); cbn [andb];
    [| by eexists _, _].
  destruct (firstContent item) as [c |]; [| by eexists _, _].
  destruct (classify c) as [mc |] eqn:Hc; [| by eexists _, _].
  assert (Hd : bool_decide (is_Some (Some mc)) = true)
    by (apply bool_decide_eq_true; eauto).
  rewrite Hd.
  destruct (truthy (Some (itemId item))); munfold; by eexists _, _.
Qed.

Lemma convertAll_run now items s :
  exists msgs s',
    convertAll now items s = (Normal msgs, s', []) /\
    _history s' = _history s /\
    _status s' = _status s /\
    _conversationState s' = _conversationState s /\
    raw <$> msgs = filter (fun i => convertible i = true) items.
Proof.
  revert s. induction items as [| item rest IH]; intros s.
  - by exists [], s.
  - destruct (convertItem_run now item s)
      as (o & s1 & Hrun & Hh1 & Hs1 & Hc1 & Ho).
    destruct (IH s1) as (ms & s2 & Hrest & Hh2 & Hs2 & Hc2 & Hraw).
    cbn [convertAll]. munfold. rewrite Hrun, Hrest.
    eexists _, s2. split; [reflexivity |]. split; [congruence |].
    split; [congruence |]. split; [congruence |].
    destruct o as [m |].
    + destruct Ho as [Hc Hm]. rewrite filter_cons_True by done.
      rewrite fmap_cons. by rewrite Hm, Hraw.
    + rewrite filter_cons_False by (rewrite Ho; done). done.
Qed.

Lemma emit_each_message msgs s :
  for_of msgs (fun msg => emit (message msg)) s =
  (Normal tt, s, (fun m => Published (message m)) <$> msgs).
Proof.
  induction msgs as [| m rest IH]; [reflexivity |].
  cbn [for_of]. munfold. cbn [for_of] in IH. unfold emit, tell in IH.
  rewrite IH. reflexivity.
Qed.

Lemma published_messages msgs :
  published ((fun m => Published (message m)) <$> msgs) = message <$> msgs.
Proof.
  induction msgs as [| m rest IH]; [reflexivity |].
  cbn. unfold published in IH. by rewrite IH.
Qed.

(** One update: the history becomes the rebuilt list, and the publications
    are one [message] per rebuilt message beyond the previous length, then
    [historyChange] with the rebuilt list, then [stateChange]. *)
Lemma handleHistoryUpdate_run now rawHistory s :
  exists msgs s' t,
    handleHistoryUpdate now rawHistory s = (Normal tt, s', t) /\
    _history s' = msgs /\
    raw <$> msgs = filter (fun i => convertible i = true) rawHistory /\
    published t =
      (message <$> drop (length (_history s)) msgs)
      ++ [historyChange msgs; stateChange (getState s')] /\
    _status s' = _status s /\
    _conversationState s' = _conversationState s.
Proof.
  destruct (convertAll_run now rawHistory s)
    as (msgs & s1 & Hrun & Hh & Hs & Hc & Hraw).
  exists msgs, (with_history msgs s1).
  unfold handleHistoryUpdate. munfold. rewrite Hrun, Hh.
  destruct (Nat.ltb_spec (length (_history s)) (length msgs)) as [Hlt | Hge].
  - pose proof (emit_each_message (drop (length (_history s)) msgs)
                  (with_history msgs s1)) as He.
    unfold emit, tell in He. rewrite He. cbn.
    eexists. split; [reflexivity |]. repeat split; try done.
    unfold published. rewrite omap_app. fold (published
      ((fun m => Published (message m)) <$> drop (length (_history s)) msgs)).
    by rewrite published_messages.
  - cbn. eexists. split; [reflexivity |]. repeat split; try done.
    by rewrite drop_ge.
Qed.

Lemma sessionEvent_history_updated now rawHistory s :
  sessionEvent (history_updated now rawHistory) s =
  handleHistoryUpdate now rawHistory s.
Proof.
  unfold sessionEvent. munfold.
  by destruct (handleHistoryUpdate now rawHistory s) as [[c s1] t].
Qed.

Lemma for_of_cons_run {A} (x : A) rest (body : A -> M unit) s :
  for_of (x :: rest) body s =
  match body x s with
  | (Normal _, s1, t1) =>
      match for_of rest body s1 with
      | (r, s2, t2) => (r, s2, t1 ++ t2)
      end
  | (Abrupt e, s1, t1) => (Abrupt e, s1, t1)
  end.
Proof. reflexivity. Qed.

(** C1, as stated, fails: a snapshot holding one message-kind item that
    carries no content entry leaves the history empty, one short of the
    number of message-kind items, although no content entry of an
    unrecognised kind is involved. *)
Lemma contentless_message_is_not_counted :
  firstContent Sample.emptyItem = None /\
  growing [] [(0, [Sample.emptyItem])] /\
  length (_history (final (deliver [(0, [Sample.emptyItem])]
                             (Sample.fresh AvenClass Sample.fullConfig)))) = 0 /\
  length (filter (fun i => isMessage i = true) [Sample.emptyItem]) = 1.
Proof.
  split; [reflexivity |].
  split; [| split; vm_compute; reflexivity].
  cbn. split; [| exact I].
  exists [Sample.emptyItem]. split; [discriminate | reflexivity].
Qed.

(** C1, amended. Over any run of snapshots, each extending the one before
    it, delivered to an instance whose history has as many entries as the
    starting list has convertible items (message kind, first content entry
    present and of a known kind): every delivery completes normally; each
    publishes one [message] event per newly appended convertible item, in
    list order, then one [historyChange] event with the full list, then
    [stateChange]; and the history at the end lists exactly the convertible
    items of the last snapshot, so message-kind items with a missing or
    unrecognised first content entry, and items of other kinds, add nothing. *)
Theorem reconciliation_of_growing_snapshots
    (prev : list RealtimeItem) (snapshots : list (nat * list RealtimeItem))
    (a : Aven) :
  growing prev snapshots ->
  length (_history a) = length (filter (fun i => convertible i = true) prev) ->
  completion (deliver snapshots a) = Normal tt /\
  shape <$> published (trace (deliver snapshots a)) = expected prev snapshots /\
  length (_history (final (deliver snapshots a))) =
    length (filter (fun i => convertible i = true) (lastSnapshot prev snapshots)) /\
  (snapshots <> [] ->
   raw <$> _history (final (deliver snapshots a)) =
     filter (fun i => convertible i = true) (lastSnapshot prev snapshots)).
Proof.
  revert prev a.
  induction snapshots as [| [now rawHistory] rest IH]; intros prev a Hgrow Hlen.
  - repeat split; done.
  - destruct Hgrow as [(ext & Hne & ->) Hgrow].
    destruct (handleHistoryUpdate_run now (prev ++ ext) a)
      as (msgs & s' & t1 & Hrun & Hh & Hraw & Hpub & _ & _).
    assert (Hlen' : length (_history s') =
              length (filter (fun i => convertible i = true) (prev ++ ext))).
    { rewrite Hh, <- Hraw. by rewrite length_fmap. }
    destruct (IH _ s' Hgrow Hlen') as (IHc & IHp & IHl & IHr).
    assert (Hlast : rest <> [] ->
              lastSnapshot prev ((now, prev ++ ext) :: rest) =
              lastSnapshot (prev ++ ext) rest).
    { unfold lastSnapshot. destruct rest as [| p rest']; [done | intros _].
      rewrite last_cons_cons.
      destruct (last (p :: rest')) eqn:E; [done | by apply last_None in E]. }
    assert (Hend : rest = [] ->
              for_of rest (fun p => sessionEvent (history_updated p.1 p.2)) s' =
              (Normal tt, s', [])) by (by intros ->).
    unfold deliver in *. rewrite for_of_cons_run. cbn [fst snd].
    rewrite sessionEvent_history_updated, Hrun.
    unfold completion, final, trace in *.
    destruct (for_of rest _ s') as [[c2 s2] t2]. cbn [fst snd] in *.
    split; [done |]. split; [| split].
    + unfold published in *. rewrite omap_app, fmap_app, Hpub, IHp.
      rewrite fmap_app. cbn [expected fmap list_fmap shape].
      rewrite <- list_fmap_compose.
      change (shape ∘ message) with (a_message ∘ raw).
      rewrite list_fmap_compose, fmap_drop, Hraw, Hlen.
      rewrite <- app_assoc. rewrite (filter_app _ prev ext) at 1.
      by rewrite !drop_app_length.
    + destruct rest as [| p rest']; [exact IHl | by rewrite Hlast].
    + intros _. destruct rest as [| p rest'].
      * specialize (Hend eq_refl). inversion Hend; subst s2.
        unfold lastSnapshot. cbn. by rewrite Hh.
      * rewrite Hlast by done. by apply IHr.
Qed.

Lemma reconciliation_of_growing_snapshots_witness :
  completion (deliver [(0, [Sample.textItem "item_1" "hello"]);
                       (1, [Sample.textItem "item_1" "hello"; Sample.imageItem;
                            Sample.textItem "" "again"])]
                (Sample.fresh AvenClass Sample.fullConfig)) = Normal tt /\
  length (_history
            (final (deliver [(0, [Sample.textItem "item_1" "hello"]);
                             (1, [Sample.textItem "item_1" "hello";
                                  Sample.imageItem;
                                  Sample.textItem "" "again"])]
                      (Sample.fresh AvenClass Sample.fullConfig)))) = 2.
Proof.
  destruct (reconciliation_of_growing_snapshots []
              [(0, [Sample.textItem "item_1" "hello"]);
               (1, [Sample.textItem "item_1" "hello"; Sample.imageItem;
                    Sample.textItem "" "again"])]
              (Sample.fresh AvenClass Sample.fullConfig))
    as (Hc & _ & Hl & _).
  - cbn. split; [| split; [| exact I]].
    + exists [Sample.textItem "item_1" "hello"].
      split; [discriminate | reflexivity].
    + exists [Sample.imageItem; Sample.textItem "" "again"].
      split; [discriminate | reflexivity].
  - reflexivity.
  - split; [exact Hc | exact Hl].
Defined.

(* ---------------------------------------------------------------------- *)
(** ** Status and conversation state *)
(* ---------------------------------------------------------------------- *)

Lemma handleHistoryUpdate_keeps_turn now rawHistory s :
  _status (final (handleHistoryUpdate now rawHistory s)) = _status s /\
  _conversationState (final (handleHistoryUpdate now rawHistory s)) =
    _conversationState s.
Proof.
  destruct (handleHistoryUpdate_run now rawHistory s)
    as (msgs & s' & t & Hrun & _ & _ & _ & Hs & Hc).
  rewrite Hrun. done.
Qed.

(** After [connect()] has gone past its guard the status is [connected],
    or it is [error] with the conversation state reset. *)
Lemma connect_outcome w a :
  session a = None ->
  _status (final (connect w a)) = status_connected \/
  _status (final (connect w a)) = status_error /\
  _conversationState (final (connect w a)) = conv_idle.
Proof.
  destruct a as [k cfg ra ses st cv er hi mc ac dom tm].
  destruct cfg as [sec ag mo vo la gr gm db dn ue ur ua ui um uq].
  destruct w as [ans html snap]. cbn [session]. intros ->.
  destruct ans.
  - right. by destruct k, st, cv.
  - left. destruct k, st, cv; mrun; destruct ue, ur, ua, tm, gr; reflexivity.
Qed.

Lemma connect_keeps_settled w a : settled a -> settled (final (connect w a)).
Proof.
  intros Ha. destruct (session a) as [s |] eqn:Hs.
  - unfold connect. munfold. by rewrite Hs.
  - unfold settled.
    destruct (connect_outcome w a Hs) as [-> | [-> ->]];
      [by intros [? | ?] | done].
Qed.

Lemma disconnect_settles a : settled (final (disconnect a)).
Proof.
  destruct a as [k cfg ra ses st cv er hi mc ac dom tm].
  by destruct ses, st, cv.
Qed.

(** [toggle()] disconnects, connects, or does nothing. *)
Lemma toggle_cases w a :
  toggle w a = disconnect a \/ toggle w a = connect w a \/
  toggle w a = (Normal tt, a, []).
Proof.
  unfold toggle. munfold. destruct (isConnected a).
  - left. by destruct (disconnect a) as [[c s] t].
  - destruct (_ || _).
    + right. left. by destruct (connect w a) as [[c s] t].
    + right. by right.
Qed.

(** Every method the host can call, and every tool the remote agent can,
    leaves the invariant in place. *)
Lemma calls_keep_settled o a :
  isCall o = true -> settled a -> settled (final (perform o a)).
Proof.
  destruct o as [w | | | m | w | | d | h sn | | | run act | c
                 | now run before after params | ev];
    try discriminate; intros _; cbn [perform].
  - apply connect_keeps_settled.
  - intros _. apply disconnect_settles.
  - destruct a as [k cfg ra ses st cv er hi mc ac dom tm].
    destruct ses; mrun; by auto.
  - destruct a as [k cfg ra ses st cv er hi mc ac dom tm].
    destruct ses; mrun; by auto.
  - destruct (toggle_cases w a) as [-> | [-> | ->]].
    + intros _. apply disconnect_settles.
    + apply connect_keeps_settled.
    + done.
  - destruct a as [k cfg ra ses st cv er hi mc ac dom tm].
    unfold settled. destruct ses, st, cv, tm; mrun; by auto.
  - destruct a as [k cfg ra ses st cv er hi mc ac dom tm].
    unfold settled. destruct d; mrun; by auto.
  - destruct a as [k cfg ra ses st cv er hi mc ac dom tm].
    destruct cfg as [sec ag mo vo la gr gm db dn ue ur ua ui um uq].
    unfold settled. destruct ue, ur; mrun; by auto.
  - destruct a as [k cfg ra ses st cv er hi mc ac dom tm].
    unfold settled. destruct tm; mrun; by auto.
  - destruct a as [k cfg ra ses st cv er hi mc ac dom tm].
    unfold settled. destruct tm; mrun; by auto.
  - unfold settled, executeAction. munfold.
    destruct (truthy (outputCode act)); cbn; [| by auto].
    destruct (run _); cbn; by auto.
  - destruct a as [k cfg ra ses st cv er hi mc ac dom tm].
    destruct cfg as [sec ag mo vo la gr gm db dn ue ur ua ui um uq].
    unfold settled. destruct c as [html snap].
    destruct k, ue, ur; mrun; by auto.
  - destruct a as [k cfg ra ses st cv er hi mc ac dom tm].
    destruct cfg as [sec ag mo vo la gr gm db dn ue ur ua ui um uq].
    destruct before as [html1 snap1], after as [html2 snap2].
    destruct params as [txt code ds tg ty].
    unfold settled, AvenTool.execute, AtticusTool.execute, newAction,
      executeAction, refreshDOM, updateDOM, captureDOM.
    munfold. cbn.
    destruct ue; [| by auto].
    destruct k, ur, dn, (truthy code); cbn; try (by auto);
      destruct (run _); cbn; by auto.
Qed.

(** So does every session event that arrives while the connection is
    being made or is up. *)
Lemma live_events_keep_settled ev a :
  _status a = status_connecting \/ _status a = status_connected ->
  settled (final (sessionEvent ev a)).
Proof.
  intros Hlive. unfold settled.
  destruct ev as [now rawHistory | e | | | | |].
  - rewrite sessionEvent_history_updated.
    destruct (handleHistoryUpdate_keeps_turn now rawHistory a) as [-> _].
    destruct Hlive as [-> | ->]; by intros [? | ?].
  - destruct a as [k cfg ra ses st cv er hi mc ac dom tm]. cbn in Hlive.
    destruct e; mrun; destruct Hlive as [-> | ->]; by intros [? | ?].
  - destruct a as [k cfg ra ses st cv er hi mc ac dom tm]. cbn in Hlive.
    destruct k, cv; mrun; destruct Hlive as [-> | ->]; by intros [? | ?].
  - destruct a as [k cfg ra ses st cv er hi mc ac dom tm]. cbn in Hlive.
    destruct k, cv; mrun; destruct Hlive as [-> | ->]; by intros [? | ?].
  - destruct a as [k cfg ra ses st cv er hi mc ac dom tm]. cbn in Hlive.
    destruct k, cv; mrun; destruct Hlive as [-> | ->]; by intros [? | ?].
  - destruct a as [k cfg ra ses st cv er hi mc ac dom tm]. cbn in Hlive.
    destruct k, cv; mrun; destruct Hlive as [-> | ->]; by intros [? | ?].
  - destruct a as [k cfg ra ses st cv er hi mc ac dom tm]. cbn in Hlive.
    destruct k, cv; mrun; destruct Hlive as [-> | ->]; by intros [? | ?].
Qed.

(** Hence the invariant holds in every state reached while the session
    only delivers events during a live connection. *)
Lemma settled_while_events_are_live k cfg ra a :
  reachable_live k cfg ra a -> settled a.
Proof.
  induction 1 as [| a o _ IH Ho | a ev _ _ Hlive].
  - intros _. reflexivity.
  - by apply calls_keep_settled.
  - by apply live_events_keep_settled.
Qed.

(** While the status goes to [idle], the consolidated state is published
    before the conversation state is reset: after a connection and an
    [agent_start], [disconnect()] publishes a [stateChange] whose payload
    has [status = idle] and [conversationState = ai_speaking]. *)
Example disconnect_publishes_unsettled_state :
  (fun s => (st_status s, st_conversationState s)) <$>
    head (omap (fun e => match e with stateChange s => Some s | _ => None end)
            (published
               (trace (disconnect
                         (after [op_connect Sample.resolves; op_session agent_start]
                            (Sample.fresh AvenClass Sample.fullConfig))))))
  = Some (status_idle, ai_speaking).
Proof. vm_compute. reflexivity. Qed.

(** Handlers outlive [disconnect()]: an [agent_end] that the closed
    session still delivers finds the instance idle and moves the
    conversation state to [user_turn]. *)
Example late_turn_signal_after_disconnect :
  _status (after [op_connect Sample.resolves; op_session agent_start;
                  op_disconnect; op_session agent_end]
             (Sample.fresh AvenClass Sample.fullConfig)) = status_idle /\
  _conversationState
    (after [op_connect Sample.resolves; op_session agent_start;
            op_disconnect; op_session agent_end]
       (Sample.fresh AvenClass Sample.fullConfig)) = user_turn.
Proof. split; vm_compute; reflexivity. Qed.

(** C2, at the failing input. [connect()] is rejected, which leaves the
    instance in [error] with an idle conversation but still holding the
    session and its handlers; the session then signals audio, and the
    handler sets the conversation state without looking at the status.
    The state reached has [status = error] and
    [conversationState = user_speaking]. *)
Theorem turn_signal_after_failed_connect :
  reachable AvenClass (mergeConfig AvenClass Sample.fullConfig) Sample.theAgent
    (after [op_connect Sample.rejects; op_session audio]
       (Sample.fresh AvenClass Sample.fullConfig)) /\
  _status (after [op_connect Sample.rejects; op_session audio]
             (Sample.fresh AvenClass Sample.fullConfig)) = status_error /\
  _conversationState (after [op_connect Sample.rejects; op_session audio]
                        (Sample.fresh AvenClass Sample.fullConfig))
    = user_speaking.
Proof.
  split; [| split; vm_compute; reflexivity].
  cbn [after perform]. apply reach_event.
  - apply (reach_call _ _ _ _ (op_connect Sample.rejects)); [| reflexivity].
    apply reach_initial.
  - vm_compute. discriminate.
Qed.

(* ---------------------------------------------------------------------- *)
(** ** The listener registry *)
(* ---------------------------------------------------------------------- *)

Section Bus.
Import EventBus Quiet.

Variable body : nat -> list Action.

(** More fuel never changes an answer. *)
Lemma fuel_mono n :
  (forall cb b r, call body n cb b = Some r ->
     forall m, n <= m -> call body m cb b = Some r) /\
  (forall acts b r, exec body n acts b = Some r ->
     forall m, n <= m -> exec body m acts b = Some r) /\
  (forall ev i b r, forEach body n ev i b = Some r ->
     forall m, n <= m -> forEach body m ev i b = Some r) /\
  (forall ev b r, emit body n ev b = Some r ->
     forall m, n <= m -> emit body m ev b = Some r).
Proof.
  induction n as [| n (IHc & IHx & IHf & IHe)];
    [repeat split; intros; discriminate |].
  repeat split.
  - intros cb b r H [| m] Hm; [lia |]. cbn in *.
    destruct cb; [apply IHx | apply IHc]; auto with lia.
  - intros acts b r H [| m] Hm; [lia |]. cbn in *.
    destruct acts as [| [tag | e | ev cb | ev cb | ev cb | ev] rest];
      try done; try (apply IHx; auto with lia).
    destruct (emit body n ev b) as [b' |] eqn:He; [| done].
    rewrite (IHe _ _ _ He m) by lia. apply IHx; auto with lia.
  - intros ev i b r H [| m] Hm; [lia |]. cbn in *.
    destruct (default [] (listeners b !! ev) !! i) as [[cb |] |];
      [| apply IHf; auto with lia | done].
    destruct (call body n cb b) as [[[| e] b'] |] eqn:Hc; [| | done];
      rewrite (IHc _ _ _ Hc m) by lia; apply IHf; auto with lia.
  - intros ev b r H [| m] Hm; [lia |]. cbn in *.
    destruct (listeners b !! ev); [apply IHf; auto with lia | done].
Qed.

Lemma call_mono n m cb b r :
  call body n cb b = Some r -> n <= m -> call body m cb b = Some r.
Proof. intros H Hm. by apply (proj1 (fuel_mono n) cb b r H). Qed.

Lemma exec_mono n m acts b r :
  exec body n acts b = Some r -> n <= m -> exec body m acts b = Some r.
Proof. intros H Hm. by apply (proj1 (proj2 (fuel_mono n)) acts b r H). Qed.

Lemma forEach_mono n m ev i b r :
  forEach body n ev i b = Some r -> n <= m -> forEach body m ev i b = Some r.
Proof.
  intros H Hm. by apply (proj1 (proj2 (proj2 (fuel_mono n))) ev i b r H).
Qed.

Lemma emit_mono n m ev b r :
  emit body n ev b = Some r -> n <= m -> emit body m ev b = Some r.
Proof.
  intros H Hm. by apply (proj2 (proj2 (proj2 (fuel_mono n))) ev b r H).
Qed.

Lemma calls_app l1 l2 : calls (l1 ++ l2) = calls l1 ++ calls l2.
Proof. apply omap_app. Qed.

Lemma reports_app l1 l2 : reports (l1 ++ l2) = reports l1 ++ reports l2.
Proof. apply omap_app. Qed.

(** *** Quiet listeners *)

Lemma exec_quiet acts b :
  forallb quiet_action acts = true ->
  exists n b',
    exec body n acts b =
      Some (match thrown acts with Some e => Raised e | None => Done end, b') /\
    listeners b' = listeners b /\
    calls (log b') = calls (log b) /\
    reports (log b') = reports (log b).
Proof.
  revert b. induction acts as [| a rest IH]; intros b Hq.
  - by exists 1, b.
  - destruct a as [tag | e | | | |]; try discriminate; cbn in Hq.
    + destruct (IH (record (Noted tag) b) Hq) as (n & b' & Hx & Hl & Hc & Hr).
      exists (S n), b'. cbn. rewrite Hx. repeat split; try done.
      * rewrite Hc. cbn. rewrite calls_app. cbn. by rewrite app_nil_r.
      * rewrite Hr. cbn. rewrite reports_app. cbn. by rewrite app_nil_r.
    + by exists 1, b.
Qed.

Lemma call_quiet ev cb b :
  quiet body cb ->
  exists n o b',
    call body n cb b = Some (o, b') /\
    listeners b' = listeners b /\
    calls (log b') = calls (log b) ++ [cb] /\
    reports (log b') = reports (log b) /\
    thrownBy body ev cb =
      match o with Raised e => Some (ev, e) | Done => None end.
Proof.
  destruct cb as [f | k ev' inner]; [| done]. cbn. intros Hq.
  destruct (exec_quiet (body f) (record (Called (Host f)) b) Hq)
    as (n & b' & Hx & Hl & Hc & Hr).
  exists (S n), (match thrown (body f) with
                 | Some e => Raised e
                 | None => Done
                 end), b'.
  cbn. rewrite Hx. repeat split; try done.
  - rewrite Hc. cbn. by rewrite calls_app.
  - rewrite Hr. cbn. rewrite reports_app. cbn. by rewrite app_nil_r.
  - by destruct (thrown (body f)).
Qed.

Lemma forEach_quiet ev entries k :
  forall i b,
    length entries - i = k ->
    listeners b !! ev = Some entries ->
    Forall (quiet body) (live (drop i entries)) ->
    exists n b',
      forEach body n ev i b = Some b' /\
      listeners b' = listeners b /\
      calls (log b') = calls (log b) ++ live (drop i entries) /\
      reports (log b') =
        reports (log b) ++ omap (thrownBy body ev) (live (drop i entries)).
Proof.
  induction k as [| k IH]; intros i b Hk Hl Hq.
  - exists 1, b. cbn. rewrite Hl. cbn.
    rewrite lookup_ge_None_2 by lia. rewrite drop_ge by lia.
    cbn. by rewrite !app_nil_r.
  - destruct (lookup_lt_is_Some_2 entries i) as [e He]; [lia |].
    rewrite (drop_S _ _ _ He) in *.
    destruct e as [cb |]; cbn in Hq |- *.
    + apply Forall_cons in Hq as [Hcb Hq].
      destruct (call_quiet ev cb b Hcb) as (n1 & o & b1 & Hc & Hl1 & Hc1 & Hr1 & Ht).
      assert (Hl1' : listeners (match o with
                                | Raised e => record (Reported ev e) b1
                                | Done => b1
                                end) !! ev = Some entries)
        by (destruct o; cbn; by rewrite Hl1).
      destruct (IH (S i) _ ltac:(lia) Hl1' Hq) as (n2 & b2 & Hf & Hl2 & Hc2 & Hr2).
      exists (S (n1 `max` n2)), b2. cbn. rewrite Hl. cbn. rewrite He.
      rewrite (call_mono _ (n1 `max` n2) _ _ _ Hc) by lia.
      destruct o as [| e].
      * rewrite (forEach_mono _ (n1 `max` n2) _ _ _ _ Hf) by lia.
        repeat split; try congruence.
        -- rewrite Hc2, Hc1. by rewrite <- app_assoc.
        -- rewrite Hr2, Hr1, Ht. done.
      * rewrite (forEach_mono _ (n1 `max` n2) _ _ _ _ Hf) by lia.
        repeat split.
        -- rewrite Hl2. cbn. done.
        -- rewrite Hc2. cbn. rewrite calls_app, Hc1. cbn.
           rewrite app_nil_r. by rewrite <- app_assoc.
        -- rewrite Hr2, Ht. cbn. rewrite reports_app, Hr1. cbn.
           by rewrite <- app_assoc.
    + destruct (IH (S i) b ltac:(lia) Hl Hq) as (n & b' & Hf & Hl2 & Hc2 & Hr2).
      exists (S n), b'. cbn. rewrite Hl. cbn. rewrite He. done.
Qed.

(** The number of deliveries is read off the list of calls. *)
Lemma deliveries_app cb l1 l2 :
  deliveries cb (l1 ++ l2) = deliveries cb l1 + deliveries cb l2.
Proof.
  unfold deliveries. by rewrite calls_app, filter_app, length_app.
Qed.

Lemma deliveries_NoDup cb (l : list Callback) :
  NoDup l ->
  length (filter (fun c => c = cb) l) = if bool_decide (cb ∈ l) then 1 else 0.
Proof.
  induction 1 as [| x l Hx Hnd IH]; [done |].
  destruct (decide (x = cb)) as [-> | Hne].
  - rewrite filter_cons_True by done. cbn.
    rewrite bool_decide_eq_true_2 by set_solver.
    rewrite IH, bool_decide_eq_false_2; done.
  - rewrite filter_cons_False by done. rewrite IH.
    apply (f_equal (fun c : bool => if c then 1 else 0)).
    apply bool_decide_ext. rewrite elem_of_cons.
    split; [by right | by intros [-> | ?]].
Qed.

End Bus.

(** A listener set never holds the same function twice. *)
Lemma set_add_NoDup entries cb :
  NoDup (EventBus.live entries) ->
  NoDup (EventBus.live (EventBus.set_add entries cb)).
Proof.
  intros Hnd. unfold EventBus.set_add. case_bool_decide as Hin; [done |].
  unfold EventBus.live in *. rewrite omap_app. cbn.
  apply NoDup_app. split; [done |]. split; [| apply NoDup_singleton].
  intros x Hx Hx'. apply list_elem_of_singleton in Hx' as ->.
  apply Hin. apply list_elem_of_omap in Hx as ([y |] & Hy & [=]). by subst.
Qed.

Lemma set_delete_NoDup entries cb :
  NoDup (EventBus.live entries) ->
  NoDup (EventBus.live (EventBus.set_delete entries cb)).
Proof.
  unfold EventBus.live, EventBus.set_delete.
  induction entries as [| [x |] rest IH]; cbn; [done | | done].
  case_bool_decide as Hx; cbn.
  - intros Hnd. apply NoDup_cons in Hnd as [_ Hnd]. by apply IH.
  - intros Hnd. apply NoDup_cons in Hnd as [Hnot Hnd].
    apply NoDup_cons. split; [| by apply IH].
    intros Hin. apply Hnot.
    apply list_elem_of_omap in Hin as (y & Hy & Hyx).
    apply list_elem_of_fmap in Hy as (z & -> & Hz).
    apply list_elem_of_omap. exists z. split; [done |].
    by case_bool_decide.
Qed.


(** The simplest case in full: publishing an event whose subscribed
    callbacks neither touch the registry nor make the orchestrator publish
    (they do their work and possibly throw) returns normally; the log
    shows every subscribed callback called once, in subscription order,
    those registered after one that throws included, and each thrown
    exception reported; the registry is left as it was. *)
Lemma emit_over_quiet_listeners
    (body : nat -> list EventBus.Action) (ev : string) (b : EventBus.Bus)
    (entries : list (option EventBus.Callback)) :
  EventBus.listeners b !! ev = Some entries ->
  NoDup (EventBus.live entries) ->
  Forall (Quiet.quiet body) (EventBus.live entries) ->
  exists fuel0, forall fuel, fuel0 <= fuel ->
    exists b',
      EventBus.emit body fuel ev b = Some b' /\
      EventBus.listeners b' = EventBus.listeners b /\
      EventBus.calls (EventBus.log b') =
        EventBus.calls (EventBus.log b) ++ EventBus.live entries /\
      EventBus.reports (EventBus.log b') =
        EventBus.reports (EventBus.log b)
        ++ omap (Quiet.thrownBy body ev) (EventBus.live entries) /\
      (forall cb,
         EventBus.deliveries cb (EventBus.log b') =
         EventBus.deliveries cb (EventBus.log b)
         + (if bool_decide (cb ∈ EventBus.live entries) then 1 else 0)).
Proof.
  intros Hl Hnd Hq.
  destruct (forEach_quiet body ev entries (length entries) 0 b)
    as (n & b' & Hf & Hl' & Hc & Hr); [lia | done | by rewrite drop_0 |].
  rewrite drop_0 in *.
  exists (S n). intros fuel Hfuel. exists b'. split; [| repeat split; try done].
  - apply (emit_mono body (S n)); [| done]. cbn. by rewrite Hl.
  - intros cb. unfold EventBus.deliveries. rewrite Hc, filter_app, length_app.
    by rewrite (deliveries_NoDup cb (EventBus.live entries)).
Qed.


(** *** A publication, callback by callback *)

Section Publication.
Import EventBus Publish.

Variable body : nat -> list Action.
Variable ev : string.

Local Abbreviation evset b := (default [] (listeners b !! ev)).


























End Publication.



(** *** Registrations through [once] *)

Section Once.
Import EventBus Quiet.

Variable body : nat -> list Action.
Variable ev : string.
Variable f : nat.
Variable N : nat.
Hypothesis Hbody : forallb reentrant_action (body f) = true.

Local Abbreviation slots := (Quiet.slots ev f N).

Lemma slots_lookup_done j i : i < j -> j <= N -> slots j !! i = Some None.
Proof.
  intros Hi Hj. unfold Quiet.slots.
  rewrite lookup_app_l by (rewrite length_replicate; lia).
  by apply lookup_replicate_2.
Qed.

Lemma slots_lookup_next j :
  j < N -> slots j !! j = Some (Some (Wrapped j ev (Host f))).
Proof.
  intros Hj. unfold Quiet.slots.
  rewrite lookup_app_r by (rewrite length_replicate; lia).
  rewrite length_replicate, Nat.sub_diag.
  destruct (N - j) as [| n] eqn:E; [lia | done].
Qed.

Lemma slots_lookup_end i : N <= i -> slots N !! i = None.
Proof.
  intros Hi. apply lookup_ge_None_2. unfold Quiet.slots.
  rewrite length_app, length_replicate, length_fmap, length_seq. lia.
Qed.

Lemma set_delete_slots j :
  j < N -> set_delete (slots j) (Wrapped j ev (Host f)) = slots (S j).
Proof.
  intros Hj. unfold set_delete, Quiet.slots.
  rewrite fmap_app. replace (N - j) with (S (N - S j)) by lia.
  cbn [seq fmap list_fmap].
  rewrite bool_decide_eq_true_2 by done.
  rewrite replicate_S_end, <- app_assoc. cbn [app]. f_equal.
  - apply list_eq. intros i. rewrite list_lookup_fmap.
    destruct (replicate j None !! i) as [x |] eqn:E; [| done].
    apply lookup_replicate in E as [-> _]. done.
  - f_equal. rewrite <- list_fmap_compose. apply list_fmap_ext.
    intros i k Hk. apply lookup_seq in Hk as [-> _]. cbn.
    rewrite bool_decide_eq_false_2; [done |]. intros [=]. lia.
Qed.

Lemma handoffs_app cb j n1 n2 :
  handoffs ev cb j n1 ++ handoffs ev cb (j + n1) n2 = handoffs ev cb j (n1 + n2).
Proof. unfold handoffs. by rewrite seq_app, flat_map_app. Qed.

Lemma exec_republish n ev' rest b :
  exec body (S n) (Republish ev' :: rest) b =
  match emit body n ev' b with
  | Some b' => exec body n rest b'
  | None => None
  end.
Proof. reflexivity. Qed.

Lemma forEach_step n i b :
  forEach body (S n) ev i b =
  match default [] (listeners b !! ev) !! i with
  | None => Some b
  | Some None => forEach body n ev (S i) b
  | Some (Some cb) =>
      match call body n cb b with
      | Some (Done, b') => forEach body n ev (S i) b'
      | Some (Raised e, b') =>
          forEach body n ev (S i) (record (Reported ev e) b')
      | None => None
      end
  end.
Proof. reflexivity. Qed.

Lemma log_off ev' cb b : log (off ev' cb b) = log b.
Proof. unfold off. by destruct (listeners b !! ev'). Qed.

Lemma handoffs_cons cb j n :
  handoffs ev cb j (S n) = Wrapped j ev cb :: cb :: handoffs ev cb (S j) n.
Proof. reflexivity. Qed.

(** Skipping the empty slots left by wrappers that have run. *)
Lemma forEach_skip k :
  forall i j b n r,
    i + k = j -> j <= N ->
    listeners b = {[ev := slots j]} ->
    forEach body n ev j b = Some r ->
    forEach body (k + n) ev i b = Some r.
Proof.
  induction k as [| k IH]; intros i j b n r Hij Hj Hl Hf.
  - by replace i with j by lia.
  - cbn [Nat.add]. rewrite forEach_step, Hl, lookup_singleton_eq. cbn [from_option]; unfold Datatypes.id.
    rewrite slots_lookup_done by lia.
    apply (IH (S i) j); auto with lia.
Qed.

Local Abbreviation finishes := (Quiet.finishes body ev f N).

Lemma exec_reentrant m :
  (forall m', m' < m -> finishes m') ->
  forall acts,
    forallb reentrant_action acts = true ->
    forall j b,
      j <= N -> N - j < m ->
      listeners b = {[ev := slots j]} ->
      exists n o b' j',
        exec body n acts b = Some (o, b') /\
        j <= j' /\ j' <= N /\
        listeners b' = {[ev := slots j']} /\
        calls (log b') = calls (log b) ++ handoffs ev (Host f) j (j' - j).
Proof.
  intros IHm acts. induction acts as [| a rest IH]; intros Hq j b Hj Hm Hl.
  - exists 1, Done, b, j. cbn. rewrite Nat.sub_diag. cbn.
    rewrite app_nil_r. auto with lia.
  - destruct a as [tag | e | | | | ev']; try discriminate; cbn in Hq.
    + destruct (IH Hq j (record (Noted tag) b) Hj Hm Hl)
        as (n & o & b' & j' & Hx & H1 & H2 & Hl' & Hc).
      exists (S n), o, b', j'. cbn. rewrite Hx. repeat split; try done.
      rewrite Hc. cbn. rewrite calls_app. cbn. by rewrite app_nil_r.
    + exists 1, (Raised e), b, j. cbn. rewrite Nat.sub_diag. cbn.
      rewrite app_nil_r. auto with lia.
    + destruct (decide (ev' = ev)) as [-> | Hne].
      * destruct (IHm (N - j) Hm j 0 b eq_refl Hj ltac:(lia) Hl)
          as (n1 & b1 & Hf & Hl1 & Hc1).
        destruct (IH Hq N b1 ltac:(lia) ltac:(lia) Hl1)
          as (n2 & o & b2 & j' & Hx & H1 & H2 & Hl2 & Hc2).
        exists (S (S n1 `max` n2)), o, b2, j'.
        split; [| repeat split; try done; try lia].
        -- assert (He : emit body (S n1) ev b = Some b1)
             by (cbn; by rewrite Hl, lookup_singleton_eq).
           rewrite exec_republish.
           rewrite (emit_mono body (S n1) (S n1 `max` n2) ev b b1 He) by lia.
           apply (exec_mono body n2); [done | lia].
        -- rewrite Hc2, Hc1, <- app_assoc. f_equal.
           replace j' with N by lia. rewrite Nat.sub_diag. cbn.
           by rewrite app_nil_r.
      * destruct (IH Hq j b Hj Hm Hl)
          as (n & o & b' & j' & Hx & H1 & H2 & Hl' & Hc).
        exists (S (S n)), o, b', j'. split; [| done].
        assert (He : emit body (S n) ev' b = Some b)
          by (cbn; by rewrite Hl, lookup_singleton_ne).
        rewrite exec_republish, He.
        apply (exec_mono body n); [done | lia].
Qed.

Lemma forEach_finishes m : finishes m.
Proof.
  induction m as [m IHm] using lt_wf_ind.
  intros j i b Hm Hj Hi Hl.
  destruct (decide (j = N)) as [-> | Hlt].
  - (* nothing left: the rest of the set is empty slots *)
    exists (N - i + 1), b. rewrite Nat.sub_diag. cbn. rewrite app_nil_r.
    split; [| done].
    apply (forEach_skip (N - i) i N); auto with lia.
    rewrite forEach_step, Hl, lookup_singleton_eq. cbn [from_option]; unfold Datatypes.id.
    by rewrite slots_lookup_end.
  - (* the wrapper in slot [j] runs *)
    assert (Hj' : j < N) by lia.
    set (b1 := record (Called (Host f))
                 (off ev (Wrapped j ev (Host f))
                    (record (Called (Wrapped j ev (Host f))) b))).
    assert (Hl1 : listeners b1 = {[ev := slots (S j)]}).
    { unfold b1, off. cbn. rewrite Hl, lookup_singleton_eq. cbn.
      rewrite set_delete_slots by done. by rewrite insert_singleton_eq. }
    destruct (exec_reentrant m IHm (body f) Hbody (S j) b1
                ltac:(lia) ltac:(lia) Hl1)
      as (n1 & o & b2 & j' & Hx & H1 & H2 & Hl2 & Hc2).
    set (b3 := match o with
               | Raised e => record (Reported ev e) b2
               | Done => b2
               end).
    assert (Hl3 : listeners b3 = {[ev := slots j']}) by (by destruct o).
    destruct (IHm (N - j') ltac:(lia) j' (S j) b3 eq_refl H2 H1 Hl3)
      as (n2 & b4 & Hf & Hl4 & Hc4).
    exists ((j - i) + S (S (S n1) `max` n2)), b4.
    split; [| split; [done |]].
    + apply (forEach_skip (j - i) i j); auto with lia.
      rewrite forEach_step, Hl, lookup_singleton_eq. cbn [from_option]; unfold Datatypes.id.
      rewrite slots_lookup_next by done.
      rewrite (call_mono body (S (S n1)) _ _ b (o, b2)); [| | lia].
      * destruct o; apply (forEach_mono body n2); done || lia.
      * cbn [call]. fold b1. done.
    + rewrite Hc4. unfold b3.
      assert (Hc3 : calls (log (match o with
                                | Raised e => record (Reported ev e) b2
                                | Done => b2
                                end)) = calls (log b2)).
      { destruct o; [done |]. cbn. rewrite calls_app. cbn.
        by rewrite app_nil_r. }
      assert (Hc1 : calls (log b1) =
                calls (log b) ++ [Wrapped j ev (Host f); Host f]).
      { unfold b1. cbn [record log]. rewrite calls_app, log_off.
        cbn [record log]. rewrite calls_app. by rewrite <- app_assoc. }
      rewrite Hc3, Hc2, Hc1, <- !app_assoc. f_equal. cbn [app].
      replace (N - j) with (S ((j' - S j) + (N - j'))) by lia.
      rewrite handoffs_cons. do 2 f_equal.
      rewrite <- handoffs_app.
      by replace (S j + (j' - S j)) with j' by lia.
Qed.

Lemma emits_mono n m events b r :
  emits body n events b = Some r -> n <= m -> emits body m events b = Some r.
Proof.
  revert b. induction events as [| e rest IH]; intros b H Hm; [done |].
  cbn in *. destruct (emit body n e b) as [b1 |] eqn:He; [| done].
  rewrite (emit_mono body n m e b b1 He Hm). by apply IH.
Qed.

Lemma emit_finishes j b :
  j <= N -> listeners b = {[ev := slots j]} ->
  exists n b',
    emit body n ev b = Some b' /\
    listeners b' = {[ev := slots N]} /\
    calls (log b') = calls (log b) ++ handoffs ev (Host f) j (N - j).
Proof.
  intros Hj Hl.
  destruct (forEach_finishes (N - j) j 0 b eq_refl Hj ltac:(lia) Hl)
    as (n & b' & Hf & Hl' & Hc).
  exists (S n), b'. split; [| done]. cbn. by rewrite Hl, lookup_singleton_eq.
Qed.

Lemma emit_elsewhere ev' j b :
  ev' <> ev -> listeners b = {[ev := slots j]} -> emit body 1 ev' b = Some b.
Proof. intros Hne Hl. cbn. by rewrite Hl, lookup_singleton_ne. Qed.

(** Once every wrapper has run, further publications call nothing. *)
Lemma emits_afterwards events :
  forall b,
    listeners b = {[ev := slots N]} ->
    exists n b',
      emits body n events b = Some b' /\
      listeners b' = {[ev := slots N]} /\
      calls (log b') = calls (log b).
Proof.
  induction events as [| e rest IH]; intros b Hl; [by exists 0, b |].
  destruct (decide (e = ev)) as [-> | Hne].
  - destruct (emit_finishes N b ltac:(lia) Hl) as (n1 & b1 & He & Hl1 & Hc1).
    rewrite Nat.sub_diag in Hc1. cbn in Hc1. rewrite app_nil_r in Hc1.
    destruct (IH b1 Hl1) as (n2 & b2 & Hr & Hl2 & Hc2).
    exists (n1 `max` n2), b2. split; [| split; [done | congruence]].
    cbn. rewrite (emit_mono body n1 _ ev b b1 He) by lia.
    apply (emits_mono n2); [done | lia].
  - destruct (IH b Hl) as (n2 & b2 & Hr & Hl2 & Hc2).
    exists (1 `max` n2), b2. split; [| done].
    cbn. rewrite (emit_mono body 1 _ e b b (emit_elsewhere e N b Hne Hl)) by lia.
    apply (emits_mono n2); [done | lia].
Qed.

(** Any run of publications that includes [ev] delivers to every wrapper
    still subscribed. *)
Lemma emits_deliver events :
  ev ∈ events ->
  forall b,
    listeners b = {[ev := slots 0]} ->
    exists n b',
      emits body n events b = Some b' /\
      listeners b' = {[ev := slots N]} /\
      calls (log b') = calls (log b) ++ handoffs ev (Host f) 0 N.
Proof.
  induction events as [| e rest IH]; intros Hin b Hl.
  - by apply elem_of_nil in Hin.
  - destruct (decide (e = ev)) as [-> | Hne].
    + destruct (emit_finishes 0 b ltac:(lia) Hl) as (n1 & b1 & He & Hl1 & Hc1).
      rewrite Nat.sub_0_r in Hc1.
      destruct (emits_afterwards rest b1 Hl1) as (n2 & b2 & Hr & Hl2 & Hc2).
      exists (n1 `max` n2), b2. split; [| split; [done | congruence]].
      cbn. rewrite (emit_mono body n1 _ ev b b1 He) by lia.
      apply (emits_mono n2); [done | lia].
    + apply elem_of_cons in Hin as [-> | Hin]; [done |].
      destruct (IH Hin b Hl) as (n2 & b2 & Hr & Hl2 & Hc2).
      exists (1 `max` n2), b2. split; [| done].
      cbn. rewrite (emit_mono body 1 _ e b b (emit_elsewhere e 0 b Hne Hl)) by lia.
      apply (emits_mono n2); [done | lia].
Qed.

End Once.

Section Registrations.
Import EventBus Quiet.

Variable ev : string.
Variable f : nat.

Lemma once_n_S n b :
  once_n (S n) ev (Host f) b = once ev (Host f) (once_n n ev (Host f) b).
Proof. reflexivity. Qed.

(** [n] registrations on an empty registry: [n] wrappers, in order, all
    subscribed. *)
Lemma once_n_registers n :
  listeners (once_n (S n) ev (Host f) EventBus.empty) = {[ev := slots ev f (S n) 0]} /\
  closures (once_n (S n) ev (Host f) EventBus.empty) = S n /\
  log (once_n (S n) ev (Host f) EventBus.empty) = [].
Proof.
  induction n as [| n (IHl & IHc & IHg)].
  - done.
  - rewrite once_n_S. unfold once, on. cbn [listeners closures log with_listeners].
    rewrite IHl, IHc, IHg, lookup_singleton_eq. cbn [from_option]. unfold Datatypes.id.
    split; [| done]. rewrite insert_singleton_eq. f_equal.
    unfold set_add, slots. cbn [replicate app]. rewrite !Nat.sub_0_r.
    rewrite bool_decide_eq_false_2.
    + rewrite (seq_S (S n)), fmap_app. done.
    + intros Hin. apply list_elem_of_fmap in Hin as (k & [= ->] & Hk).
      apply elem_of_seq in Hk. lia.
Qed.

Lemma deliveries_handoffs_wrapper k n :
  forall j,
    length (filter (fun c => c = Wrapped k ev (Host f))
              (handoffs ev (Host f) j n)) =
    if bool_decide (j <= k < j + n) then 1 else 0.
Proof.
  induction n as [| n IH]; intros j.
  - cbn. by rewrite bool_decide_eq_false_2 by lia.
  - rewrite handoffs_cons.
    destruct (decide (j = k)) as [-> | Hne].
    + rewrite filter_cons_True by done.
      rewrite filter_cons_False by done. cbn [length]. rewrite IH.
      rewrite bool_decide_eq_false_2 by lia.
      by rewrite bool_decide_eq_true_2 by lia.
    + rewrite filter_cons_False by (intros [=]; done).
      rewrite filter_cons_False by done. rewrite IH.
      apply (f_equal (fun c : bool => if c then 1 else 0)).
      apply bool_decide_ext. lia.
Qed.

Lemma deliveries_handoffs_callback n :
  forall j,
    length (filter (fun c => c = Host f) (handoffs ev (Host f) j n)) = n.
Proof.
  induction n as [| n IH]; intros j; [done |].
  rewrite handoffs_cons.
  rewrite filter_cons_False by done.
  rewrite filter_cons_True by done. cbn [length]. by rewrite IH.
Qed.

End Registrations.

(** C7. Register a callback [N] times through [once] on an empty registry,
    then publish any sequence of events in which the event occurs at least
    once, the callback itself being free to throw and to make the
    orchestrator publish any event again while it runs.  Every publication
    returns; each of the [N] wrappers is invoked exactly once, and the
    callback exactly [N] times, each wrapper having unsubscribed itself
    just before handing over to the callback. *)
Theorem once_delivers_exactly_once
    (body : nat -> list EventBus.Action) (ev : string) (f N : nat)
    (events : list string) :
  forallb Quiet.reentrant_action (body f) = true ->
  ev ∈ events ->
  exists fuel0, forall fuel, fuel0 <= fuel ->
    exists b',
      EventBus.emits body fuel events
        (Quiet.once_n N ev (EventBus.Host f) EventBus.empty) = Some b' /\
      EventBus.calls (EventBus.log b') =
        Quiet.handoffs ev (EventBus.Host f) 0 N /\
      (forall k, k < N ->
         EventBus.deliveries (EventBus.Wrapped k ev (EventBus.Host f))
           (EventBus.log b') = 1) /\
      EventBus.deliveries (EventBus.Host f) (EventBus.log b') = N /\
      EventBus.live (default [] (EventBus.listeners b' !! ev)) = [].
Proof.
  intros Hbody Hin.
  destruct N as [| n].
  - (* no registration: nothing is filed under any event *)
    exists 1. intros fuel Hfuel. exists EventBus.empty.
    split;
      [| split; [done | split; [intros k Hk; lia | split; [done |]]];
         cbn; by rewrite lookup_empty].
    change (Quiet.once_n 0 ev (EventBus.Host f) EventBus.empty)
      with EventBus.empty.
    clear Hin. induction events as [| e rest IH]; [done |].
    cbn [EventBus.emits].
    rewrite (emit_mono body 1 fuel e EventBus.empty EventBus.empty); done.
  - destruct (once_n_registers ev f n) as (Hl & _ & Hg).
    destruct (emits_deliver body ev f (S n) Hbody events Hin _ Hl)
      as (n1 & b' & He & Hl' & Hc).
    rewrite Hg in Hc. change (EventBus.calls []) with (@nil EventBus.Callback) in Hc.
    rewrite app_nil_l in Hc.
    exists n1. intros fuel Hfuel. exists b'.
    split; [by apply (emits_mono body n1) |]. split; [done |].
    unfold EventBus.deliveries. split; [| split].
    + intros k Hk. rewrite Hc, deliveries_handoffs_wrapper.
      by rewrite bool_decide_eq_true_2 by lia.
    + rewrite Hc. apply deliveries_handoffs_callback.
    + rewrite Hl', lookup_singleton_eq. cbn [from_option]. unfold Datatypes.id.
      unfold Quiet.slots. rewrite Nat.sub_diag. cbn [seq fmap list_fmap].
      rewrite app_nil_r. clear. induction (S n) as [| m IH]; [done |].
      cbn. done.
Qed.

Lemma once_delivers_exactly_once_witness :
  exists fuel0, forall fuel, fuel0 <= fuel ->
    exists b',
      EventBus.emits Sample.hostCode fuel ["x"; "y"; "x"]
        (Quiet.once_n 3 "x" (EventBus.Host 4) EventBus.empty) = Some b' /\
      EventBus.deliveries (EventBus.Wrapped 2 "x" (EventBus.Host 4))
        (EventBus.log b') = 1 /\
      EventBus.deliveries (EventBus.Host 4) (EventBus.log b') = 3.
Proof.
  destruct (once_delivers_exactly_once Sample.hostCode "x" 4 3 ["x"; "y"; "x"])
    as (fuel0 & H).
  - reflexivity.
  - apply list_elem_of_here.
  - exists fuel0. intros fuel Hfuel.
    destruct (H fuel Hfuel) as (b' & He & _ & Hw & Hc & _).
    exists b'. split; [exact He |]. split; [apply Hw; lia | exact Hc].
Defined.

(* ====================================================================== *)
(** * Further properties *)
(* ====================================================================== *)

(** [mrun] in a hypothesis. *)
Ltac mrun_in H :=
  cbv -[transcriptionConfig greetingText String.append pretty
        getLanguageName getLanguageGreeting] in H.

(** Evaluate the one run the goal mentions, once, then split on what is
    left undecided with [tac] and finish. *)
Ltac run_once head tac :=
  match goal with
  | |- context [head ?x ?s] =>
      let r := fresh "r" in
      let E := fresh "E" in
      remember (head x s) as r eqn:E; mrun_in E; tac; mrun_in E; subst r;
      cbn [completion final trace fst snd]
  end.

(** ** Sequencing *)

Lemma bind_run {A B} (m : M A) (f : A -> M B) s x :
  completion (m s) = Normal x ->
  (m ≫= f) s =
  (completion (f x (final (m s))), final (f x (final (m s))),
   trace (m s) ++ trace (f x (final (m s)))).
Proof.
  unfold completion, final, trace. munfold.
  destruct (m s) as [[c s1] t1]. cbn. intros ->.
  by destruct (f x s1) as [[r s2] t2].
Qed.

Lemma sessionCalls_app t1 t2 :
  sessionCalls (t1 ++ t2) = sessionCalls t1 ++ sessionCalls t2.
Proof. apply omap_app. Qed.

Lemma published_app t1 t2 : published (t1 ++ t2) = published t1 ++ published t2.
Proof. apply omap_app. Qed.

(** ** The two halves of [connect()] *)

(** A [try] block may be entered after a prefix that cannot throw. *)
Lemma connect_split (K : EffectiveConfig -> M unit) (H : JSThrown -> M unit) a :
  try_catch
    (setStatus status_connecting;;
     modify (with_error None);;
     s ← get;
     let cfg := config s in
     modify (with_session
               (Some {| rs_agent := realtimeAgent s;
                        rs_model := cfg_model cfg;
                        rs_transcription :=
                          transcriptionConfig (cfg_language cfg) |}));;
     setupSessionListeners;;
     onSession (Connect (cfg_clientSecret cfg));;
     K cfg) H a =
  (connectBegin ;; (s ← get; try_catch (K (config s)) H)) a.
Proof.
  destruct a as [k cfg ra ses st cv er hi mc ac dom tm].
  destruct k, st; mrun;
    match goal with
    | |- context [K cfg ?s] =>
        destruct (K cfg s) as [[[u | e] s1] t1];
        [reflexivity | by destruct (H e s1) as [[c2 s2] t2]]
    end.
Qed.

Lemma connect_in_two_halves w a :
  session a = None ->
  connect w a = (connectBegin ;; connectResume w) a.
Proof.
  intros Hs. unfold connect.
  assert (G : forall X : M unit,
             (get ≫= fun s0 => match session s0 with
                               | Some _ => mret tt
                               | None => X
                               end) a = X a).
  { intros X. munfold. rewrite Hs. by destruct (X a) as [[c s] t]. }
  rewrite G. exact (connect_split (connectAfter w) connectCatch a).
Qed.

(** What the first half does, whatever the instance. *)
Lemma connectBegin_run a :
  completion (connectBegin a) = Normal tt /\
  (_status (final (connectBegin a)) = status_connecting /\
   session (final (connectBegin a)) =
     Some {| rs_agent := realtimeAgent a;
             rs_model := cfg_model (config a);
             rs_transcription := transcriptionConfig (cfg_language (config a)) |} /\
   _error (final (connectBegin a)) = None /\
   _conversationState (final (connectBegin a)) = _conversationState a /\
   _history (final (connectBegin a)) = _history a) /\
  (config (final (connectBegin a)) = config a /\
   class_of (final (connectBegin a)) = class_of a /\
   realtimeAgent (final (connectBegin a)) = realtimeAgent a /\
   _autoUpdateTimer (final (connectBegin a)) = _autoUpdateTimer a /\
   _currentDOM (final (connectBegin a)) = _currentDOM a /\
   _messageIdCounter (final (connectBegin a)) = _messageIdCounter a /\
   _actionIdCounter (final (connectBegin a)) = _actionIdCounter a) /\
  sessionCalls (trace (connectBegin a)) =
    (Subscribe <$> subscriptions (class_of a))
    ++ [Connect (cfg_clientSecret (config a))].
Proof.
  destruct a as [k cfg ra ses st cv er hi mc ac dom tm].
  destruct k, st; repeat split; reflexivity.
Qed.

(** The second half when the session has connected and is still held. *)
Lemma connectResume_resolved w s :
  connectAnswer w = None ->
  session s <> None ->
  completion (connectResume w s) = Normal tt /\
  (_status (final (connectResume w s)) = status_connected /\
   session (final (connectResume w s)) = session s /\
   _error (final (connectResume w s)) = _error s /\
   _conversationState (final (connectResume w s)) = _conversationState s /\
   _history (final (connectResume w s)) = _history s) /\
  (config (final (connectResume w s)) = config s /\
   class_of (final (connectResume w s)) = class_of s /\
   realtimeAgent (final (connectResume w s)) = realtimeAgent s /\
   _autoUpdateTimer (final (connectResume w s)) =
     _autoUpdateTimer s || (ui_enabled (config s) && ui_autoUpdate (config s)) /\
   _messageIdCounter (final (connectResume w s)) = _messageIdCounter s /\
   _actionIdCounter (final (connectResume w s)) = _actionIdCounter s) /\
  sessionCalls (trace (connectResume w s)) =
    (if cfg_autoGreet (config s)
     then [SendMessage (greetingText (final (connectResume w s)))]
     else []) /\
  last (published (trace (connectResume w s))) = Some connected.
Proof.
  destruct s as [k cfg ra ses st cv er hi mc ac dom tm].
  destruct cfg as [sec ag mo vo la gr gm db dn ue ur ua ui um uq].
  destruct w as [ans html snap]. cbn [session connectAnswer].
  intros -> Hs. destruct ses as [x |]; [clear Hs | done].
  destruct st; run_once connectResume ltac:(destruct ue, ur, ua, tm, gr);
    repeat split; reflexivity.
Qed.

(** The second half when the session has refused. *)
Lemma connectResume_rejected w e s :
  connectAnswer w = Some e ->
  _status s = status_connecting ->
  completion (connectResume w s) = Abrupt e /\
  (_status (final (connectResume w s)) = status_error /\
   session (final (connectResume w s)) = session s /\
   _error (final (connectResume w s)) = Some (messageOr e "Failed to connect") /\
   _conversationState (final (connectResume w s)) = conv_idle /\
   _history (final (connectResume w s)) = _history s) /\
  (config (final (connectResume w s)) = config s /\
   class_of (final (connectResume w s)) = class_of s /\
   realtimeAgent (final (connectResume w s)) = realtimeAgent s /\
   _autoUpdateTimer (final (connectResume w s)) = _autoUpdateTimer s /\
   _currentDOM (final (connectResume w s)) = _currentDOM s /\
   _messageIdCounter (final (connectResume w s)) = _messageIdCounter s /\
   _actionIdCounter (final (connectResume w s)) = _actionIdCounter s) /\
  sessionCalls (trace (connectResume w s)) = [] /\
  last (published (trace (connectResume w s))) =
    Some (error (messageOr e "Failed to connect")).
Proof.
  destruct s as [k cfg ra ses st cv er hi mc ac dom tm].
  destruct w as [ans html snap]. cbn [_status connectAnswer].
  intros -> ->.
  destruct cv; repeat split; reflexivity.
Qed.

(** With a session held, [connect()] and [toggle()] outside a live
    connection return at once. *)
Lemma connect_guard w a :
  session a <> None -> connect w a = (Normal tt, a, []).
Proof.
  intros H. unfold connect. munfold.
  destruct (session a); [reflexivity | done].
Qed.

Lemma toggle_guard w a :
  session a <> None -> _status a = status_error ->
  toggle w a = (Normal tt, a, []).
Proof.
  destruct a as [k cfg ra ses st cv er hi mc ac dom tm]. cbn [session _status].
  intros Hs ->. by destruct ses.
Qed.

Lemma last_app_cons {A} (l1 l2 : list A) x :
  last l2 = Some x -> last (l1 ++ l2) = Some x.
Proof.
  intros H. destruct l2 as [| y l2] using rev_ind; [done |].
  rewrite last_snoc in H. by rewrite app_assoc, last_snoc.
Qed.

(** What [disconnect()] leaves, field by field. *)
Lemma disconnect_run a :
  completion (disconnect a) = Normal tt /\
  (_status (final (disconnect a)) = status_idle /\
   session (final (disconnect a)) = None /\
   _error (final (disconnect a)) = _error a /\
   _conversationState (final (disconnect a)) = conv_idle /\
   _history (final (disconnect a)) = []) /\
  (config (final (disconnect a)) = config a /\
   class_of (final (disconnect a)) = class_of a /\
   realtimeAgent (final (disconnect a)) = realtimeAgent a /\
   _autoUpdateTimer (final (disconnect a)) = _autoUpdateTimer a /\
   _currentDOM (final (disconnect a)) = _currentDOM a /\
   _messageIdCounter (final (disconnect a)) = _messageIdCounter a /\
   _actionIdCounter (final (disconnect a)) = _actionIdCounter a) /\
  sessionCalls (trace (disconnect a)) =
    (if bool_decide (session a <> None) then [Close] else []) /\
  exists evs,
    published (trace (disconnect a)) = evs ++ [disconnected; historyChange []].
Proof.
  destruct a as [k cfg ra ses st cv er hi mc ac dom tm].
  destruct ses, st, cv; (repeat split; try reflexivity);
    match goal with
    | |- exists evs, ?l = _ =>
        let v := eval cbv in l in
        exists (take (length v - 2) v); reflexivity
    end.
Qed.

(** The second half when the session has connected but the instance has
    been disconnected meanwhile. *)
Lemma connectResume_unheld w s :
  connectAnswer w = None ->
  session s = None ->
  _status s = status_idle ->
  _conversationState s = conv_idle ->
  session (final (connectResume w s)) = None /\
  config (final (connectResume w s)) = config s /\
  if cfg_autoGreet (config s) then
    completion (connectResume w s)
      = Abrupt (ErrorObject "TypeError"
                 "Cannot read properties of null (reading 'sendMessage')") /\
    _status (final (connectResume w s)) = status_error
  else
    completion (connectResume w s) = Normal tt /\
    _status (final (connectResume w s)) = status_connected /\
    isConnected (final (connectResume w s)) = false.
Proof.
  destruct s as [k cfg ra ses st cv er hi mc ac dom tm].
  destruct cfg as [sec ag mo vo la gr gm db dn ue ur ua ui um uq].
  destruct w as [ans html snap].
  cbn [session connectAnswer _status _conversationState config cfg_autoGreet].
  intros -> -> -> ->.
  destruct gr; run_once connectResume ltac:(destruct ue, ur, ua, tm);
    repeat split; reflexivity.
Qed.

(* ---------------------------------------------------------------------- *)
(** ** More on the connection lifecycle *)
(* ---------------------------------------------------------------------- *)

(** X1. A [connect()] that starts without a session and whose session
    connects completes normally with the instance connected and its error
    cleared; history and conversation state are as before.  On the
    session it subscribes the handlers, connects with the configured
    credential and, when auto-greeting is on, sends the greeting, in that
    order and nothing else.  The auto-update timer ends armed exactly when
    it was already, or UI mode and auto-update are both on.  The last event
    published is [connected]. *)
Theorem connect_resolved (w : ConnectWorld) (a : Aven) :
  session a = None ->
  connectAnswer w = None ->
  completion (connect w a) = Normal tt /\
  _status (final (connect w a)) = status_connected /\
  _error (final (connect w a)) = None /\
  isConnected (final (connect w a)) = true /\
  _history (final (connect w a)) = _history a /\
  _conversationState (final (connect w a)) = _conversationState a /\
  sessionCalls (trace (connect w a)) =
    (Subscribe <$> subscriptions (class_of a))
    ++ [Connect (cfg_clientSecret (config a))]
    ++ (if cfg_autoGreet (config a)
        then [SendMessage (greetingText (final (connect w a)))]
        else []) /\
  _autoUpdateTimer (final (connect w a)) =
    _autoUpdateTimer a || (ui_enabled (config a) && ui_autoUpdate (config a)) /\
  last (published (trace (connect w a))) = Some connected.
Proof.
  intros Hs Hw.
  destruct (connectBegin_run a)
    as (Hc1 & (Hst1 & Hse1 & He1 & Hcv1 & Hh1) &
        (Hcf1 & Hk1 & Hra1 & Htm1 & Hd1 & Hmc1 & Hac1) & Hsc1).
  assert (Hheld : session (final (connectBegin a)) <> None)
    by (by rewrite Hse1).
  destruct (connectResume_resolved w (final (connectBegin a)) Hw Hheld)
    as (Hc2 & (Hst2 & Hse2 & He2 & Hcv2 & Hh2) &
        (Hcf2 & Hk2 & Hra2 & Htm2 & Hmc2 & Hac2) & Hsc2 & Hp2).
  rewrite (connect_in_two_halves w a Hs), (bind_run _ _ a tt Hc1).
  cbn [completion final trace fst snd].
  split; [done |]. split; [done |]. split; [congruence |].
  split; [unfold isConnected; rewrite Hst2, Hse2, Hse1; done |].
  split; [congruence |]. split; [congruence |].
  split; [| split].
  - rewrite sessionCalls_app, Hsc1, Hsc2, Hcf1. by rewrite <- app_assoc.
  - by rewrite Htm2, Htm1, Hcf1.
  - rewrite published_app. by apply last_app_cons.
Qed.

Lemma connect_resolved_witness :
  _status (final (connect Sample.resolves
                    (Sample.fresh AtticusClass Sample.uiConfig)))
    = status_connected /\
  length (sessionCalls (trace (connect Sample.resolves
                                 (Sample.fresh AtticusClass Sample.uiConfig))))
    = 9.
Proof.
  destruct (connect_resolved Sample.resolves
              (Sample.fresh AtticusClass Sample.uiConfig) eq_refl eq_refl)
    as (_ & Hs & _ & _ & _ & _ & Hc & _).
  split; [exact Hs |]. rewrite Hc. reflexivity.
Defined.

(** X2. A [connect()] that starts without a session and whose session
    refuses rethrows what the session threw, leaves the instance in
    [error] with an idle conversation and the error text stored (the
    message of an [Error], ["Failed to connect"] otherwise), and publishes
    [error] last.  The refused session is kept in [this.session], so until
    [disconnect()] is called every further [connect()] and [toggle()]
    returns at once without doing anything. *)
Theorem connect_rejected_sticks (w : ConnectWorld) (e : JSThrown) (a : Aven) :
  session a = None ->
  connectAnswer w = Some e ->
  completion (connect w a) = Abrupt e /\
  _status (final (connect w a)) = status_error /\
  _conversationState (final (connect w a)) = conv_idle /\
  _error (final (connect w a)) = Some (messageOr e "Failed to connect") /\
  session (final (connect w a)) <> None /\
  last (published (trace (connect w a))) =
    Some (error (messageOr e "Failed to connect")) /\
  (forall w',
     connect w' (final (connect w a)) = (Normal tt, final (connect w a), [])) /\
  (forall w',
     toggle w' (final (connect w a)) = (Normal tt, final (connect w a), [])).
Proof.
  intros Hs Hw.
  destruct (connectBegin_run a)
    as (Hc1 & (Hst1 & Hse1 & He1 & Hcv1 & Hh1) & _ & _).
  destruct (connectResume_rejected w e (final (connectBegin a)) Hw Hst1)
    as (Hc2 & (Hst2 & Hse2 & He2 & Hcv2 & Hh2) & _ & _ & Hp2).
  rewrite (connect_in_two_halves w a Hs), (bind_run _ _ a tt Hc1).
  cbn [completion final trace fst snd].
  assert (Hheld : session (final (connectResume w (final (connectBegin a))))
                  <> None) by (by rewrite Hse2, Hse1).
  split; [done |]. split; [done |]. split; [done |]. split; [done |].
  split; [done |]. split; [rewrite published_app; by apply last_app_cons |].
  split; intros w'; [by apply connect_guard | by apply toggle_guard].
Qed.

Lemma connect_rejected_sticks_witness :
  completion (connect Sample.rejects (Sample.fresh AvenClass Sample.fullConfig))
    = Abrupt (ErrorObject "Error" "network down") /\
  toggle Sample.resolves
    (final (connect Sample.rejects (Sample.fresh AvenClass Sample.fullConfig)))
  = (Normal tt,
     final (connect Sample.rejects (Sample.fresh AvenClass Sample.fullConfig)),
     []).
Proof.
  destruct (connect_rejected_sticks Sample.rejects
              (ErrorObject "Error" "network down")
              (Sample.fresh AvenClass Sample.fullConfig) eq_refl eq_refl)
    as (Hc & _ & _ & _ & _ & _ & _ & Ht).
  split; [exact Hc | apply Ht].
Defined.

(** X3. [disconnect()] called while [connect()] is waiting for the session
    does not cancel it.  When the session then connects, the rest of
    [connect()] runs on the instance [disconnect()] left: with
    auto-greeting off it completes normally and marks the instance
    [connected] although no session is held, so [isConnected] is false;
    with auto-greeting on, sending the greeting reads [sendMessage] of
    the null handle, and the instance ends in [error], the [TypeError] of
    that read being rethrown. *)
Theorem disconnect_during_connect (w : ConnectWorld) (a : Aven) :
  connectAnswer w = None ->
  session (final (connectResume w (final (disconnect (final (connectBegin a))))))
    = None /\
  if cfg_autoGreet (config a) then
    completion (connectResume w (final (disconnect (final (connectBegin a)))))
      = Abrupt (ErrorObject "TypeError"
                 "Cannot read properties of null (reading 'sendMessage')") /\
    _status (final (connectResume w (final (disconnect (final (connectBegin a))))))
      = status_error
  else
    completion (connectResume w (final (disconnect (final (connectBegin a)))))
      = Normal tt /\
    _status (final (connectResume w (final (disconnect (final (connectBegin a))))))
      = status_connected /\
    isConnected (final (connectResume w
                          (final (disconnect (final (connectBegin a))))))
      = false.
Proof.
  intros Hw.
  destruct (connectBegin_run a) as (_ & _ & (Hcf1 & _) & _).
  destruct (disconnect_run (final (connectBegin a)))
    as (_ & (Hst & Hse & _ & Hcv & _) & (Hcf2 & _) & _).
  destruct (connectResume_unheld w _ Hw Hse Hst Hcv) as (H1 & _ & H2).
  split; [exact H1 |]. by rewrite Hcf2, Hcf1 in H2.
Qed.

Lemma disconnect_during_connect_witness :
  _status (final (connectResume Sample.resolves
                    (final (disconnect
                              (final (connectBegin
                                        (Sample.fresh AvenClass Sample.fullConfig)))))))
  = status_error.
Proof.
  destruct (disconnect_during_connect Sample.resolves
              (Sample.fresh AvenClass Sample.fullConfig) eq_refl)
    as [_ H].
  exact (proj2 H).
Defined.

(** X4. [disconnect()] calls [close] on the session exactly when one is
    held and makes no other call on it; whatever it publishes ends with
    [disconnected] followed by [historyChange] with the empty list; and it
    leaves the stored error, the cached snapshot, the auto-update timer,
    the id counters and the configuration as they were. *)
Theorem disconnect_effects (a : Aven) :
  sessionCalls (trace (disconnect a)) =
    (if bool_decide (session a <> None) then [Close] else []) /\
  (exists evs,
     published (trace (disconnect a)) =
     evs ++ [disconnected; historyChange []]) /\
  _error (final (disconnect a)) = _error a /\
  _currentDOM (final (disconnect a)) = _currentDOM a /\
  _autoUpdateTimer (final (disconnect a)) = _autoUpdateTimer a /\
  _messageIdCounter (final (disconnect a)) = _messageIdCounter a /\
  _actionIdCounter (final (disconnect a)) = _actionIdCounter a /\
  config (final (disconnect a)) = config a.
Proof.
  destruct (disconnect_run a)
    as (_ & (_ & _ & He & _ & _) & (Hcf & _ & _ & Htm & Hd & Hmc & Hac) &
        Hsc & Hp).
  repeat split; assumption.
Qed.

(** [connect()] past its guard, as the sequence of its two halves. *)
Lemma connect_run w a :
  session a = None ->
  connect w a =
  (completion (connectResume w (final (connectBegin a))),
   final (connectResume w (final (connectBegin a))),
   trace (connectBegin a) ++ trace (connectResume w (final (connectBegin a)))).
Proof.
  intros Hs. destruct (connectBegin_run a) as (Hc & _).
  by rewrite (connect_in_two_halves w a Hs), (bind_run _ _ a tt Hc).
Qed.

(** Which branch [toggle()] takes. *)
Lemma toggle_connects w a :
  _status a = status_idle \/ _status a = status_error ->
  toggle w a = connect w a.
Proof.
  intros H. unfold toggle. munfold.
  assert (Hc : isConnected a = false)
    by (unfold isConnected; by destruct H as [-> | ->]).
  assert (Hd : bool_decide (_status a = status_idle)
               || bool_decide (_status a = status_error) = true)
    by (by destruct H as [-> | ->]).
  rewrite Hc, Hd. by destruct (connect w a) as [[c s] t].
Qed.

Lemma toggle_disconnects w a :
  isConnected a = true -> toggle w a = disconnect a.
Proof.
  intros H. unfold toggle. munfold. rewrite H.
  by destruct (disconnect a) as [[c s] t].
Qed.

Lemma toggle_waits w a :
  _status a = status_connecting \/ _status a = status_connected /\ session a = None ->
  toggle w a = (Normal tt, a, []).
Proof.
  destruct a as [k cfg ra ses st cv er hi mc ac dom tm]. cbn [_status session].
  by intros [-> | [-> ->]].
Qed.

(** [sendMessage] and [interrupt], by whether a session is held. *)
Lemma forwarded_held m a :
  session a <> None ->
  sendMessage m a = (Normal tt, a, [OnSession (SendMessage m)]) /\
  interrupt a = (Normal tt, a, [OnSession Interrupt]).
Proof.
  intros H. unfold sendMessage, interrupt. munfold.
  by destruct (session a).
Qed.

Lemma forwarded_unheld m a :
  session a = None ->
  sendMessage m a = (Normal tt, a, []) /\ interrupt a = (Normal tt, a, []).
Proof.
  intros H. unfold sendMessage, interrupt. munfold. by rewrite H.
Qed.

(** X5. [destroy()] disarms the auto-update timer, disconnects (closing
    the session when one is held) and clears the listener registry last;
    a second [destroy()] changes nothing more and publishes only what
    [disconnect()] always publishes.  Nothing marks the instance as
    destroyed: a later [connect()] builds a session again. *)
Theorem destroy_effects (a : Aven) :
  completion (destroy a) = Normal tt /\
  _autoUpdateTimer (final (destroy a)) = false /\
  session (final (destroy a)) = None /\
  _status (final (destroy a)) = status_idle /\
  _conversationState (final (destroy a)) = conv_idle /\
  _history (final (destroy a)) = [] /\
  sessionCalls (trace (destroy a)) =
    (if bool_decide (session a <> None) then [Close] else []) /\
  last (trace (destroy a)) = Some ListenersCleared /\
  final (destroy (final (destroy a))) = final (destroy a) /\
  published (trace (destroy (final (destroy a)))) =
    [disconnected; historyChange []] /\
  (forall w, session (final (connect w (final (destroy a)))) <> None).
Proof.
  assert (H : forall w, session (final (connect w (final (destroy a)))) <> None).
  { intros w.
    assert (Hs : session (final (destroy a)) = None)
      by (destruct a as [k cfg ra ses st cv er hi mc ac dom tm];
          by destruct ses, st, cv, tm).
    rewrite (connect_run w _ Hs). cbn [final fst snd].
    destruct (connectBegin_run (final (destroy a)))
      as (_ & (Hst & Hse & _) & _).
    destruct (connectAnswer w) as [e |] eqn:Hw.
    - destruct (connectResume_rejected w e _ Hw Hst) as (_ & (_ & -> & _) & _).
      by rewrite Hse.
    - assert (Hheld : session (final (connectBegin (final (destroy a)))) <> None)
        by (by rewrite Hse).
      destruct (connectResume_resolved w _ Hw Hheld) as (_ & (_ & -> & _) & _).
      exact Hheld. }
  destruct a as [k cfg ra ses st cv er hi mc ac dom tm].
  destruct ses, st, cv, tm; (repeat split; try reflexivity); exact H.
Qed.

(** X6. [toggle()] on an instance that is idle or in error and holds no
    session connects it; a second [toggle()] then disconnects it, closing
    the session.  While a connection is being made [toggle()] does
    nothing, and so it does on an instance marked [connected] that holds
    no session. *)
Theorem toggle_round_trip (w : ConnectWorld) (a : Aven) :
  session a = None ->
  _status a = status_idle \/ _status a = status_error ->
  connectAnswer w = None ->
  isConnected (final (toggle w a)) = true /\
  (forall w',
     _status (final (toggle w' (final (toggle w a)))) = status_idle /\
     session (final (toggle w' (final (toggle w a)))) = None /\
     sessionCalls (trace (toggle w' (final (toggle w a)))) = [Close]) /\
  (forall w', toggle w' (final (connectBegin a)) =
              (Normal tt, final (connectBegin a), [])) /\
  (forall w' b, _status b = status_connected -> session b = None ->
                toggle w' b = (Normal tt, b, [])).
Proof.
  intros Hs Hst Hw.
  destruct (connectBegin_run a) as (_ & (Hst1 & Hse1 & _) & _).
  assert (Hheld : session (final (connectBegin a)) <> None) by (by rewrite Hse1).
  destruct (connectResume_resolved w _ Hw Hheld) as (_ & (Hst2 & Hse2 & _) & _).
  assert (Hc : isConnected (final (toggle w a)) = true).
  { rewrite (toggle_connects w a Hst), (connect_run w a Hs).
    cbn [final fst snd]. unfold isConnected. rewrite Hst2, Hse2.
    rewrite bool_decide_eq_true_2 by done.
    by rewrite bool_decide_eq_true_2 by done. }
  split; [exact Hc |]. split; [| split].
  - intros w'. rewrite (toggle_disconnects w' _ Hc).
    destruct (disconnect_run (final (toggle w a)))
      as (_ & (-> & -> & _) & _ & -> & _).
    split; [done |]. split; [done |].
    unfold isConnected in Hc. apply andb_prop in Hc as [_ Hc]. by rewrite Hc.
  - intros w'. apply toggle_waits. by left.
  - intros w' b Hb1 Hb2. apply toggle_waits. by right.
Qed.

Lemma toggle_round_trip_witness :
  isConnected (final (toggle Sample.resolves
                        (Sample.fresh AtticusClass Sample.uiConfig))) = true.
Proof.
  exact (proj1 (toggle_round_trip Sample.resolves
                  (Sample.fresh AtticusClass Sample.uiConfig)
                  eq_refl (or_introl eq_refl) eq_refl)).
Defined.

(** X7. [sendMessage] and [interrupt] look only at the session handle,
    not at the status: after a refused connection the instance is not
    connected, yet both are forwarded to the refused session, which
    [connect()] left in place; after [disconnect()] nothing is
    forwarded.  Neither changes the instance or publishes anything. *)
Theorem messages_reach_a_refused_session
    (w : ConnectWorld) (e : JSThrown) (m : string) (a : Aven) :
  session a = None ->
  connectAnswer w = Some e ->
  isConnected (final (connect w a)) = false /\
  sendMessage m (final (connect w a)) =
    (Normal tt, final (connect w a), [OnSession (SendMessage m)]) /\
  interrupt (final (connect w a)) =
    (Normal tt, final (connect w a), [OnSession Interrupt]) /\
  sendMessage m (final (disconnect (final (connect w a)))) =
    (Normal tt, final (disconnect (final (connect w a))), []) /\
  interrupt (final (disconnect (final (connect w a)))) =
    (Normal tt, final (disconnect (final (connect w a))), []).
Proof.
  intros Hs Hw. rewrite (connect_run w a Hs). cbn [final fst snd].
  destruct (connectBegin_run a) as (_ & (Hst1 & Hse1 & _) & _).
  destruct (connectResume_rejected w e _ Hw Hst1) as (_ & (Hst2 & Hse2 & _) & _).
  rewrite Hse1 in Hse2.
  destruct (disconnect_run (final (connectResume w (final (connectBegin a)))))
    as (_ & (_ & Hse3 & _) & _).
  split; [unfold isConnected; by rewrite Hst2 |].
  assert (Hheld : session (final (connectResume w (final (connectBegin a))))
                  <> None) by (by rewrite Hse2).
  destruct (forwarded_held m _ Hheld) as [-> ->].
  destruct (forwarded_unheld m _ Hse3) as [-> ->].
  done.
Qed.

Lemma messages_reach_a_refused_session_witness :
  sendMessage "hi"
    (final (connect Sample.rejects (Sample.fresh AvenClass Sample.fullConfig))) =
  (Normal tt,
   final (connect Sample.rejects (Sample.fresh AvenClass Sample.fullConfig)),
   [OnSession (SendMessage "hi")]).
Proof.
  destruct (messages_reach_a_refused_session Sample.rejects
              (ErrorObject "Error" "network down") "hi"
              (Sample.fresh AvenClass Sample.fullConfig) eq_refl eq_refl)
    as (_ & H & _).
  exact H.
Defined.

(* ---------------------------------------------------------------------- *)
(** ** More on transcript reconciliation *)
(* ---------------------------------------------------------------------- *)

Lemma with_messageIdCounter_same s :
  with_messageIdCounter (_messageIdCounter s) s = s.
Proof. by destruct s. Qed.

Lemma with_messageIdCounter_twice n m s :
  with_messageIdCounter n (with_messageIdCounter m s) = with_messageIdCounter n s.
Proof. reflexivity. Qed.

(** One turn of the loop, in closed form. *)
Lemma convertItem_frame now item s :
  convertItem now item s =
  if convertible item then
    (Normal (Some {| id := if needsId item
                           then "msg_" +:+ pretty (S (_messageIdCounter s))
                           else itemId item;
                     msg_role := role item;
                     msg_content :=
                       default (text_content "") (firstContent item ≫= classify);
                     raw := item; timestamp := now |}),
     if needsId item then with_messageIdCounter (S (_messageIdCounter s)) s
     else s, [])
  else (Normal None, s, []).
Proof.
  unfold convertItem, convertible, needsId, convertible, isMessage, messageId.
  destruct (String.eqb (type item) "message"); cbn [andb]; [| reflexivity].
  destruct (firstContent item) as [c |]; [| reflexivity]. cbn [mbind option_bind].
  destruct (classify c) as [mc |] eqn:Hc.
  - rewrite bool_decide_eq_true_2 by eauto. cbn [andb default].
    destruct (truthy (Some (itemId item))); reflexivity.
  - rewrite bool_decide_eq_false_2 by (by intros [? ?]). reflexivity.
Qed.

Lemma minted_weaken now lo lo' hi hi' m :
  lo' <= lo -> hi <= hi' -> minted now lo hi m -> minted now lo' hi' m.
Proof.
  intros H1 H2 (Ht & Hr & Hi). split; [done |]. split; [done |].
  destruct (needsId (raw m)); [| done].
  destruct Hi as (n & Hn & Hid). exists n. split; [lia | done].
Qed.

Lemma convertAll_frame now items s :
  exists msgs,
    convertAll now items s =
      (Normal msgs,
       with_messageIdCounter
         (_messageIdCounter s
          + length (filter (fun i => needsId i = true) items)) s, []) /\
    raw <$> msgs = filter (fun i => convertible i = true) items /\
    Forall (minted now (_messageIdCounter s)
              (_messageIdCounter s
               + length (filter (fun i => needsId i = true) items))) msgs.
Proof.
  revert s. induction items as [| item rest IH]; intros s.
  - exists []. cbn [filter list_filter length]. rewrite Nat.add_0_r.
    rewrite with_messageIdCounter_same. by repeat split.
  - cbn [convertAll]. munfold. rewrite convertItem_frame.
    destruct (convertible item) eqn:Hc.
    + destruct (needsId item) eqn:Hn.
      * destruct (IH (with_messageIdCounter (S (_messageIdCounter s)) s))
          as (ms & Hrun & Hraw & Hall).
        rewrite Hrun. eexists. split; [| split].
        -- rewrite filter_cons_True by done. cbn [length].
           rewrite with_messageIdCounter_twice. cbn [_messageIdCounter
             with_messageIdCounter]. by rewrite Nat.add_succ_r.
        -- rewrite filter_cons_True by done. cbn. by rewrite Hraw.
        -- rewrite filter_cons_True by done. cbn [length].
           apply Forall_cons. split.
           ++ split; [done |]. split; [done |]. cbn [raw]. rewrite Hn.
              exists (S (_messageIdCounter s)). split; [lia | done].
           ++ eapply Forall_impl; [exact Hall |]. intros m.
              apply minted_weaken; destruct s; cbn; lia.
      * destruct (IH s) as (ms & Hrun & Hraw & Hall).
        rewrite Hrun. eexists. split; [| split].
        -- rewrite filter_cons_False by (rewrite Hn; done). reflexivity.
        -- rewrite filter_cons_True by done. cbn. by rewrite Hraw.
        -- rewrite filter_cons_False by (rewrite Hn; done).
           apply Forall_cons. split; [| done].
           split; [done |]. split; [done |]. cbn [raw]. by rewrite Hn.
    + assert (Hn : needsId item = false) by (unfold needsId; by rewrite Hc).
      destruct (IH s) as (ms & Hrun & Hraw & Hall).
      rewrite Hrun. exists ms. split; [| split].
      * rewrite filter_cons_False by (rewrite Hn; done). reflexivity.
      * rewrite filter_cons_False by (rewrite Hc; done). done.
      * by rewrite filter_cons_False by (rewrite Hn; done).
Qed.

(** One update, in closed form: only the history and the message counter
    change, and every effect is a publication. *)
Lemma handleHistoryUpdate_frame now rawHistory s :
  exists msgs,
    handleHistoryUpdate now rawHistory s =
      (Normal tt,
       with_history msgs
         (with_messageIdCounter
            (_messageIdCounter s
             + length (filter (fun i => needsId i = true) rawHistory)) s),
       Published <$>
         ((message <$> drop (length (_history s)) msgs)
          ++ [historyChange msgs;
              stateChange
                (getState
                   (with_history msgs
                      (with_messageIdCounter
                         (_messageIdCounter s
                          + length (filter (fun i => needsId i = true)
                                      rawHistory)) s)))])) /\
    raw <$> msgs = filter (fun i => convertible i = true) rawHistory /\
    Forall (minted now (_messageIdCounter s)
              (_messageIdCounter s
               + length (filter (fun i => needsId i = true) rawHistory))) msgs.
Proof.
  destruct (convertAll_frame now rawHistory s) as (msgs & Hrun & Hraw & Hall).
  exists msgs. split; [| done].
  unfold handleHistoryUpdate. munfold. rewrite Hrun.
  cbn [_history with_messageIdCounter].
  destruct (Nat.ltb_spec (length (_history s)) (length msgs)) as [Hlt | Hge].
  - match goal with
    | |- context [for_of ?l ?f ?x] =>
        pose proof (emit_each_message l x) as He
    end.
    unfold emit, tell in He. rewrite He. cbn [app].
    rewrite fmap_app, <- list_fmap_compose. reflexivity.
  - rewrite drop_ge by done. reflexivity.
Qed.

Lemma published_Published evs : published (Published <$> evs) = evs.
Proof. induction evs as [| e evs IH]; [done |]. cbn. by f_equal. Qed.

Lemma sessionCalls_Published evs : sessionCalls (Published <$> evs) = [].
Proof. by induction evs. Qed.

Lemma evaluations_Published evs : evaluations (Published <$> evs) = [].
Proof. by induction evs. Qed.

Lemma compressions_Published evs : compressions (Published <$> evs) = [].
Proof. by induction evs. Qed.

(** X8. An update whose rebuilt list is not longer than the history held
    publishes no [message] event, whatever the list contains: the history
    is replaced and only [historyChange] and [stateChange] go out. *)
Theorem update_without_growth_publishes_no_message
    (now : nat) (rawHistory : list RealtimeItem) (s : Aven) :
  length (filter (fun i => convertible i = true) rawHistory)
    <= length (_history s) ->
  raw <$> _history (final (handleHistoryUpdate now rawHistory s)) =
    filter (fun i => convertible i = true) rawHistory /\
  published (trace (handleHistoryUpdate now rawHistory s)) =
    [historyChange (_history (final (handleHistoryUpdate now rawHistory s)));
     stateChange (getState (final (handleHistoryUpdate now rawHistory s)))].
Proof.
  intros Hle.
  destruct (handleHistoryUpdate_frame now rawHistory s) as (msgs & -> & Hraw & _).
  cbn [final trace fst snd _history with_history]. split; [done |].
  rewrite published_Published, drop_ge; [done |].
  by rewrite <- (length_fmap raw msgs), Hraw.
Qed.

Lemma update_without_growth_publishes_no_message_witness :
  _history (final (handleHistoryUpdate 1 [Sample.textItem "b" "bye"]
                     (final (handleHistoryUpdate 0 [Sample.textItem "a" "hi"]
                               (Sample.fresh AvenClass Sample.fullConfig)))))
  <> _history (final (handleHistoryUpdate 0 [Sample.textItem "a" "hi"]
                        (Sample.fresh AvenClass Sample.fullConfig))) /\
  length (published
            (trace (handleHistoryUpdate 1 [Sample.textItem "b" "bye"]
                      (final (handleHistoryUpdate 0 [Sample.textItem "a" "hi"]
                                (Sample.fresh AvenClass Sample.fullConfig))))))
  = 2.
Proof.
  split; [vm_compute; discriminate |].
  destruct (update_without_growth_publishes_no_message 1
              [Sample.textItem "b" "bye"]
              (final (handleHistoryUpdate 0 [Sample.textItem "a" "hi"]
                        (Sample.fresh AvenClass Sample.fullConfig))))
    as [_ ->]; [vm_compute; lia | reflexivity].
Defined.

(** X9. [handleHistoryUpdate] touches two fields only, the history and
    the message counter; it never fails and everything it does outside is
    publishing.  The counter advances by the number of messages that came
    without a backend id; every message of the rebuilt history carries
    the clock reading of this update, earlier messages included, and a
    non-empty id. *)
Theorem history_update_frame
    (now : nat) (rawHistory : list RealtimeItem) (s : Aven) :
  completion (handleHistoryUpdate now rawHistory s) = Normal tt /\
  with_history (_history s)
    (with_messageIdCounter (_messageIdCounter s)
       (final (handleHistoryUpdate now rawHistory s))) = s /\
  _messageIdCounter (final (handleHistoryUpdate now rawHistory s)) =
    _messageIdCounter s
    + length (filter (fun i => needsId i = true) rawHistory) /\
  sessionCalls (trace (handleHistoryUpdate now rawHistory s)) = [] /\
  evaluations (trace (handleHistoryUpdate now rawHistory s)) = [] /\
  compressions (trace (handleHistoryUpdate now rawHistory s)) = [] /\
  Forall (fun m => timestamp m = now /\ id m <> "")
    (_history (final (handleHistoryUpdate now rawHistory s))).
Proof.
  destruct (handleHistoryUpdate_frame now rawHistory s)
    as (msgs & -> & Hraw & Hall).
  cbn [completion final trace fst snd _history _messageIdCounter with_history
       with_messageIdCounter].
  split; [done |]. split; [by destruct s |]. split; [done |].
  rewrite sessionCalls_Published, evaluations_Published, compressions_Published.
  do 3 (split; [done |]).
  apply Forall_forall. intros m Hm.
  rewrite Forall_forall in Hall. destruct (Hall m Hm) as (Ht & _ & Hid).
  split; [done |].
  assert (Hc : convertible (raw m) = true).
  { assert (Hin : raw m ∈ raw <$> msgs) by (by apply list_elem_of_fmap_2).
    rewrite Hraw in Hin. by apply list_elem_of_filter in Hin as [? _]. }
  unfold needsId in Hid. rewrite Hc in Hid. cbn [andb] in Hid.
  destruct (truthy (Some (itemId (raw m)))) eqn:Htr; cbn [negb] in Hid.
  - rewrite Hid. unfold truthy in Htr.
    by destruct (String.eqb_spec (itemId (raw m)) "").
  - by destruct Hid as (n & _ & ->).
Qed.

(** X10. Ids made up for messages without a backend id are not stable:
    such a message in the history after one update and such a message in
    the history after the next never share an id, even when they stand
    for the same raw item. *)
Theorem synthesized_ids_are_not_stable
    (now1 now2 : nat) (raw1 raw2 : list RealtimeItem) (s : Aven)
    (m1 m2 : Message) :
  m1 ∈ _history (final (handleHistoryUpdate now1 raw1 s)) ->
  m2 ∈ _history (final (handleHistoryUpdate now2 raw2
                          (final (handleHistoryUpdate now1 raw1 s)))) ->
  needsId (raw m1) = true ->
  needsId (raw m2) = true ->
  id m1 <> id m2.
Proof.
  destruct (handleHistoryUpdate_frame now1 raw1 s) as (ms1 & -> & _ & Hall1).
  cbn [final fst snd].
  destruct (handleHistoryUpdate_frame now2 raw2
              (with_history ms1
                 (with_messageIdCounter
                    (_messageIdCounter s
                     + length (filter (fun i => needsId i = true) raw1)) s)))
    as (ms2 & -> & _ & Hall2).
  cbn [final fst snd _history _messageIdCounter with_history
       with_messageIdCounter] in *.
  intros H1 H2 Hn1 Hn2.
  rewrite Forall_forall in Hall1, Hall2.
  destruct (Hall1 m1 H1) as (_ & _ & Hi1).
  destruct (Hall2 m2 H2) as (_ & _ & Hi2).
  rewrite Hn1 in Hi1. rewrite Hn2 in Hi2.
  destruct Hi1 as (n1 & Hb1 & ->). destruct Hi2 as (n2 & Hb2 & ->).
  intros Heq. apply (inj (String.append "msg_")) in Heq.
  apply (inj pretty) in Heq. lia.
Qed.

Lemma synthesized_ids_are_not_stable_witness :
  id <$> _history (final (handleHistoryUpdate 0 [Sample2.audioItem "" None]
                            (Sample.fresh AvenClass Sample.fullConfig)))
  <> id <$> _history
       (final (handleHistoryUpdate 0 [Sample2.audioItem "" None]
                 (final (handleHistoryUpdate 0 [Sample2.audioItem "" None]
                           (Sample.fresh AvenClass Sample.fullConfig))))).
Proof.
  intros H.
  refine (synthesized_ids_are_not_stable 0 0
            [Sample2.audioItem "" None] [Sample2.audioItem "" None]
            (Sample.fresh AvenClass Sample.fullConfig)
            {| id := "msg_1"; msg_role := "assistant";
               msg_content := audio_content None;
               raw := Sample2.audioItem "" None; timestamp := 0 |}
            {| id := "msg_2"; msg_role := "assistant";
               msg_content := audio_content None;
               raw := Sample2.audioItem "" None; timestamp := 0 |}
            _ _ eq_refl eq_refl _).
  - vm_compute. apply list_elem_of_here.
  - vm_compute. apply list_elem_of_here.
  - vm_compute in H. discriminate H.
Defined.

(** X11. The text shown for a converted message, in terms of the raw
    item's first content entry: the entry's text for the two text kinds
    (possibly empty), its transcript for the two audio kinds, and
    ["(audio)"] when the transcript is missing or empty, so never the
    empty string for audio. *)
Theorem message_text_of_converted_item
    (now : nat) (item : RealtimeItem) (c : ContentEntry) (s : Aven)
    (m : Message) :
  firstContent item = Some c ->
  completion (convertItem now item s) = Normal (Some m) ->
  getMessageText m =
    (if String.eqb (ctype c) "input_text" || String.eqb (ctype c) "output_text"
     then or_else (text c) ""
     else or_else (transcript c) "(audio)") /\
  (forall tr, msg_content m = audio_content tr -> getMessageText m <> "").
Proof.
  intros Hc. rewrite convertItem_frame.
  destruct (convertible item) eqn:Hconv; [| done].
  cbn [completion fst]. intros [= <-].
  unfold getMessageText. cbn [msg_content]. rewrite Hc.
  cbn [mbind option_bind].
  unfold convertible in Hconv. rewrite Hc in Hconv.
  apply andb_prop in Hconv as [_ Hk]. apply bool_decide_eq_true in Hk.
  destruct Hk as [mc Hk]. rewrite Hk. cbn [default from_option].
  unfold Datatypes.id.
  unfold classify in Hk.
  destruct (String.eqb (ctype c) "input_text" || String.eqb (ctype c) "output_text").
  - injection Hk as <-. split; [done | discriminate].
  - destruct (String.eqb (ctype c) "input_audio"
              || String.eqb (ctype c) "output_audio"); [| discriminate].
    injection Hk as <-.
    assert (G : or_else (or_null (transcript c)) "(audio)"
                = or_else (transcript c) "(audio)").
    { destruct (transcript c) as [t |]; [| done]. cbn.
      destruct (String.eqb_spec t "") as [-> | Hne]; [done |].
      cbn. by destruct (String.eqb_spec t ""). }
    cbn beta iota. split; [exact G |]. intros tr _. rewrite G.
    destruct (transcript c) as [t |]; [| done]. cbn.
    by destruct (String.eqb_spec t "").
Qed.

Lemma message_text_of_converted_item_witness :
  getMessageText
    {| id := "i1"; msg_role := "assistant";
       msg_content := audio_content None;
       raw := Sample2.audioItem "i1" (Some ""); timestamp := 0 |}
  = "(audio)".
Proof.
  exact (proj1 (message_text_of_converted_item 0
                  (Sample2.audioItem "i1" (Some ""))
                  {| ctype := "output_audio"; text := None;
                     transcript := Some "" |}
                  (Sample.fresh AvenClass Sample.fullConfig) _
                  eq_refl eq_refl)).
Defined.

(* ---------------------------------------------------------------------- *)
(** ** Session events *)
(* ---------------------------------------------------------------------- *)

(** What a handler attached to the session can change, and do. *)
Lemma sessionEvent_run ev a :
  exists cv er hi mc t,
    sessionEvent ev a =
      (Normal tt,
       with_conversationState cv
         (with_error er (with_history hi (with_messageIdCounter mc a))),
       t) /\
    t = Published <$> published t /\
    _messageIdCounter a <= mc /\
    ((forall now rawHistory, ev <> history_updated now rawHistory) ->
     hi = _history a /\ mc = _messageIdCounter a).
Proof.
  destruct ev as [now rawHistory | e | | | | |].
  - rewrite sessionEvent_history_updated.
    destruct (handleHistoryUpdate_frame now rawHistory a) as (msgs & -> & _).
    eexists (_conversationState a), (_error a), msgs,
      (_messageIdCounter a
       + length (filter (fun i => needsId i = true) rawHistory)), _.
    split; [by destruct a |]. split; [by rewrite published_Published |].
    split; [lia |]. intros H. by destruct (H now rawHistory).
  - exists (_conversationState a), (Some (errorText e)), (_history a),
      (_messageIdCounter a), [Published (error (errorText e))].
    split; [by destruct a, e |]. split; [done |]. split; [lia | done].
  - destruct a as [k cfg ra ses st cv er hi mc ac dom tm].
    destruct k, cv; eexists _, er, hi, mc, _;
      (split; [reflexivity | split; [done | split; [cbn; lia | done]]]).
  - destruct a as [k cfg ra ses st cv er hi mc ac dom tm].
    destruct k, cv; eexists _, er, hi, mc, _;
      (split; [reflexivity | split; [done | split; [cbn; lia | done]]]).
  - destruct a as [k cfg ra ses st cv er hi mc ac dom tm].
    destruct k, cv; eexists _, er, hi, mc, _;
      (split; [reflexivity | split; [done | split; [cbn; lia | done]]]).
  - destruct a as [k cfg ra ses st cv er hi mc ac dom tm].
    destruct k, cv; eexists _, er, hi, mc, _;
      (split; [reflexivity | split; [done | split; [cbn; lia | done]]]).
  - destruct a as [k cfg ra ses st cv er hi mc ac dom tm].
    destruct cv; eexists _, er, hi, mc, _;
      (split; [reflexivity | split; [done | split; [cbn; lia | done]]]).
Qed.

Lemma only_publications t :
  t = Published <$> published t ->
  sessionCalls t = [] /\ evaluations t = [] /\ compressions t = [].
Proof.
  intros ->.
  by rewrite sessionCalls_Published, evaluations_Published,
    compressions_Published.
Qed.

(** X12. A handler attached to the session changes at most the
    conversation state, the stored error, the history and the message
    counter.  In particular no session event changes the status or the
    session handle: an [error] event from the session is recorded and
    published, and the instance stays as connected as it was.  The
    handlers never fail, and all they do outside is publishing: they make
    no call on the session, evaluate nothing and capture nothing. *)
Theorem session_events_frame (ev : SessionEvent) (a : Aven) :
  completion (sessionEvent ev a) = Normal tt /\
  (exists cv er hi mc,
     final (sessionEvent ev a) =
     with_conversationState cv
       (with_error er (with_history hi (with_messageIdCounter mc a)))) /\
  _status (final (sessionEvent ev a)) = _status a /\
  isConnected (final (sessionEvent ev a)) = isConnected a /\
  (forall e, ev = session_error e ->
     _error (final (sessionEvent ev a)) = Some (errorText e) /\
     trace (sessionEvent ev a) = [Published (error (errorText e))]) /\
  sessionCalls (trace (sessionEvent ev a)) = [] /\
  evaluations (trace (sessionEvent ev a)) = [] /\
  compressions (trace (sessionEvent ev a)) = [].
Proof.
  destruct (sessionEvent_run ev a) as (cv & er & hi & mc & t & Hrun & Ht & _).
  split; [by rewrite Hrun |]. split; [rewrite Hrun; by eexists _, _, _, _ |].
  split; [by rewrite Hrun |]. split; [by rewrite Hrun |].
  split; [| rewrite Hrun; by apply only_publications].
  intros e ->. by destruct a, e.
Qed.

(* ---------------------------------------------------------------------- *)
(** ** Surface snapshots *)
(* ---------------------------------------------------------------------- *)

Lemma refreshDOM_captures innerHTML snapshot a root :
  ui_enabled (config a) = true ->
  ui_rootElement (config a) = Some root ->
  refreshDOM innerHTML snapshot a =
  (Normal tt, with_currentDOM (Some (captured innerHTML snapshot)) a,
   [Compress (compressorCall a).1.1 (compressorCall a).1.2 (compressorCall a).2]).
Proof.
  intros H1 H2. unfold refreshDOM, updateDOM, captureDOM. munfold.
  rewrite H1, H2. by destruct snapshot.
Qed.

Lemma refreshDOM_skips innerHTML snapshot a :
  ui_enabled (config a) = false \/ ui_rootElement (config a) = None ->
  refreshDOM innerHTML snapshot a = (Normal tt, a, []).
Proof.
  unfold refreshDOM. munfold.
  intros [-> | ->]; [done |]. by destruct (ui_enabled (config a)).
Qed.

Lemma stopAutoUpdate_disarms a :
  _autoUpdateTimer (final (stopAutoUpdate a)) = false.
Proof.
  destruct a as [k cfg ra ses st cv er hi mc ac dom tm]. by destruct tm.
Qed.

(** X13. [refreshDOM()] does nothing unless UI mode is on and a root
    element is configured.  When it goes ahead it calls the compressor
    once, with the configured token budget, five iterations and the
    id-assignment option of the class ([Atticus] always asks for ids),
    and caches what the compressor answers, or the element's raw markup
    when the compressor fails; it never fails itself, publishes nothing
    and makes no call on the session. *)
Theorem refreshDOM_snapshot (innerHTML : string) (snapshot : option string)
    (a : Aven) :
  completion (refreshDOM innerHTML snapshot a) = Normal tt /\
  published (trace (refreshDOM innerHTML snapshot a)) = [] /\
  sessionCalls (trace (refreshDOM innerHTML snapshot a)) = [] /\
  (ui_enabled (config a) = false \/ ui_rootElement (config a) = None ->
   refreshDOM innerHTML snapshot a = (Normal tt, a, [])) /\
  (ui_enabled (config a) = true -> ui_rootElement (config a) <> None ->
   final (refreshDOM innerHTML snapshot a) =
     with_currentDOM
       (Some (match snapshot with Some snap => snap | None => innerHTML end)) a /\
   compressions (trace (refreshDOM innerHTML snapshot a)) =
     [(ui_maxTokens (config a), 5,
       match class_of a with
       | AvenClass => ui_assignUniqueIDs (config a)
       | AtticusClass => Some true
       end)]).
Proof.
  destruct (ui_enabled (config a)) eqn:H1;
    [destruct (ui_rootElement (config a)) as [root |] eqn:H2 |].
  - rewrite (refreshDOM_captures innerHTML snapshot a root H1 H2).
    repeat split; try done; try (by intros [? | ?]); by destruct snapshot.
  - rewrite (refreshDOM_skips innerHTML snapshot a) by (by right).
    repeat split; done.
  - rewrite (refreshDOM_skips innerHTML snapshot a) by (by left).
    repeat split; done.
Qed.

(** X14. [updateDOM] does not look at the UI switch: with UI mode off it
    still caches the text it is given, and still runs the compressor on
    an element.  What it caches is then never used: the greeting does not
    include it, and [refreshDOM()] keeps doing nothing. *)
Theorem updateDOM_ignores_ui_switch (dom : DOMSource) (a : Aven) :
  ui_enabled (config a) = false ->
  _currentDOM (final (updateDOM dom a)) =
    Some (match dom with
          | Literal html => html
          | Live _ innerHTML snapshot => captured innerHTML snapshot
          end) /\
  length (compressions (trace (updateDOM dom a))) =
    (match dom with Literal _ => 0 | Live _ _ _ => 1 end) /\
  greetingText (final (updateDOM dom a)) = greetingText a /\
  (forall innerHTML snapshot,
     refreshDOM innerHTML snapshot (final (updateDOM dom a)) =
     (Normal tt, final (updateDOM dom a), [])).
Proof.
  intros H.
  assert (Hc : config (final (updateDOM dom a)) = config a)
    by (by destruct dom as [html | e h [snap |]]).
  split; [by destruct dom as [html | e h [snap |]] |].
  split; [by destruct dom as [html | e h [snap |]] |].
  split.
  - unfold greetingText. rewrite Hc, H. reflexivity.
  - intros h snap. apply refreshDOM_skips. left. by rewrite Hc.
Qed.

Lemma updateDOM_ignores_ui_switch_witness :
  _currentDOM
    (final (updateDOM (Live 0 "<p>hi</p>" None)
              (Sample.fresh AvenClass Sample.fullConfig)))
  = Some "<p>hi</p>".
Proof.
  exact (proj1 (updateDOM_ignores_ui_switch (Live 0 "<p>hi</p>" None)
                  (Sample.fresh AvenClass Sample.fullConfig) eq_refl)).
Defined.

(** X15. [disconnect()] leaves the auto-update timer armed: when
    [connect()] armed it, each tick after [disconnect()] still captures
    the page and runs the compressor.  Only [stopAutoUpdate()] and
    [destroy()] disarm it. *)
Theorem timer_survives_disconnect (w : ConnectWorld) (a : Aven) :
  session a = None ->
  connectAnswer w = None ->
  ui_enabled (config a) = true ->
  ui_autoUpdate (config a) = true ->
  ui_rootElement (config a) <> None ->
  _autoUpdateTimer (final (disconnect (final (connect w a)))) = true /\
  (forall innerHTML snapshot,
     _currentDOM
       (final (refreshDOM innerHTML snapshot
                 (final (disconnect (final (connect w a))))))
       = Some (captured innerHTML snapshot) /\
     length (compressions
               (trace (refreshDOM innerHTML snapshot
                         (final (disconnect (final (connect w a)))))))
       = 1) /\
  _autoUpdateTimer
    (final (stopAutoUpdate (final (disconnect (final (connect w a))))))
    = false.
Proof.
  intros Hs Hw Hue Hua Hur. rewrite (connect_run w a Hs). cbn [final fst snd].
  destruct (connectBegin_run a) as (_ & (_ & Hse1 & _) & (Hcf1 & _) & _).
  assert (Hheld : session (final (connectBegin a)) <> None) by (by rewrite Hse1).
  destruct (connectResume_resolved w _ Hw Hheld)
    as (_ & _ & (Hcf2 & _ & _ & Htm2 & _) & _).
  destruct (disconnect_run (final (connectResume w (final (connectBegin a)))))
    as (_ & _ & (Hcf3 & _ & _ & Htm3 & _) & _).
  rewrite Hcf1 in Hcf2, Htm2. rewrite Hue, Hua, orb_true_r in Htm2.
  rewrite Hcf2 in Hcf3. rewrite Htm2 in Htm3.
  split; [exact Htm3 |]. split.
  - intros h snap. destruct (ui_rootElement (config a)) as [root |] eqn:Hr;
      [| done].
    rewrite (refreshDOM_captures h snap _ root) by (by rewrite Hcf3).
    done.
  - apply stopAutoUpdate_disarms.
Qed.

Lemma timer_survives_disconnect_witness :
  _autoUpdateTimer
    (final (disconnect
              (final (connect Sample.resolves
                        (Sample.fresh AvenClass Sample2.autoConfig)))))
  = true.
Proof.
  refine (proj1 (timer_survives_disconnect Sample.resolves
                   (Sample.fresh AvenClass Sample2.autoConfig)
                   eq_refl eq_refl eq_refl eq_refl _)).
  discriminate.
Defined.

(* ---------------------------------------------------------------------- *)
(** ** More on UI actions *)
(* ---------------------------------------------------------------------- *)

Lemma truthy_Some code : code <> "" -> truthy (Some code) = true.
Proof. intros H. unfold truthy. by destruct (String.eqb_spec code ""). Qed.

(** [executeAction], by what evaluating the code does. *)
Lemma executeAction_run run act a :
  executeAction run act a =
  if truthy (outputCode act) then
    (Normal match run (default "" (outputCode act)) with
            | Returns v =>
                {| success := true; res_result := Some v; res_error := None |}
            | Throws e =>
                {| success := false; res_result := None;
                   res_error := Some (messageOr e "Unknown error") |}
            end,
     a, [Evaluated (default "" (outputCode act))])
  else
    (Normal {| success := true; res_result := Some JSNull; res_error := None |},
     a, []).
Proof.
  unfold executeAction. destruct (truthy (outputCode act)); [| reflexivity].
  cbn [negb]. munfold. by destruct (run _).
Qed.

(** X16. [executeAction] never touches the instance and never consults
    [doNotExecuteActions]: called directly, it evaluates the action's
    code, once, whenever there is some, and evaluates nothing otherwise.
    When the code hands back a value the result reports success with that
    value.  It publishes nothing, makes no call on the session and
    captures nothing. *)
Theorem executeAction_frame
    (run : string -> ExecOutcome) (act : UIAction) (a : Aven) :
  final (executeAction run act a) = a /\
  evaluations (trace (executeAction run act a)) =
    (if truthy (outputCode act) then [default "" (outputCode act)] else []) /\
  published (trace (executeAction run act a)) = [] /\
  sessionCalls (trace (executeAction run act a)) = [] /\
  compressions (trace (executeAction run act a)) = [] /\
  (forall code v,
     outputCode act = Some code -> code <> "" -> run code = Returns v ->
     completion (executeAction run act a) =
     Normal {| success := true; res_result := Some v; res_error := None |}).
Proof.
  rewrite executeAction_run.
  destruct (truthy (outputCode act)) eqn:Ht; repeat split; try reflexivity.
  - intros code v Hc Hne Hr. rewrite Hc. cbn. by rewrite Hr.
  - intros code v Hc Hne Hr. rewrite Hc, (truthy_Some code Hne) in Ht. done.
Qed.

(** The action both tools build and publish. *)
Lemma newAction_run now params a :
  newAction now params a =
  (Normal {| action_id := "action_" +:+ pretty (S (_actionIdCounter a));
             outputText := p_outputText params;
             outputCode := p_outputCode params;
             actionDescription := p_actionDescription params;
             targetElement := p_targetElement params;
             actionType := p_actionType params;
             action_timestamp := now |},
   with_actionIdCounter (S (_actionIdCounter a)) a, []).
Proof. reflexivity. Qed.

(** The tool of [Aven], in closed form. *)
Lemma AvenTool_run now run params a :
  AvenTool.execute now run params a =
  (Normal (p_outputText params),
   with_actionIdCounter (S (_actionIdCounter a)) a,
   Published (action (requested now params a))
   :: (if executes params a
       then [Evaluated (default "" (p_outputCode params))] else [])).
Proof.
  unfold AvenTool.execute, requested, executes. munfold.
  rewrite newAction_run. cbn [outputCode config with_actionIdCounter].
  destruct (cfg_doNotExecuteActions (config a)); cbn [negb andb]; [done |].
  destruct (truthy (p_outputCode params)) eqn:Ht; [| done].
  cbn beta iota. rewrite executeAction_run. cbn [outputCode]. rewrite Ht.
  reflexivity.
Qed.

(** The tool of [Atticus], as a sequence of its steps. *)
Lemma AtticusTool_run now run before after params a :
  AtticusTool.execute now run before after params a =
  if executes params (afterCapture before a) then
    match run (default "" (p_outputCode params)) with
    | Returns v =>
        (Normal (p_outputText params +:+ newline2 +:+
                 "[Action executed successfully. Current UI state:]" +:+
                 newline +:+
                 interpolate
                   (_currentDOM
                      (afterCapture after
                         (with_actionIdCounter (S (_actionIdCounter a))
                            (afterCapture before a))))),
         afterCapture after
           (with_actionIdCounter (S (_actionIdCounter a))
              (afterCapture before a)),
         trace (refreshDOM (AtticusTool.cap_innerHTML before)
                  (AtticusTool.cap_snapshot before) a)
         ++ [Published (action (requested now params a));
             Evaluated (default "" (p_outputCode params))]
         ++ trace (refreshDOM (AtticusTool.cap_innerHTML after)
                     (AtticusTool.cap_snapshot after)
                     (with_actionIdCounter (S (_actionIdCounter a))
                        (afterCapture before a))))
    | Throws e =>
        (Normal (p_outputText params +:+ newline2 +:+ "[Action failed: " +:+
                 messageOr e "Unknown error" +:+ "]"),
         with_actionIdCounter (S (_actionIdCounter a)) (afterCapture before a),
         trace (refreshDOM (AtticusTool.cap_innerHTML before)
                  (AtticusTool.cap_snapshot before) a)
         ++ [Published (action (requested now params a));
             Evaluated (default "" (p_outputCode params))])
    end
  else
    (Normal (p_outputText params),
     with_actionIdCounter (S (_actionIdCounter a)) (afterCapture before a),
     trace (refreshDOM (AtticusTool.cap_innerHTML before)
              (AtticusTool.cap_snapshot before) a)
     ++ [Published (action (requested now params a))]).
Proof.
  unfold AtticusTool.execute, afterCapture, executes, requested.
  assert (R : forall h s b,
             refreshDOM h s b =
             (Normal tt, final (refreshDOM h s b), trace (refreshDOM h s b))).
  { intros h s b.
    destruct (ui_enabled (config b)) eqn:H1;
      [destruct (ui_rootElement (config b)) as [root |] eqn:H2 |].
    - by rewrite (refreshDOM_captures h s b root H1 H2).
    - by rewrite (refreshDOM_skips h s b) by (by right).
    - by rewrite (refreshDOM_skips h s b) by (by left). }
  assert (C : forall h s b, config (final (refreshDOM h s b)) = config b
                            /\ _actionIdCounter (final (refreshDOM h s b))
                               = _actionIdCounter b).
  { intros h s b.
    destruct (ui_enabled (config b)) eqn:H1;
      [destruct (ui_rootElement (config b)) as [root |] eqn:H2 |].
    - by rewrite (refreshDOM_captures h s b root H1 H2).
    - by rewrite (refreshDOM_skips h s b) by (by right).
    - by rewrite (refreshDOM_skips h s b) by (by left). }
  set (B := AtticusTool.cap_innerHTML before).
  set (Bs := AtticusTool.cap_snapshot before).
  set (A := AtticusTool.cap_innerHTML after).
  set (As := AtticusTool.cap_snapshot after).
  destruct (C B Bs a) as [Hcf Hac].
  cbv [mbind M_bind mret M_ret get modify tell throw when emit].
  rewrite (R B Bs a) at 1. rewrite newAction_run.
  cbn [outputCode config with_actionIdCounter]. rewrite Hcf, Hac.
  destruct (cfg_doNotExecuteActions (config a)); cbn [negb andb]; [done |].
  destruct (truthy (p_outputCode params)) eqn:Ht; [| done].
  cbn beta iota. rewrite executeAction_run. cbn [outputCode]. rewrite Ht.
  destruct (run (default "" (p_outputCode params))) as [v | e];
    cbn [success res_error]; [| by rewrite app_nil_r].
  match goal with |- context [refreshDOM A As ?b] => rewrite (R A As b) at 1 end.
  rewrite app_nil_r. reflexivity.
Qed.

(** A capture changes the cached snapshot only, and only calls the
    compressor. *)
Lemma refreshDOM_frame h s b :
  completion (refreshDOM h s b) = Normal tt /\
  (exists d, final (refreshDOM h s b) = with_currentDOM d b) /\
  published (trace (refreshDOM h s b)) = [] /\
  evaluations (trace (refreshDOM h s b)) = [] /\
  sessionCalls (trace (refreshDOM h s b)) = [].
Proof.
  destruct (ui_enabled (config b)) eqn:H1;
    [destruct (ui_rootElement (config b)) as [root |] eqn:H2 |].
  - rewrite (refreshDOM_captures h s b root H1 H2). repeat split; try done.
    by eexists.
  - rewrite (refreshDOM_skips h s b) by (by right). repeat split; try done.
    exists (_currentDOM b). by destruct b.
  - rewrite (refreshDOM_skips h s b) by (by left). repeat split; try done.
    exists (_currentDOM b). by destruct b.
Qed.

Lemma evaluations_app t1 t2 :
  evaluations (t1 ++ t2) = evaluations t1 ++ evaluations t2.
Proof. apply omap_app. Qed.

Lemma compressions_app t1 t2 :
  compressions (t1 ++ t2) = compressions t1 ++ compressions t2.
Proof. apply omap_app. Qed.

(** X17. A call of the action tool, in either class, builds one action
    numbered one past the action counter and publishes it exactly once,
    before any code runs and also when [doNotExecuteActions] is set.  It
    evaluates the code, once, exactly when [doNotExecuteActions] is off
    and the code is non-empty; it makes no call on the session and leaves
    the configuration, the status, the history and the session handle
    alone. *)
Theorem tools_publish_one_action
    (now : nat) (run : string -> ExecOutcome)
    (before after : AtticusTool.Capture) (params : ToolParams) (a : Aven)
    (r : Completion string * Aven * list Effect) :
  r = AvenTool.execute now run params a \/
  r = AtticusTool.execute now run before after params a ->
  published (trace r) = [action (requested now params a)] /\
  _actionIdCounter (final r) = S (_actionIdCounter a) /\
  evaluations (trace r) =
    (if executes params a then [default "" (p_outputCode params)] else []) /\
  (exists t1 t2,
     trace r = t1 ++ Published (action (requested now params a)) :: t2 /\
     evaluations t1 = []) /\
  sessionCalls (trace r) = [] /\
  (exists d, final r =
             with_currentDOM d (with_actionIdCounter (S (_actionIdCounter a)) a)).
Proof.
  intros [-> | ->].
  - rewrite AvenTool_run. cbn [final trace fst snd].
    split; [by destruct (executes params a) |]. split; [done |].
    split; [by destruct (executes params a) |].
    split; [by exists [], (if executes params a
                           then [Evaluated (default "" (p_outputCode params))]
                           else []) |].
    split; [by destruct (executes params a) |].
    exists (_currentDOM a). by destruct a.
  - rewrite AtticusTool_run. unfold afterCapture.
    destruct (refreshDOM_frame (AtticusTool.cap_innerHTML before)
                (AtticusTool.cap_snapshot before) a)
      as (_ & (d1 & Hf1) & Hp1 & He1 & Hs1).
    rewrite Hf1.
    assert (Hx : executes params (with_currentDOM d1 a) = executes params a)
      by done.
    rewrite Hx. destruct (executes params a);
      [destruct (run (default "" (p_outputCode params))) as [v | e] |].
    + destruct (refreshDOM_frame (AtticusTool.cap_innerHTML after)
                  (AtticusTool.cap_snapshot after)
                  (with_actionIdCounter (S (_actionIdCounter a))
                     (with_currentDOM d1 a)))
        as (_ & (d2 & Hf2) & Hp2 & He2 & Hs2).
      cbn [final trace fst snd]. rewrite Hf2.
      rewrite !published_app, !evaluations_app, !sessionCalls_app.
      rewrite Hp1, Hp2, He1, He2, Hs1, Hs2.
      repeat split; try done; [by eexists _, _ | exists d2; by destruct a].
    + cbn [final trace fst snd].
      rewrite !published_app, !evaluations_app, !sessionCalls_app.
      rewrite Hp1, He1, Hs1.
      repeat split; try done; [by eexists _, _ | exists d1; by destruct a].
    + cbn [final trace fst snd].
      rewrite !published_app, !evaluations_app, !sessionCalls_app.
      rewrite Hp1, He1, Hs1.
      repeat split; try done; [by eexists _, _ | exists d1; by destruct a].
Qed.

Lemma tools_publish_one_action_witness :
  published
    (trace (AvenTool.execute 7 Sample.failing Sample.clickParams
              (Sample.fresh AvenClass Sample.uiConfig)))
  = [action (requested 7 Sample.clickParams
               (Sample.fresh AvenClass Sample.uiConfig))].
Proof.
  exact (proj1 (tools_publish_one_action 7 Sample.failing
                  {| AtticusTool.cap_innerHTML := "";
                     AtticusTool.cap_snapshot := None |}
                  {| AtticusTool.cap_innerHTML := "";
                     AtticusTool.cap_snapshot := None |}
                  Sample.clickParams
                  (Sample.fresh AvenClass Sample.uiConfig) _
                  (or_introl eq_refl))).
Defined.

(** X18. In [Atticus], when the code a tool call carries runs and hands
    back a value, the page is captured a second time and the text
    returned to the agent is the explanation followed by that second
    snapshot: with UI mode on and a root element the compressor has run
    twice and the cache holds the capture taken after the action. *)
Theorem atticus_tool_success
    (now : nat) (run : string -> ExecOutcome)
    (before after : AtticusTool.Capture) (params : ToolParams) (a : Aven)
    (code : string) (v : JSValue) :
  cfg_doNotExecuteActions (config a) = false ->
  p_outputCode params = Some code -> code <> "" -> run code = Returns v ->
  ui_enabled (config a) = true ->
  ui_rootElement (config a) <> None ->
  completion (AtticusTool.execute now run before after params a) =
    Normal (p_outputText params +:+ newline2 +:+
            "[Action executed successfully. Current UI state:]" +:+ newline +:+
            captured (AtticusTool.cap_innerHTML after)
              (AtticusTool.cap_snapshot after)) /\
  _currentDOM (final (AtticusTool.execute now run before after params a)) =
    Some (captured (AtticusTool.cap_innerHTML after)
            (AtticusTool.cap_snapshot after)) /\
  length (compressions
            (trace (AtticusTool.execute now run before after params a))) = 2 /\
  evaluations (trace (AtticusTool.execute now run before after params a)) =
    [code].
Proof.
  intros Hdn Hcode Hne Hrun Hue Hur.
  destruct (ui_rootElement (config a)) as [root |] eqn:Hroot; [| done].
  rewrite AtticusTool_run. unfold afterCapture.
  rewrite (refreshDOM_captures _ _ a root Hue Hroot).
  cbn [final fst snd]. unfold executes.
  cbn [config with_currentDOM]. rewrite Hdn, Hcode, (truthy_Some code Hne).
  cbn [negb andb default from_option]. unfold Datatypes.id. rewrite Hrun.
  rewrite (refreshDOM_captures _ _ _ root) by done.
  cbn [completion final trace fst snd _currentDOM with_currentDOM interpolate
       default from_option].
  done.
Qed.

Lemma atticus_tool_success_witness :
  completion
    (AtticusTool.execute 0 Sample2.succeeding
       {| AtticusTool.cap_innerHTML := "<a/>"; AtticusTool.cap_snapshot := None |}
       {| AtticusTool.cap_innerHTML := "<b/>"; AtticusTool.cap_snapshot := None |}
       Sample.clickParams (Sample.fresh AtticusClass Sample.uiConfig))
  = Normal ("Clicking the button" +:+ newline2 +:+
            "[Action executed successfully. Current UI state:]" +:+ newline +:+
            "<b/>").
Proof.
  refine (proj1 (atticus_tool_success 0 Sample2.succeeding
                   {| AtticusTool.cap_innerHTML := "<a/>";
                      AtticusTool.cap_snapshot := None |}
                   {| AtticusTool.cap_innerHTML := "<b/>";
                      AtticusTool.cap_snapshot := None |}
                   Sample.clickParams
                   (Sample.fresh AtticusClass Sample.uiConfig)
                   "document.getElementById('btn').click()" JSUndefined
                   eq_refl eq_refl _ eq_refl eq_refl _)); discriminate.
Defined.

(** X19. [get_ui_state] captures the page before it answers: with UI mode
    on and a root element, the text it returns holds the snapshot just
    taken, which is also the one left in the cache.  Without a root
    element and with nothing cached the text holds the word [null]. *)
Theorem getUIState_reports (c : AtticusTool.Capture) (a : Aven) :
  (ui_enabled (config a) = true -> ui_rootElement (config a) <> None ->
   AtticusTool.getUIState c a =
   (Normal ("[Current UI state:]" +:+ newline +:+ "```html" +:+ newline +:+
            captured (AtticusTool.cap_innerHTML c) (AtticusTool.cap_snapshot c)
            +:+ newline +:+ "```"),
    with_currentDOM
      (Some (captured (AtticusTool.cap_innerHTML c) (AtticusTool.cap_snapshot c)))
      a,
    [Compress (compressorCall a).1.1 (compressorCall a).1.2
       (compressorCall a).2])) /\
  (ui_rootElement (config a) = None -> _currentDOM a = None ->
   AtticusTool.getUIState c a =
   (Normal ("[Current UI state:]" +:+ newline +:+ "```html" +:+ newline +:+
            "null" +:+ newline +:+ "```"), a, [])).
Proof.
  unfold AtticusTool.getUIState. split.
  - intros Hue Hur.
    destruct (ui_rootElement (config a)) as [root |] eqn:Hroot; [| done].
    cbv [mbind M_bind mret M_ret get].
    by rewrite (refreshDOM_captures _ _ a root Hue Hroot).
  - intros Hur Hd. cbv [mbind M_bind mret M_ret get].
    rewrite (refreshDOM_skips _ _ a) by (by right). by rewrite Hd.
Qed.

(* ---------------------------------------------------------------------- *)
(** ** More on construction *)
(* ---------------------------------------------------------------------- *)

Lemma append_assoc (s1 s2 s3 : string) : (s1 +:+ s2) +:+ s3 = s1 +:+ s2 +:+ s3.
Proof.
  induction s1 as [| c s IH]; [reflexivity |].
  change (String c ((s +:+ s2) +:+ s3) = String c (s +:+ s2 +:+ s3)).
  by rewrite IH.
Qed.

Lemma append_empty_r (s : string) : s +:+ "" = s.
Proof.
  induction s as [| c s IH]; [reflexivity |].
  change (String c (s +:+ "") = String c s). by rewrite IH.
Qed.

(** With a persona whose name is blank, construction fails in
    [new RealtimeAgent]. *)
Lemma constructor_refuses_blank_name
    (getUIDirective : Class -> string) (k : Class) (c : AvenConfig)
    (p : AgentConfig) :
  agent c = Some p ->
  isBlank (name p) = true ->
  constructor getUIDirective k c =
  Abrupt (ErrorObject "UserError" "Agent must have a name.").
Proof.
  intros Hp Hname. unfold constructor, buildInstructions, newRealtimeAgent.
  assert (Ha : cfg_agent (mergeConfig k c) = Some p) by exact Hp.
  by rewrite Ha, Hname.
Qed.

(** X20. With an agent persona whose name is not blank (not empty once
    trimmed), the constructor yields an instance in the initial state
    whose realtime agent has the persona's name, the configured voice
    ([alloy] when none is given), no tool when UI mode is off and
    otherwise one tool in [Aven] and two in [Atticus].  The
    language directive is always part of the instructions, also when no
    language is configured: the instructions are the directive, a blank
    line and the persona's instructions, preceded in [Atticus] by the
    gender directive of the voice when it has one, and followed by the UI
    directive exactly when UI mode is on. *)
Theorem constructor_builds_agent
    (getUIDirective : Class -> string) (k : Class) (c : AvenConfig)
    (p : AgentConfig) :
  agent c = Some p ->
  isBlank (name p) = false ->
  exists a pre post,
    constructor getUIDirective k c = Normal a /\
    a = initial k (mergeConfig k c) (realtimeAgent a) /\
    ra_name (realtimeAgent a) = name p /\
    ra_voice (realtimeAgent a) = nullish (voice c) "alloy" /\
    length (ra_tools (realtimeAgent a)) =
      (if ui_enabled (mergeConfig k c)
       then match k with AvenClass => 1 | AtticusClass => 2 end
       else 0) /\
    ra_instructions (realtimeAgent a) =
      pre +:+ getLanguageDirective (mergeConfig k c) +:+ newline2 +:+
      instructions p +:+ post /\
    pre = match k with
          | AvenClass => ""
          | AtticusClass =>
              match getGenderDirective (mergeConfig k c) with
              | Some g => g +:+ newline2
              | None => ""
              end
          end /\
    post = (if ui_enabled (mergeConfig k c)
            then newline2 +:+ getUIDirective k else "").
Proof.
  intros Hp Hname. unfold constructor, buildInstructions, toolsOf,
    newRealtimeAgent.
  assert (Ha : cfg_agent (mergeConfig k c) = Some p) by exact Hp.
  rewrite Ha, Hname.
  assert (Hd : truthy (Some (getLanguageDirective (mergeConfig k c))) = true)
    by reflexivity.
  rewrite Hd.
  eexists _, _, _. split; [reflexivity |].
  split; [reflexivity |]. split; [reflexivity |]. split; [reflexivity |].
  split; [cbn [realtimeAgent initial ra_tools];
          by destruct (ui_enabled (mergeConfig k c)), k |].
  split; [| split; reflexivity].
  cbn [realtimeAgent initial ra_instructions].
  destruct k.
  - destruct (ui_enabled (mergeConfig AvenClass c)).
    + by rewrite !append_assoc.
    + by rewrite append_empty_r.
  - destruct (getGenderDirective (mergeConfig AtticusClass c)) as [g |];
      destruct (ui_enabled (mergeConfig AtticusClass c));
      by rewrite ?append_assoc, ?append_empty_r.
Qed.

Lemma constructor_builds_agent_witness :
  exists a,
    constructor (fun _ => "UI") AtticusClass Sample.uiConfig = Normal a /\
    length (ra_tools (realtimeAgent a)) = 2.
Proof.
  destruct (constructor_builds_agent (fun _ => "UI") AtticusClass
              Sample.uiConfig Sample.persona eq_refl eq_refl)
    as (a & pre & post & H1 & _ & _ & _ & H2 & _).
  exists a. split; [exact H1 | exact H2].
Defined.

(* ---------------------------------------------------------------------- *)
(** ** The language tables *)
(* ---------------------------------------------------------------------- *)

Lemma or_else_nonempty o d : d <> "" -> or_else o d <> "".
Proof.
  intros Hd. destruct o as [s |]; [| done]. cbn.
  by destruct (String.eqb_spec s "").
Qed.

Lemma table_keys :
  dom LANGUAGE_NAMES = dom LANGUAGE_GREETINGS.
Proof. apply (bool_decide_unpack _). vm_compute. exact I. Qed.

(** No language code is a name that [Object.prototype] defines. *)
Lemma inherited_not_own code member :
  inherited code = Some member -> LANGUAGE_NAMES !! code = None.
Proof.
  unfold inherited. intros H.
  destruct (String.eqb_spec code "constructor") as [-> | _]; [reflexivity |].
  destruct (String.eqb_spec code "__proto__") as [-> | _]; [reflexivity |].
  case_bool_decide as Hin; [| discriminate].
  unfold OBJECT_PROTOTYPE_FUNCTIONS in Hin.
  repeat (apply elem_of_cons in Hin as [-> | Hin]; [reflexivity |]).
  by apply elem_of_nil in Hin.
Qed.

Lemma inherited_nonempty code member :
  inherited code = Some member -> member <> "".
Proof.
  unfold inherited. intros H.
  destruct (String.eqb code "constructor"); [by injection H as <- |].
  destruct (String.eqb code "__proto__"); [by injection H as <- |].
  case_bool_decide; [by injection H as <- | discriminate].
Qed.

(** X21. The table of language names and the table of greetings have the
    same codes.  The tables are plain objects: for a code that is in
    neither table and is not a name [Object.prototype] defines, the name
    is the code itself and the greeting is ["Hello!"]; for a name
    [Object.prototype] defines, both lookups give the inherited member
    instead.  The greeting is never the empty string, and the name is
    empty only for the empty code. *)
Theorem language_tables_agree (code : string) :
  (is_Some (LANGUAGE_NAMES !! code) <-> is_Some (LANGUAGE_GREETINGS !! code)) /\
  (LANGUAGE_NAMES !! code = None -> inherited code = None ->
   getLanguageName code = code /\ getLanguageGreeting code = "Hello!") /\
  (forall member, inherited code = Some member ->
   getLanguageName code = member /\ getLanguageGreeting code = member) /\
  getLanguageGreeting code <> "" /\
  (code <> "" -> getLanguageName code <> "").
Proof.
  assert (Hk : is_Some (LANGUAGE_NAMES !! code)
               <-> is_Some (LANGUAGE_GREETINGS !! code))
    by (by rewrite <- !elem_of_dom, table_keys).
  split; [exact Hk |]. split; [| split; [| split]].
  - intros Hn Hi. unfold getLanguageName, getLanguageGreeting, index.
    assert (Hg : LANGUAGE_GREETINGS !! code = None).
    { apply eq_None_not_Some. rewrite <- Hk, Hn. by intros [? ?]. }
    by rewrite Hn, Hg, Hi.
  - intros member Hi.
    assert (Hn : LANGUAGE_NAMES !! code = None) by (by apply (inherited_not_own code member)).
    assert (Hg : LANGUAGE_GREETINGS !! code = None).
    { apply eq_None_not_Some. rewrite <- Hk, Hn. by intros [? ?]. }
    unfold getLanguageName, getLanguageGreeting, index. rewrite Hn, Hg, Hi.
    pose proof (inherited_nonempty code member Hi) as Hne.
    cbn. by destruct (String.eqb_spec member "").
  - by apply or_else_nonempty.
  - intros Hc. by apply or_else_nonempty.
Qed.

(* ---------------------------------------------------------------------- *)
(** ** What holds along every run *)
(* ---------------------------------------------------------------------- *)

Lemma keeps_refl a : keeps a a.
Proof. unfold keeps. repeat split; auto. Qed.

Lemma sparesHistory_refl a : sparesHistory a a.
Proof. unfold sparesHistory. auto. Qed.

Lemma connect_keeps w a :
  keeps a (final (connect w a)) /\ sparesHistory a (final (connect w a)).
Proof.
  destruct (session a) as [x |] eqn:Hs.
  - rewrite connect_guard by (by rewrite Hs).
    split; [apply keeps_refl | apply sparesHistory_refl].
  - rewrite (connect_run w a Hs). cbn [final fst snd].
    destruct (connectBegin_run a)
      as (_ & (Hst1 & Hse1 & _ & _ & Hh1) & (Hcf1 & Hk1 & Hra1 & _ & _ & Hm1 & Ha1) & _).
    assert (Hheld : session (final (connectBegin a)) <> None)
      by (by rewrite Hse1).
    destruct (connectAnswer w) as [e |] eqn:Hw.
    + destruct (connectResume_rejected w e _ Hw Hst1)
        as (_ & (_ & Hse2 & _ & _ & Hh2)
            & (Hcf2 & Hk2 & Hra2 & _ & _ & Hm2 & Ha2) & _).
      unfold keeps, sparesHistory.
      rewrite Hcf2, Hk2, Hra2, Hse2, Hm2, Ha2, Hh2.
      rewrite Hcf1, Hk1, Hra1, Hse1, Hm1, Ha1, Hh1.
      repeat split; auto.
    + destruct (connectResume_resolved w _ Hw Hheld)
        as (_ & (_ & Hse2 & _ & _ & Hh2)
            & (Hcf2 & Hk2 & Hra2 & _ & Hm2 & Ha2) & _).
      unfold keeps, sparesHistory.
      rewrite Hcf2, Hk2, Hra2, Hse2, Hm2, Ha2, Hh2.
      rewrite Hcf1, Hk1, Hra1, Hse1, Hm1, Ha1, Hh1.
      repeat split; auto.
Qed.

Lemma disconnect_keeps a :
  keeps a (final (disconnect a)) /\ sparesHistory a (final (disconnect a)).
Proof.
  destruct (disconnect_run a)
    as (_ & (_ & Hse & _ & _ & Hh) & (Hcf & Hk & Hra & _ & _ & Hm & Ha) & _).
  unfold keeps, sparesHistory. rewrite Hcf, Hk, Hra, Hse, Hm, Ha, Hh.
  repeat split; auto.
Qed.

Lemma with_currentDOM_keeps d a b :
  keeps a b /\ sparesHistory a b ->
  keeps a (with_currentDOM d b) /\ sparesHistory a (with_currentDOM d b).
Proof. done. Qed.

Lemma tool_final now run before after params a r :
  r = AvenTool.execute now run params a \/
  r = AtticusTool.execute now run before after params a ->
  exists d, final r =
            with_currentDOM d (with_actionIdCounter (S (_actionIdCounter a)) a).
Proof.
  intros [-> | ->].
  - rewrite AvenTool_run. exists (_currentDOM a). by destruct a.
  - rewrite AtticusTool_run. unfold afterCapture.
    destruct (refreshDOM_frame (AtticusTool.cap_innerHTML before)
                (AtticusTool.cap_snapshot before) a) as (_ & (d1 & Hf1) & _).
    rewrite Hf1.
    destruct (refreshDOM_frame (AtticusTool.cap_innerHTML after)
                (AtticusTool.cap_snapshot after)
                (with_actionIdCounter (S (_actionIdCounter a))
                   (with_currentDOM d1 a))) as (_ & (d2 & Hf2) & _).
    rewrite Hf2.
    destruct (executes params (with_currentDOM d1 a));
      [destruct (run _) |]; cbn [final fst snd];
      [exists d2 | exists d1 | exists d1]; by destruct a.
Qed.

(** Every operation keeps what [keeps] names; the operations the host
    starts also spare the transcript. *)
Lemma perform_keeps o a :
  keeps a (final (perform o a)) /\
  (isCall o = true -> sparesHistory a (final (perform o a))).
Proof.
  destruct o as [w | | | m | w | | dom | h s | | | run act | c
                 | now run before after params | ev];
    cbn [perform isCall].
  - destruct (connect_keeps w a). auto.
  - destruct (disconnect_keeps a). auto.
  - destruct (session a) as [x |] eqn:Hs.
    + rewrite (proj2 (forwarded_held "" a ltac:(by rewrite Hs))).
      split; [apply keeps_refl | intros _; apply sparesHistory_refl].
    + rewrite (proj2 (forwarded_unheld "" a Hs)).
      split; [apply keeps_refl | intros _; apply sparesHistory_refl].
  - destruct (session a) as [x |] eqn:Hs.
    + rewrite (proj1 (forwarded_held m a ltac:(by rewrite Hs))).
      split; [apply keeps_refl | intros _; apply sparesHistory_refl].
    + rewrite (proj1 (forwarded_unheld m a Hs)).
      split; [apply keeps_refl | intros _; apply sparesHistory_refl].
  - destruct (toggle_cases w a) as [-> | [-> | ->]].
    + destruct (disconnect_keeps a). auto.
    + destruct (connect_keeps w a). auto.
    + split; [apply keeps_refl | intros _; apply sparesHistory_refl].
  - destruct a as [k cfg ra ses st cv er hi mc ac dm tm].
    unfold keeps, sparesHistory.
    destruct ses, st, cv, tm; cbn; repeat split; auto.
  - destruct a as [k cfg ra ses st cv er hi mc ac dm tm].
    unfold keeps, sparesHistory.
    destruct dom as [html | e h [snap |]]; cbn; repeat split; auto.
  - destruct (refreshDOM_frame h s a) as (_ & (d & ->) & _).
    split; [| intros _]; apply (with_currentDOM_keeps d a a);
      (split; [apply keeps_refl | apply sparesHistory_refl]).
  - destruct a as [k cfg ra ses st cv er hi mc ac dm tm].
    unfold keeps, sparesHistory. destruct tm; cbn; repeat split; auto.
  - destruct a as [k cfg ra ses st cv er hi mc ac dm tm].
    unfold keeps, sparesHistory. destruct tm; cbn; repeat split; auto.
  - assert (G : final ((executeAction run act ;; mret tt) a) = a).
    { munfold. rewrite executeAction_run.
      by destruct (truthy (outputCode act)). }
    rewrite G. split; [apply keeps_refl | intros _; apply sparesHistory_refl].
  - cbv [mbind M_bind mret M_ret get]. destruct (class_of a) eqn:Hk.
    + split; [apply keeps_refl | intros _; apply sparesHistory_refl].
    + unfold AtticusTool.getUIState. cbv [mbind M_bind mret M_ret get].
      destruct (refreshDOM_frame (AtticusTool.cap_innerHTML c)
                  (AtticusTool.cap_snapshot c) a) as (Hc & (d & Hf) & _).
      destruct (refreshDOM _ _ a) as [[cc s1] t1]. cbn in Hc, Hf. subst.
      cbn [final fst snd].
      split; [| intros _]; apply (with_currentDOM_keeps d a a);
        (split; [apply keeps_refl | apply sparesHistory_refl]).
  - cbv [mbind M_bind mret M_ret get].
    destruct (ui_enabled (config a));
      [| split; [apply keeps_refl | intros _; apply sparesHistory_refl]].
    destruct (class_of a).
    + destruct (tool_final now run before after params a
                  (AvenTool.execute now run params a) (or_introl eq_refl))
        as (d & Hd).
      destruct (AvenTool.execute now run params a) as [[[x | e] s1] t1];
        cbn in Hd; subst; cbn [final fst snd]; unfold keeps, sparesHistory;
        cbn; repeat split; auto.
    + destruct (tool_final now run before after params a
                  (AtticusTool.execute now run before after params a)
                  (or_intror eq_refl)) as (d & Hd).
      destruct (AtticusTool.execute now run before after params a)
        as [[[x | e] s1] t1];
        cbn in Hd; subst; cbn [final fst snd]; unfold keeps, sparesHistory;
        cbn; repeat split; auto.
  - destruct (sessionEvent_run ev a)
      as (cv & er & hi & mc & t & -> & _ & Hmc & _).
    split; [| done]. unfold keeps. cbn. repeat split; auto.
Qed.

Lemma keeps_trans a b c : keeps a b -> keeps b c -> keeps a c.
Proof.
  unfold keeps, sessionOf.
  intros (H1 & H2 & H3 & H4 & H5 & H6) (G1 & G2 & G3 & G4 & G5 & G6).
  rewrite G1, G2, G3, H1, H2, H3 in *.
  repeat split; try done; try lia.
  destruct G4 as [-> | [-> | ->]]; auto.
Qed.

(** X22. Whatever is done to an instance, by the host, the timer, the
    remote agent or the session, its configuration, its class and its
    realtime agent stay as the constructor made them, and the session it
    holds, when it holds one, is the one built from that configuration,
    with the configured model and the transcription settings of the
    configured language. *)
Theorem instance_identity_is_fixed
    (k : Class) (cfg : EffectiveConfig) (ra : RealtimeAgent) (a : Aven) :
  reachable k cfg ra a ->
  config a = cfg /\ class_of a = k /\ realtimeAgent a = ra /\
  (session a = None \/
   session a = Some {| rs_agent := ra; rs_model := cfg_model cfg;
                       rs_transcription :=
                         transcriptionConfig (cfg_language cfg) |}).
Proof.
  assert (Hstep : forall a b,
             keeps a b ->
             config a = cfg /\ class_of a = k /\ realtimeAgent a = ra /\
             (session a = None \/
              session a = Some {| rs_agent := ra; rs_model := cfg_model cfg;
                                  rs_transcription :=
                                    transcriptionConfig (cfg_language cfg) |}) ->
             config b = cfg /\ class_of b = k /\ realtimeAgent b = ra /\
             (session b = None \/
              session b = Some {| rs_agent := ra; rs_model := cfg_model cfg;
                                  rs_transcription :=
                                    transcriptionConfig (cfg_language cfg) |})).
  { intros a0 b (H1 & H2 & H3 & H4 & _) (G1 & G2 & G3 & G4).
    unfold sessionOf in H4. rewrite G1, G3 in H4.
    split; [congruence |]. split; [congruence |]. split; [congruence |].
    destruct H4 as [-> | [-> | ->]]; auto. }
  induction 1 as [| a o _ IH Ho | a ev _ IH Hlive].
  - cbn. auto.
  - apply (Hstep a); [apply perform_keeps | exact IH].
  - apply (Hstep a); [apply (perform_keeps (op_session ev)) | exact IH].
Qed.

Lemma instance_identity_is_fixed_witness :
  session (final (perform (op_connect Sample.resolves)
                    (initial AvenClass (mergeConfig AvenClass Sample.fullConfig)
                       Sample.theAgent)))
  = None \/
  session (final (perform (op_connect Sample.resolves)
                    (initial AvenClass (mergeConfig AvenClass Sample.fullConfig)
                       Sample.theAgent)))
  = Some {| rs_agent := Sample.theAgent;
            rs_model := cfg_model (mergeConfig AvenClass Sample.fullConfig);
            rs_transcription :=
              transcriptionConfig
                (cfg_language (mergeConfig AvenClass Sample.fullConfig)) |}.
Proof.
  exact (proj2 (proj2 (proj2
    (instance_identity_is_fixed AvenClass
       (mergeConfig AvenClass Sample.fullConfig) Sample.theAgent _
       (reach_call _ _ _ _ (op_connect Sample.resolves)
          (reach_initial _ _ _) eq_refl))))).
Defined.

(** X23. The two id counters never go back: along any sequence of
    operations, [disconnect()] and [destroy()] included, neither the
    message counter nor the action counter decreases; nothing resets
    them. *)
Theorem counters_never_go_back (ops : list Op) (a : Aven) :
  _actionIdCounter a <= _actionIdCounter (after ops a) /\
  _messageIdCounter a <= _messageIdCounter (after ops a).
Proof.
  assert (H : keeps a (after ops a)).
  { revert a. induction ops as [| o rest IH]; intros a; [apply keeps_refl |].
    cbn [after]. eapply keeps_trans; [apply perform_keeps | apply IH]. }
  destruct H as (_ & _ & _ & _ & H1 & H2). done.
Qed.

(** X24. Operations started by the host, the timer or the remote agent's
    tools never add to the transcript and never consume a message id:
    after any sequence of them the history is what it was or empty.  Only
    a [history_updated] event from the session puts messages in. *)
Theorem host_calls_never_add_messages (ops : list Op) (a : Aven) :
  forallb isCall ops = true ->
  _messageIdCounter (after ops a) = _messageIdCounter a /\
  (_history (after ops a) = _history a \/ _history (after ops a) = []).
Proof.
  revert a. induction ops as [| o rest IH]; intros a Hc; [by auto |].
  cbn [forallb] in Hc. apply andb_prop in Hc as [Ho Hrest].
  cbn [after].
  destruct (proj2 (perform_keeps o a) Ho) as [Hm Hh].
  destruct (IH (final (perform o a)) Hrest) as [Hm' Hh'].
  split; [congruence |].
  destruct Hh' as [-> | ->]; auto.
Qed.

Lemma host_calls_never_add_messages_witness :
  _messageIdCounter
    (after [op_refreshDOM "<p/>" None; op_sendMessage "hi"; op_disconnect]
       (final (handleHistoryUpdate 0 [Sample2.audioItem "" None]
                 (Sample.fresh AvenClass Sample.uiConfig))))
  = 1.
Proof.
  exact (proj1 (host_calls_never_add_messages
                  [op_refreshDOM "<p/>" None; op_sendMessage "hi";
                   op_disconnect]
                  (final (handleHistoryUpdate 0 [Sample2.audioItem "" None]
                            (Sample.fresh AvenClass Sample.uiConfig)))
                  eq_refl)).
Defined.

(** X25. As long as the session delivers events only while a connection
    is being made or is up, an instance that is idle or in error reports
    an idle conversation through every accessor: [conversationState] is
    [idle], and [isAiSpeaking] and [isUserSpeaking] are false, also in
    the consolidated state. *)
Theorem accessors_agree_off_line
    (k : Class) (cfg : EffectiveConfig) (ra : RealtimeAgent) (a : Aven) :
  reachable_live k cfg ra a ->
  _status a = status_idle \/ _status a = status_error ->
  isConnected a = false /\
  st_conversationState (getState a) = conv_idle /\
  isAiSpeaking a = false /\ isUserSpeaking a = false /\
  st_isConnected (getState a) = false /\
  st_isAiSpeaking (getState a) = false /\
  st_isUserSpeaking (getState a) = false.
Proof.
  intros Hr Hs. pose proof (settled_while_events_are_live k cfg ra a Hr Hs) as Hc.
  unfold getState, isConnected, isAiSpeaking, isUserSpeaking.
  cbn [st_conversationState st_isConnected st_isAiSpeaking st_isUserSpeaking].
  rewrite Hc. by destruct Hs as [-> | ->].
Qed.

Lemma accessors_agree_off_line_witness :
  isAiSpeaking
    (final (perform op_disconnect
              (final (sessionEvent agent_start
                        (final (perform (op_connect Sample.resolves)
                                  (initial AvenClass
                                     (mergeConfig AvenClass Sample.fullConfig)
                                     Sample.theAgent)))))))
  = false.
Proof.
  refine (proj1 (proj2 (proj2
    (accessors_agree_off_line AvenClass
       (mergeConfig AvenClass Sample.fullConfig) Sample.theAgent _
       (live_call AvenClass (mergeConfig AvenClass Sample.fullConfig)
          Sample.theAgent _ op_disconnect
          (live_event AvenClass (mergeConfig AvenClass Sample.fullConfig)
             Sample.theAgent _ agent_start
             (live_call AvenClass (mergeConfig AvenClass Sample.fullConfig)
                Sample.theAgent _ (op_connect Sample.resolves)
                (live_initial AvenClass
                   (mergeConfig AvenClass Sample.fullConfig) Sample.theAgent)
                eq_refl)
             (or_intror eq_refl))
          eq_refl)
       (or_introl eq_refl))))).
Defined.

(* ---------------------------------------------------------------------- *)
(** ** More on the listener registry *)
(* ---------------------------------------------------------------------- *)

Section RegistryFacts.
Import EventBus Quiet Registry.

Lemma wellFormed_empty : wellFormed EventBus.empty.
Proof.
  intros ev entries H.
  change ((∅ : gmap string (list (option Callback))) !! ev = Some entries) in H.
  by rewrite lookup_empty in H.
Qed.

Lemma wellFormed_listeners b b' :
  listeners b' = listeners b -> wellFormed b -> wellFormed b'.
Proof. unfold wellFormed. by intros ->. Qed.

Lemma wellFormed_on ev cb b : wellFormed b -> wellFormed (on ev cb b).
Proof.
  intros Hwf ev' entries. unfold on. cbn [listeners with_listeners].
  destruct (decide (ev' = ev)) as [-> | Hne].
  - rewrite lookup_insert_eq. intros [= <-]. apply set_add_NoDup.
    destruct (listeners b !! ev) as [l |] eqn:Hl; cbn.
    + by apply (Hwf ev).
    + apply NoDup_nil_2.
  - rewrite lookup_insert_ne by done. apply Hwf.
Qed.

Lemma wellFormed_off ev cb b : wellFormed b -> wellFormed (off ev cb b).
Proof.
  intros Hwf ev' entries. unfold off.
  destruct (listeners b !! ev) as [l |] eqn:Hl; [| apply Hwf].
  cbn [listeners with_listeners].
  destruct (decide (ev' = ev)) as [-> | Hne].
  - rewrite lookup_insert_eq. intros [= <-]. apply set_delete_NoDup.
    by apply (Hwf ev).
  - rewrite lookup_insert_ne by done. apply Hwf.
Qed.

Lemma wellFormed_once ev cb b : wellFormed b -> wellFormed (once ev cb b).
Proof. intros Hwf. unfold once. by apply wellFormed_on. Qed.

Lemma wellFormed_removeAll b : wellFormed (EventBus.removeAllListeners b).
Proof.
  intros ev entries H.
  change ((∅ : gmap string (list (option Callback))) !! ev = Some entries) in H.
  by rewrite lookup_empty in H.
Qed.

Variable body : nat -> list Action.

(** Running listeners keeps every set free of duplicates, whatever the
    listeners do to the registry. *)
Lemma wellFormed_run n :
  (forall cb b r, wellFormed b -> call body n cb b = Some r -> wellFormed r.2) /\
  (forall acts b r, wellFormed b -> exec body n acts b = Some r ->
     wellFormed r.2) /\
  (forall ev i b b', wellFormed b -> forEach body n ev i b = Some b' ->
     wellFormed b') /\
  (forall ev b b', wellFormed b -> emit body n ev b = Some b' -> wellFormed b').
Proof.
  induction n as [| n (IHc & IHx & IHf & IHe)];
    [repeat split; intros; discriminate |].
  repeat split.
  - intros cb b r Hwf H. cbn in H. destruct cb as [f | k ev inner].
    + by apply (IHx _ _ _ (wellFormed_listeners b (record _ b) eq_refl Hwf)) in H.
    + refine (IHc _ _ _ _ H). apply wellFormed_off.
      by apply (wellFormed_listeners b).
  - intros acts b r Hwf H. cbn in H.
    destruct acts as [| [tag | e | ev cb | ev cb | ev cb | ev] rest].
    + by injection H as <-.
    + refine (IHx _ _ _ _ H). by apply (wellFormed_listeners b).
    + by injection H as <-.
    + refine (IHx _ _ _ _ H). by apply wellFormed_on.
    + refine (IHx _ _ _ _ H). by apply wellFormed_once.
    + refine (IHx _ _ _ _ H). by apply wellFormed_off.
    + destruct (emit body n ev b) as [b1 |] eqn:He; [| done].
      refine (IHx _ _ _ _ H). by apply (IHe ev b).
  - intros ev i b b' Hwf H. cbn in H.
    destruct (default [] (listeners b !! ev) !! i) as [[cb |] |].
    + destruct (call body n cb b) as [[[| e] b1] |] eqn:Hc; [| | done].
      * refine (IHf _ _ _ _ _ H). by apply (IHc cb b (Done, b1)).
      * refine (IHf _ _ _ _ _ H).
        apply (wellFormed_listeners b1); [done |].
        by apply (IHc cb b (Raised e, b1)).
    + by apply (IHf ev (S i) b).
    + by injection H as <-.
  - intros ev b b' Hwf H. cbn in H.
    destruct (listeners b !! ev); [by apply (IHf ev 0 b) | by injection H as <-].
Qed.

(** X26. No listener set ever holds the same function twice: starting
    from a registry with that property, the empty one for instance, it
    still holds after any sequence of [on], [once], [off],
    [removeAllListeners] and publications, whatever the listeners called
    by those publications do to the registry in turn. *)
Theorem registry_stays_wellFormed
    (fuel : nat) (l : list Step) (b b' : Bus) :
  wellFormed b -> steps body fuel l b = Some b' -> wellFormed b'.
Proof.
  revert b. induction l as [| s rest IH]; intros b Hwf H.
  - by injection H as <-.
  - cbn [steps] in H. destruct (step body fuel s b) as [b1 |] eqn:Hs; [| done].
    refine (IH b1 _ H). destruct s as [ev cb | ev cb | ev cb | | ev]; cbn in Hs.
    + injection Hs as <-. by apply wellFormed_on.
    + injection Hs as <-. by apply wellFormed_once.
    + injection Hs as <-. by apply wellFormed_off.
    + injection Hs as <-. apply wellFormed_removeAll.
    + by apply (proj2 (proj2 (proj2 (wellFormed_run fuel))) ev b).
Qed.

End RegistryFacts.

Lemma registry_stays_wellFormed_witness :
  Registry.wellFormed
    (default EventBus.empty
       (Registry.steps Sample.hostCode 20
          [Registry.do_on "x" (EventBus.Host 2);
           Registry.do_on "x" (EventBus.Host 1);
           Registry.do_on "x" (EventBus.Host 1);
           Registry.do_emit "x"]
          EventBus.empty)).
Proof.
  apply (registry_stays_wellFormed Sample.hostCode 20
           [Registry.do_on "x" (EventBus.Host 2);
            Registry.do_on "x" (EventBus.Host 1);
            Registry.do_on "x" (EventBus.Host 1);
            Registry.do_emit "x"]
           EventBus.empty).
  - apply wellFormed_empty.
  - vm_compute. reflexivity.
Defined.

Section Subscriptions.
Import EventBus Quiet Registry.

Lemma set_add_elem entries cb : Some cb ∈ set_add entries cb.
Proof.
  unfold set_add. case_bool_decide as H; [done |].
  apply elem_of_app. right. apply list_elem_of_here.
Qed.

Lemma set_add_again entries cb :
  set_add (set_add entries cb) cb = set_add entries cb.
Proof.
  unfold set_add at 1. by rewrite bool_decide_eq_true_2 by apply set_add_elem.
Qed.

Lemma live_elem entries cb : (cb ∈ live entries) <-> (Some cb ∈ entries).
Proof.
  unfold live. rewrite list_elem_of_omap. split.
  - by intros ([x |] & Hx & [= ->]).
  - intros H. by exists (Some cb).
Qed.

Lemma set_delete_gone entries cb : cb ∉ live (set_delete entries cb).
Proof.
  rewrite live_elem. unfold set_delete. rewrite list_elem_of_fmap.
  intros (e & He & _). by case_bool_decide.
Qed.

(** X27. Subscribing a function that is already subscribed changes
    nothing; after [on] the function is among the subscribers and after
    [off] it is not; [off] for an event nobody ever subscribed to leaves
    the registry as it is; neither touches the subscribers of another
    event; and [removeAllListeners] leaves no subscriber for any event. *)
Theorem subscription_round_trips (ev : string) (cb : Callback) (b : Bus) :
  on ev cb (on ev cb b) = on ev cb b /\
  (cb ∈ subscribers ev (on ev cb b)) /\
  (cb ∉ subscribers ev (off ev cb b)) /\
  (listeners b !! ev = None -> off ev cb b = b) /\
  (forall ev', ev' <> ev ->
     subscribers ev' (on ev cb b) = subscribers ev' b /\
     subscribers ev' (off ev cb b) = subscribers ev' b) /\
  (forall ev', subscribers ev' (EventBus.removeAllListeners b) = []).
Proof.
  split; [| split; [| split; [| split; [| split]]]].
  - unfold on. cbn [listeners with_listeners closures log].
    rewrite lookup_insert_eq. cbn [default from_option]. unfold Datatypes.id.
    by rewrite set_add_again, insert_insert_eq.
  - unfold subscribers, on. cbn [listeners with_listeners].
    rewrite lookup_insert_eq. cbn [default from_option]. unfold Datatypes.id.
    apply live_elem, set_add_elem.
  - unfold subscribers, off.
    destruct (listeners b !! ev) as [l |] eqn:Hl.
    + cbn [listeners with_listeners]. rewrite lookup_insert_eq.
      cbn [default from_option]. unfold Datatypes.id. apply set_delete_gone.
    + rewrite Hl. cbn. apply not_elem_of_nil.
  - intros Hl. unfold off. by rewrite Hl.
  - intros ev' Hne. unfold subscribers, on, off. split.
    + cbn [listeners with_listeners]. by rewrite lookup_insert_ne.
    + destruct (listeners b !! ev); [| done].
      cbn [listeners with_listeners]. by rewrite lookup_insert_ne.
  - intros ev'. unfold subscribers.
    change (listeners (EventBus.removeAllListeners b))
      with (∅ : gmap string (list (option Callback))).
    by rewrite lookup_empty.
Qed.

Variable body : nat -> list Action.

(** X28. A subscription made through [once] is not cancelled by [off]
    with the callback that was given to [once]: the registry holds the
    wrapper, and the next publication still calls it and, through it, the
    callback.  [off] with the wrapper itself, which is what the function
    returned by [once] does, cancels it. *)
Theorem once_survives_off_of_its_callback (ev : string) (f : nat) :
  forallb reentrant_action (body f) = true ->
  (exists n b',
     emit body n ev (off ev (Host f) (once ev (Host f) EventBus.empty))
       = Some b' /\
     calls (log b') = [Wrapped 0 ev (Host f); Host f]) /\
  (exists b',
     emit body 3 ev
       (off ev (Wrapped 0 ev (Host f)) (once ev (Host f) EventBus.empty))
       = Some b' /\
     calls (log b') = []).
Proof.
  intros Hbody.
  destruct (once_n_registers ev f 0) as (Hl & _ & Hg).
  change (once_n 1 ev (Host f) EventBus.empty)
    with (once ev (Host f) EventBus.empty) in Hl, Hg.
  split.
  - assert (Hoff : listeners (off ev (Host f) (once ev (Host f) EventBus.empty))
                   = {[ev := slots ev f 1 0]}).
    { unfold off. rewrite Hl, lookup_singleton_eq.
      cbn [listeners with_listeners]. by rewrite insert_singleton_eq. }
    destruct (emit_finishes body ev f 1 Hbody 0 _ ltac:(lia) Hoff)
      as (n & b' & He & _ & Hc).
    exists n, b'. split; [exact He |]. rewrite Hc.
    unfold off. rewrite Hl, lookup_singleton_eq. cbn [log with_listeners].
    by rewrite Hg.
  - eexists. split.
    + unfold off. rewrite Hl, lookup_singleton_eq.
      cbn [emit forEach listeners with_listeners].
      rewrite insert_singleton_eq, lookup_singleton_eq.
      cbn. rewrite bool_decide_eq_true_2 by done. cbn. reflexivity.
    + cbn [log with_listeners]. by rewrite Hg.
Qed.


End Subscriptions.

Lemma once_survives_off_of_its_callback_witness :
  exists n b',
    EventBus.emit Sample.hostCode n "x"
      (EventBus.off "x" (EventBus.Host 4)
         (EventBus.once "x" (EventBus.Host 4) EventBus.empty)) = Some b' /\
    EventBus.calls (EventBus.log b')
      = [EventBus.Wrapped 0 "x" (EventBus.Host 4); EventBus.Host 4].
Proof.
  exact (proj1 (once_survives_off_of_its_callback Sample.hostCode "x" 4
                  eq_refl)).
Defined.


(* ---------------------------------------------------------------------- *)
(** ** The greeting *)
(* ---------------------------------------------------------------------- *)

Lemma greetingText_eq a :
  greetingText a =
  if ui_enabled (config a) && truthy (_currentDOM a)
  then baseGreeting (config a) +:+ newline2 +:+
       "[Current UI state for reference - do not read this aloud, just use it to understand the page:]"
       +:+ newline +:+ "```html" +:+ newline +:+ default "" (_currentDOM a)
       +:+ newline +:+ "```"
  else baseGreeting (config a).
Proof. reflexivity. Qed.

Lemma connectResume_resolved_DOM w s :
  connectAnswer w = None ->
  session s <> None ->
  _currentDOM (final (connectResume w s)) =
    if ui_enabled (config s) && bool_decide (ui_rootElement (config s) <> None)
    then Some (captured (rootHTML w) (snapshotAnswer w))
    else _currentDOM s.
Proof.
  destruct s as [k cfg ra ses st cv er hi mc ac dom tm].
  destruct cfg as [sec ag mo vo la gr gm db dn ue ur ua ui um uq].
  destruct w as [ans html snap]. cbn [session connectAnswer].
  intros -> Hs. destruct ses as [x |]; [clear Hs | done].
  destruct st; run_once connectResume ltac:(destruct ue, ur, ua, tm, gr, snap);
    reflexivity.
Qed.

(** X30. With auto-greeting on, the last thing a successful [connect()]
    does is send the greeting.  The greeting opens with the language
    reminder; when the configured greeting is the default text, given
    explicitly or not, it is replaced by the greeting of the configured
    language.  With UI mode on and a root element, the snapshot captured
    during this same [connect()] is appended; with UI mode off nothing is
    appended, whatever the cache holds. *)
Theorem greeting_sent_on_connect (w : ConnectWorld) (a : Aven) :
  session a = None ->
  connectAnswer w = None ->
  cfg_autoGreet (config a) = true ->
  last (sessionCalls (trace (connect w a))) =
    Some (SendMessage (greetingText (final (connect w a)))) /\
  (cfg_greetingMessage (config a) = "Hello!" ->
   baseGreeting (config a) =
     "[IMPORTANT: Respond in " +:+ getLanguageName (cfg_language (config a)) +:+
     " only. Say your greeting in " +:+
     getLanguageName (cfg_language (config a)) +:+ ".]" +:+ newline2 +:+
     getLanguageGreeting (cfg_language (config a))) /\
  (ui_enabled (config a) = false ->
   greetingText (final (connect w a)) = baseGreeting (config a)) /\
  (ui_enabled (config a) = true ->
   ui_rootElement (config a) <> None ->
   captured (rootHTML w) (snapshotAnswer w) <> "" ->
   greetingText (final (connect w a)) =
     baseGreeting (config a) +:+ newline2 +:+
     "[Current UI state for reference - do not read this aloud, just use it to understand the page:]"
     +:+ newline +:+ "```html" +:+ newline +:+
     captured (rootHTML w) (snapshotAnswer w) +:+ newline +:+ "```").
Proof.
  intros Hs Hw Hg. rewrite (connect_run w a Hs). cbn [final trace fst snd].
  destruct (connectBegin_run a) as (_ & (_ & Hse1 & _) & (Hcf1 & _) & _).
  assert (Hheld : session (final (connectBegin a)) <> None) by (by rewrite Hse1).
  destruct (connectResume_resolved w _ Hw Hheld)
    as (_ & _ & (Hcf2 & _) & Hsc & _).
  pose proof (connectResume_resolved_DOM w _ Hw Hheld) as Hdom.
  rewrite Hcf1 in Hcf2, Hsc, Hdom. rewrite Hg in Hsc.
  split; [| split; [| split]].
  - rewrite sessionCalls_app, Hsc. by apply last_app_cons.
  - intros Hm. unfold baseGreeting. by rewrite Hm.
  - intros Hue. by rewrite greetingText_eq, Hcf2, Hue.
  - intros Hue Hur Hne. rewrite greetingText_eq, Hcf2, Hue, Hdom, Hue.
    rewrite bool_decide_eq_true_2 by done. cbn [andb].
    by rewrite (truthy_Some _ Hne).
Qed.

Lemma greeting_sent_on_connect_witness :
  greetingText
    (final (connect Sample.resolves (Sample.fresh AtticusClass Sample.uiConfig)))
  = baseGreeting (mergeConfig AtticusClass Sample.uiConfig) +:+ newline2 +:+
    "[Current UI state for reference - do not read this aloud, just use it to understand the page:]"
    +:+ newline +:+ "```html" +:+ newline +:+ "<p>hi</p>" +:+ newline +:+ "```".
Proof.
  refine (proj2 (proj2 (proj2
            (greeting_sent_on_connect Sample.resolves
               (Sample.fresh AtticusClass Sample.uiConfig)
               eq_refl eq_refl eq_refl))) eq_refl _ _); discriminate.
Defined.
